(** * cdrxiv/file-uploader: the S3-to-Zenodo relay of [aws-lambda/src/index.ts]

    A shallow embedding of the TypeScript sources and the properties they
    satisfy.  Three generations of the Lambda handler live in the sources:

    - [Buffered]  ([src/types.ts], lines 65-257): the whole object is read
      into a buffer and sent with one PUT, metadata helpers included;
    - [Chunked]   ([src/types.ts], lines 259-437): the object is sent in
      ranges of [CHUNK_SIZE] bytes, each PUT going through [fetchWithRetry];
    - [Streaming] ([aws-lambda/src/index.ts]): the object stream is sent
      with one PUT through [fetchWithRetry] and its size is checked with a
      HEAD request.

    Modelling conventions.

    - A JavaScript string is a [string] holding its UTF-8 bytes; strings
      are assumed well formed (no lone surrogates).
    - A JavaScript number that the code uses as a size or a counter is a
      [Z] (sizes stay below 2^53, where the numbers of JavaScript are
      exact); [NaN], where [parseInt] can produce it, is [None].  The
      result of [parseInt] is the integer that the digits write; it is
      the number of JavaScript as long as it is a safe integer
      ([isSafeInteger]), and the statements about a header that comes
      from outside say so.
    - An [async] function is a computation in the monad [M]: it reads the
      replies of the outside world from an environment [Env], records what
      it does in a trace of [Event]s, and ends in [Ok v] (the promise is
      fulfilled with [v]) or [Throw e] (the promise is rejected with [e]).
    - [console.log] and [console.error] are events carrying the values
      that the message interpolates. *)

From Stdlib Require Import ZArith List String Ascii Bool Lia DecimalString.
From Equations Require Import Equations.
Import ListNotations.

Open Scope string_scope.
Open Scope Z_scope.

(* ===================================================================== *)
(** * JavaScript built-ins used by the sources *)
(* ===================================================================== *)

Module Js.

(** ** Thrown values *)

(** What a [throw] or a rejected promise carries: an [Error] object (of
    the class [name], with its [message]) or any other value, of which
    only [String(value)] is ever observed. *)
Inductive Thrown : Type :=
| ErrorObj (name message : string)
| NonError (text : string).

(** [new Error(message)] *)
Definition Error (message : string) : Thrown := ErrorObj "Error" message.
Definition TypeError (message : string) : Thrown := ErrorObj "TypeError" message.
Definition URIError (message : string) : Thrown := ErrorObj "URIError" message.

(** [error instanceof Error] *)
Definition instanceof_Error (e : Thrown) : bool :=
  match e with ErrorObj _ _ => true | NonError _ => false end.

(** [error instanceof Error ? error.message : String(error)] *)
Definition message_or_String (e : Thrown) : string :=
  match e with ErrorObj _ m => m | NonError t => t end.

Inductive Result (A : Type) : Type :=
| Ok (value : A)
| Throw (error : Thrown).
Arguments Ok {A} value.
Arguments Throw {A} error.

(** ** Numbers and strings *)

(** [n.toString()] and [`${n}`] for an integral number. *)
Definition Number_toString (n : Z) : string :=
  NilZero.string_of_int (Z.to_int n).

(** [`${v}`] for a value that may be [undefined]. *)
Definition template (v : option string) : string :=
  match v with Some s => s | None => "undefined" end.

(** [`${n}`] for a number that may be [NaN]. *)
Definition template_number (n : option Z) : string :=
  match n with Some z => Number_toString z | None => "NaN" end.

(** [s.startsWith(p)] *)
Definition startsWith (s p : string) : bool := String.prefix p s.

(** [s.replace(/\+/g, ' ')] *)
Fixpoint replace_plus_with_space (s : string) : string :=
  match s with
  | EmptyString => EmptyString
  | String c r =>
      String (if Ascii.eqb c "+"%char then " "%char else c)
             (replace_plus_with_space r)
  end.

(** [s.split('/')], accumulating the current segment in [cur]. *)
Fixpoint split_slash_from (cur s : string) : list string :=
  match s with
  | EmptyString => [cur]
  | String c r =>
      if Ascii.eqb c "/"%char
      then cur :: split_slash_from EmptyString r
      else split_slash_from (cur ++ String c EmptyString) r
  end.

Definition split_slash (s : string) : list string :=
  split_slash_from EmptyString s.

(** [a.pop()]: the last element, [undefined] on an empty array. *)
Definition pop (a : list string) : option string :=
  match rev a with [] => None | x :: _ => Some x end.

(** [!v] for a value that is a string or [undefined]. *)
Definition falsy_string (v : option string) : bool :=
  match v with
  | None => true
  | Some s => String.eqb s EmptyString
  end.

(** [!n] for a value that is a number or [undefined]. *)
Definition falsy_number (v : option Z) : bool :=
  match v with
  | None => true
  | Some n => n =? 0
  end.

(** ** Percent encoding *)

Definition hex_digit (n : N) : ascii :=
  if (n <? 10)%N then ascii_of_N (48 + n) else ascii_of_N (55 + n).

Definition percent_escape (c : ascii) : string :=
  let n := N_of_ascii c in
  String "%" (String (hex_digit (n / 16)) (String (hex_digit (n mod 16)) EmptyString)).

Definition is_digit (c : ascii) : bool :=
  let n := N_of_ascii c in (48 <=? n)%N && (n <=? 57)%N.

Definition is_alpha (c : ascii) : bool :=
  let n := N_of_ascii c in
  ((65 <=? n)%N && (n <=? 90)%N) || ((97 <=? n)%N && (n <=? 122)%N).

Definition mem_ascii (c : ascii) (s : string) : bool :=
  existsb (Ascii.eqb c) (list_ascii_of_string s).

(** The characters [encodeURIComponent] leaves alone: letters, digits and
    [- _ . ! ~ * ' ( )]. *)
Definition uri_unreserved (c : ascii) : bool :=
  is_alpha c || is_digit c || mem_ascii c "-_.!~*'()".

(** [encodeURIComponent(s)]: every other byte of the UTF-8 form is
    escaped. *)
Fixpoint encodeURIComponent (s : string) : string :=
  match s with
  | EmptyString => EmptyString
  | String c r =>
      (if uri_unreserved c then String c EmptyString else percent_escape c)
        ++ encodeURIComponent r
  end.

(** The serializer of [URLSearchParams] (application/x-www-form-urlencoded):
    letters, digits and [* - . _] stay, a space becomes [+]. *)
Definition form_unreserved (c : ascii) : bool :=
  is_alpha c || is_digit c || mem_ascii c "*-._".

Fixpoint form_urlencode (s : string) : string :=
  match s with
  | EmptyString => EmptyString
  | String c r =>
      (if form_unreserved c then String c EmptyString
       else if Ascii.eqb c " "%char then "+"
       else percent_escape c)
        ++ form_urlencode r
  end.

(** [`${new URLSearchParams({ access_token: v })}`] *)
Definition URLSearchParams_access_token (v : string) : string :=
  "access_token=" ++ form_urlencode v.

(** ** Percent decoding *)

Definition hex_value (c : ascii) : option N :=
  let n := N_of_ascii c in
  if (48 <=? n)%N && (n <=? 57)%N then Some (n - 48)%N
  else if (65 <=? n)%N && (n <=? 70)%N then Some (n - 55)%N
  else if (97 <=? n)%N && (n <=? 102)%N then Some (n - 87)%N
  else None.

(** One unit of the input of [decodeURIComponent]: a character taken as
    it is, or the byte written by an escape [%XX]. *)
Inductive UriUnit : Type :=
| Plain (c : ascii)
| Escaped (byte : N).

(** First pass: read the escapes; [None] when a [%] is not followed by two
    hexadecimal digits. *)
Fixpoint read_escapes (s : string) : option (list UriUnit) :=
  match s with
  | EmptyString => Some []
  | String c r =>
      if Ascii.eqb c "%"%char then
        match r with
        | String h (String l r') =>
            match hex_value h, hex_value l, read_escapes r' with
            | Some hi, Some lo, Some us => Some (Escaped (16 * hi + lo) :: us)
            | _, _, _ => None
            end
        | _ => None
        end
      else
        match read_escapes r with
        | Some us => Some (Plain c :: us)
        | None => None
        end
  end.

(** What the decoder expects next inside an escaped UTF-8 sequence:
    [more] further bytes, the next one within [lo .. hi]. *)
Record Pending : Type := { more : nat; lo : N; hi : N }.

(** The well-formed UTF-8 sequences (Unicode, table 3-7), by lead byte. *)
Definition utf8_lead (b : N) : option Pending :=
  if (b <? 194)%N then None
  else if (b <=? 223)%N then Some {| more := 1; lo := 128; hi := 191 |}
  else if (b =? 224)%N then Some {| more := 2; lo := 160; hi := 191 |}
  else if (b <=? 236)%N then Some {| more := 2; lo := 128; hi := 191 |}
  else if (b =? 237)%N then Some {| more := 2; lo := 128; hi := 159 |}
  else if (b <=? 239)%N then Some {| more := 2; lo := 128; hi := 191 |}
  else if (b =? 240)%N then Some {| more := 3; lo := 144; hi := 191 |}
  else if (b <=? 243)%N then Some {| more := 3; lo := 128; hi := 191 |}
  else if (b =? 244)%N then Some {| more := 3; lo := 128; hi := 143 |}
  else None.

(** Second pass: escaped bytes below 128 are characters; the others must
    form well-formed UTF-8 sequences made of escapes only. *)
Fixpoint decode_units (p : option Pending) (us : list UriUnit) : option string :=
  match us with
  | [] => match p with None => Some EmptyString | Some _ => None end
  | u :: r =>
      match p, u with
      | None, Plain c =>
          option_map (String c) (decode_units None r)
      | None, Escaped b =>
          if (b <? 128)%N
          then option_map (String (ascii_of_N b)) (decode_units None r)
          else match utf8_lead b with
               | Some q => option_map (String (ascii_of_N b)) (decode_units (Some q) r)
               | None => None
               end
      | Some _, Plain _ => None
      | Some q, Escaped b =>
          if (lo q <=? b)%N && (b <=? hi q)%N
          then option_map (String (ascii_of_N b))
                 (decode_units
                    (match more q with
                     | S (S n) => Some {| more := S n; lo := 128; hi := 191 |}
                     | _ => None
                     end) r)
          else None
      end
  end.

(** [decodeURIComponent(s)]; it throws [URIError] on a malformed input. *)
Definition decodeURIComponent (s : string) : Result string :=
  match read_escapes s with
  | Some us =>
      match decode_units None us with
      | Some d => Ok d
      | None => Throw (URIError "URI malformed")
      end
  | None => Throw (URIError "URI malformed")
  end.

(** ** [parseInt(s, 10)] *)

(** The white space that [parseInt] skips (the white space and the line
    terminators of ECMAScript), in UTF-8.  One byte: U+0009 to U+000D and
    U+0020. *)
Definition is_space (c : ascii) : bool :=
  let n := N_of_ascii c in
  ((9 <=? n)%N && (n <=? 13)%N) || (n =? 32)%N.

(** Two bytes: U+00A0. *)
Definition is_space2 (c1 c2 : ascii) : bool :=
  (N_of_ascii c1 =? 194)%N && (N_of_ascii c2 =? 160)%N.

(** Three bytes: U+1680, U+2000 to U+200A, U+2028, U+2029, U+202F, U+205F,
    U+3000 and U+FEFF. *)
Definition is_space3 (c1 c2 c3 : ascii) : bool :=
  let n1 := N_of_ascii c1 in
  let n2 := N_of_ascii c2 in
  let n3 := N_of_ascii c3 in
  ((n1 =? 225) && (n2 =? 154) && (n3 =? 128))%N
  || ((n1 =? 226) && (n2 =? 128)
      && (((128 <=? n3) && (n3 <=? 138)) || (n3 =? 168) || (n3 =? 169) || (n3 =? 175)))%N
  || ((n1 =? 226) && (n2 =? 129) && (n3 =? 159))%N
  || ((n1 =? 227) && (n2 =? 128) && (n3 =? 128))%N
  || ((n1 =? 239) && (n2 =? 187) && (n3 =? 191))%N.

Fixpoint skip_spaces (s : string) : string :=
  match s with
  | String c1 r1 =>
      if is_space c1 then skip_spaces r1
      else
        match r1 with
        | String c2 r2 =>
            if is_space2 c1 c2 then skip_spaces r2
            else
              match r2 with
              | String c3 r3 => if is_space3 c1 c2 c3 then skip_spaces r3 else s
              | EmptyString => s
              end
        | EmptyString => s
        end
  | EmptyString => EmptyString
  end.

(** The value of the longest prefix of decimal digits, [None] when there
    is no digit at all; [acc] is the value read so far. *)
Fixpoint read_digits (acc : option Z) (s : string) : option Z :=
  match s with
  | String c r =>
      if is_digit c
      then read_digits
             (Some (10 * match acc with Some a => a | None => 0 end
                    + Z.of_N (N_of_ascii c - 48)))
             r
      else acc
  | EmptyString => acc
  end.

(** [parseInt(s, 10)]: the leading white space is skipped, a sign is
    read, and the digits that follow give the integer; [None] is [NaN].
    The integer is the one that the digits write. *)
Definition parseInt10 (s : string) : option Z :=
  match skip_spaces s with
  | String c r =>
      if Ascii.eqb c "-"%char then option_map Z.opp (read_digits None r)
      else if Ascii.eqb c "+"%char then read_digits None r
      else read_digits None (String c r)
  | EmptyString => None
  end.

(** [Number.MAX_SAFE_INTEGER] and [Number.isSafeInteger(n)]: up to
    there the integers are numbers of JavaScript, each with its decimal
    digits as text. *)
Definition MAX_SAFE_INTEGER : Z := 2 ^ 53 - 1.

Definition isSafeInteger (n : Z) : bool := Z.abs n <=? MAX_SAFE_INTEGER.

(** A result of [parseInt] that is the number of JavaScript as it
    stands: [NaN] or a safe integer. *)
Definition is_exact (n : option Z) : bool :=
  match n with
  | Some z => isSafeInteger z
  | None => true
  end.

(** [a !== b] on numbers: [NaN] differs from everything. *)
Definition strict_neq (a : option Z) (b : Z) : bool :=
  match a with
  | Some x => negb (x =? b)
  | None => true
  end.

End Js.

Import Js.

(* ===================================================================== *)
(** * The outside world: S3, the network, the clock and the console *)
(* ===================================================================== *)

Module World.

(** The bytes that a [Readable] stream or a [Buffer] holds. *)
Definition Readable : Type := string.
Definition Buffer : Type := string.

(** The input of [new GetObjectCommand({ Bucket, Key, Range })]. *)
Record GetObjectCommand : Type := {
  Bucket : string;
  Key : string;
  Range : option string
}.

(** The members of the output of [s3Client.send] that the code reads.
    [Body = None] stands for a body that is not a [Readable]. *)
Record GetObjectOutput : Type := {
  Body : option Readable;
  ContentLength : option Z;
  ContentType : option string
}.

(** The values handed to [JSON.stringify]. *)
#[warnings="-register-all"]
Inductive Json : Type :=
| JString (s : string)
| JArray (items : list Json)
| JObject (members : list (string * Json)).

Inductive RequestBody : Type :=
| NoBody
| JsonText (value : Json)
| StreamBody (stream : Readable)
| BufferBody (buffer : Buffer).

(** The second argument of [fetch]. *)
Record RequestInit : Type := {
  method : option string;
  headers : list (string * string);
  body : RequestBody;
  timeout : option Z
}.

(** [links] of the type [Deposition] of [types.ts], restricted to the two
    members that the code reads; [None] is [undefined]. *)
Record DepositionLinks : Type := {
  bucket : option string;
  html : option string
}.

(** The value that [res.json()] yields and that the code casts with
    [as Deposition]: JSON [null], or any other value with its [id] and its
    [links] member ([None] when that member is absent or [null]). *)
Inductive Deposition : Type :=
| JsonNull
| JsonValue (id : option Z) (links : option DepositionLinks).

(** A response of [node-fetch], restricted to what the code reads:
    [content_length] is [headers.get('Content-Length')] and [json] is the
    outcome of [res.json()]. *)
Record Response : Type := {
  status : Z;
  statusText : string;
  content_length : option string;
  json : Result Deposition
}.

(** [res.ok] *)
Definition ok (r : Response) : bool :=
  (200 <=? status r) && (status r <? 300).

(** The interpolated values of each [console.log] and [console.error]. *)
Inductive LogMsg : Type :=
| LogRetry (attempt : Z) (delay_ms : Z)
| LogUploaded (sent total : Z)
| LogVerified (finalSize : option Z)
| LogProcessing (objectKey fileName : string)
| LogFileSize (size : Z)
| LogCreating
| LogDepositionResponse (d : Deposition)
| LogDepositionCreated (id : option Z)
| LogStartUpload
| LogUploadStatus (status : Z)
| LogSuccess (objectKey : string)
| LogUploadedTo (objectKey : string) (html : option string)
| LogZenodoUrl (html : option string)
| LogError (e : Thrown)
| LogErrorDetails (message : string)
| LogStackTrace.

Inductive Event : Type :=
| S3Send (cmd : GetObjectCommand)
| Fetch (url : string) (init : RequestInit)
| Sleep (ms : Z)
| Console (msg : LogMsg).

(** The replies of the outside world.  The [n]-th call of [s3Client.send]
    (resp. of [fetch]) of an invocation, counted from 0, is answered by
    [s3_reply n] (resp. [fetch_reply n]) applied to the arguments of the
    call; [Throw] is a rejected promise (for [fetch]: a network failure). *)
Record Env : Type := {
  s3_reply : nat -> GetObjectCommand -> Result GetObjectOutput;
  fetch_reply : nat -> string -> RequestInit -> Result Response
}.

(** [process.env] *)
Record ProcessEnv : Type := {
  ZENODO_ACCESS_TOKEN : option string;
  ZENODO_URL : option string
}.

(** The state of an invocation: how many calls were made so far, and
    everything that was done, oldest first. *)
Record State : Type := {
  s3_calls : nat;
  fetch_calls : nat;
  trace : list Event
}.

Definition initial : State :=
  {| s3_calls := 0; fetch_calls := 0; trace := [] |}.

Definition record (ev : Event) (w : State) : State :=
  {| s3_calls := s3_calls w; fetch_calls := fetch_calls w;
     trace := trace w ++ [ev] |}.

(** ** The monad of [async] code *)

Definition M (A : Type) : Type := State -> Result A * State.

Definition ret {A} (a : A) : M A := fun w => (Ok a, w).

Definition throw {A} (e : Thrown) : M A := fun w => (Throw e, w).

Definition bind {A B} (m : M A) (k : A -> M B) : M B :=
  fun w =>
    match m w with
    | (Ok a, w') => k a w'
    | (Throw e, w') => (Throw e, w')
    end.

(** [try { m } catch (error) { h error }] *)
Definition try_catch {A} (m : M A) (h : Thrown -> M A) : M A :=
  fun w =>
    match m w with
    | (Ok a, w') => (Ok a, w')
    | (Throw e, w') => h e w'
    end.

(** A synchronous expression that may throw. *)
Definition lift {A} (r : Result A) : M A := fun w => (r, w).

Definition console (msg : LogMsg) : M unit :=
  fun w => (Ok tt, record (Console msg) w).

(** [await new Promise((resolve) => setTimeout(resolve, ms))] *)
Definition sleep (ms : Z) : M unit :=
  fun w => (Ok tt, record (Sleep ms) w).

Section Calls.
Variable env : Env.

(** [await s3Client.send(new GetObjectCommand(cmd))] *)
Definition s3Client_send (cmd : GetObjectCommand) : M GetObjectOutput :=
  fun w =>
    (s3_reply env (s3_calls w) cmd,
     {| s3_calls := S (s3_calls w); fetch_calls := fetch_calls w;
        trace := trace w ++ [S3Send cmd] |}).

(** [await fetch(url, init)] *)
Definition fetch (url : string) (init : RequestInit) : M Response :=
  fun w =>
    (fetch_reply env (fetch_calls w) url init,
     {| s3_calls := s3_calls w; fetch_calls := S (fetch_calls w);
        trace := trace w ++ [Fetch url init] |}).
End Calls.

(** Reading [deposition.id] and [deposition.links.bucket]; the messages
    are those of V8. *)
Definition read_id (d : Deposition) : Result (option Z) :=
  match d with
  | JsonNull => Throw (TypeError "Cannot read properties of null (reading 'id')")
  | JsonValue i _ => Ok i
  end.

Definition read_links (d : Deposition) : Result DepositionLinks :=
  match d with
  | JsonNull => Throw (TypeError "Cannot read properties of null (reading 'links')")
  | JsonValue _ None =>
      Throw (TypeError "Cannot read properties of undefined (reading 'bucket')")
  | JsonValue _ (Some l) => Ok l
  end.

(** ** Observations on traces *)

Definition is_fetch (ev : Event) : bool :=
  match ev with Fetch _ _ => true | _ => false end.

Definition is_sleep (ev : Event) : bool :=
  match ev with Sleep _ => true | _ => false end.

Definition is_s3 (ev : Event) : bool :=
  match ev with S3Send _ => true | _ => false end.

(** A request with the method [PUT]. *)
Definition is_put (ev : Event) : bool :=
  match ev with
  | Fetch _ init =>
      match method init with Some m => String.eqb m "PUT" | None => false end
  | _ => false
  end.

Definition count (p : Event -> bool) (t : list Event) : nat :=
  List.length (filter p t).

End World.

Import World.

Declare Scope async_scope.
Delimit Scope async_scope with async.
Notation "x <- m ;; k" := (bind m (fun x => k))
  (at level 61, m at next level, right associativity) : async_scope.
Notation "m ;; k" := (bind m (fun _ => k))
  (at level 61, right associativity) : async_scope.
Open Scope async_scope.

(* ===================================================================== *)
(** * The Lambda interface *)
(* ===================================================================== *)

Module Lambda.

(** A record of an [S3Event]: [record.s3.bucket.name] and
    [record.s3.object.key]. *)
Record S3EventRecord : Type := {
  bucket_name : string;
  object_key : string
}.

Record S3Event : Type := { Records : list S3EventRecord }.

(** What a handler returns: [{ statusCode, body }]. *)
Record HandlerResult : Type := {
  statusCode : Z;
  body : string
}.

End Lambda.

(* ===================================================================== *)
(** * Code shared by the generations of the handler *)
(* ===================================================================== *)

Module Common.

(** The payload of the creation request. *)
Definition deposition_metadata : Json :=
  JObject
    [("metadata",
      JObject [("upload_type", JString "dataset");
               ("communities", JArray [JObject [("identifier", JString "cdrxiv")]])])].

(** The first lines of every [handler], before its [try]: the bucket
    name, the object key and the file name of [event.Records[0]]. *)
Definition handler_prelude (event : Lambda.S3Event) : Result (string * string * string) :=
  match Lambda.Records event with
  | [] => Throw (TypeError "Cannot read properties of undefined (reading 's3')")
  | record :: _ =>
      let bucketName := Lambda.bucket_name record in
      match decodeURIComponent (replace_plus_with_space (Lambda.object_key record)) with
      | Throw e => Throw e
      | Ok objectKey =>
          let fileName := pop (split_slash objectKey) in
          if falsy_string fileName
          then Throw (Error "File name is required")
          else Ok (bucketName, objectKey, template fileName)
      end
  end.

Section Retrying.
Variable env : Env.
Variable penv : ProcessEnv.
(** [const MAX_RETRIES = 3] and [const RETRY_DELAY = 5000] in the
    sources; see [MAX_RETRIES_src] and [RETRY_DELAY_src]. *)
Variable MAX_RETRIES : nat.
Variable RETRY_DELAY : Z.

(** [fetchWithRetry(url, options, retries)] ([index.ts], lines 13-32;
    [types.ts], lines 274-293). *)
Fixpoint fetchWithRetry (url : string) (options : RequestInit) (retries : nat)
  : M Response :=
  try_catch (fetch env url options)
    (fun error =>
       match retries with
       | S retries' =>
           console (LogRetry (Z.of_nat MAX_RETRIES - Z.of_nat retries + 1) RETRY_DELAY) ;;
           sleep RETRY_DELAY ;;
           fetchWithRetry url options retries'
       | O => throw error
       end).

(** The address and the options of the creation request. *)
Definition creation_url : string :=
  template (ZENODO_URL penv) ++ "/api/deposit/depositions".

Definition creation_request : RequestInit :=
  {| method := Some "POST";
     headers := [("Authorization", "Bearer " ++ template (ZENODO_ACCESS_TOKEN penv));
                 ("Content-Type", "application/json")];
     body := JsonText deposition_metadata;
     timeout := None |}.

(** [createDataDeposition()] ([index.ts], lines 86-107; [types.ts],
    lines 358-379). *)
Definition createDataDeposition : M Deposition :=
  res <- fetchWithRetry creation_url creation_request MAX_RETRIES ;;
  if negb (ok res)
  then throw (Error ("Failed to create deposition: " ++ statusText res))
  else
    result <- lift (json res) ;;
    ret result.
End Retrying.

Definition MAX_RETRIES_src : nat := 3.
Definition RETRY_DELAY_src : Z := 5000.

End Common.

(* ===================================================================== *)
(** * [aws-lambda/src/index.ts]: streaming upload with verification *)
(* ===================================================================== *)

Module Streaming.

Section Program.
Variable env : Env.
Variable penv : ProcessEnv.
Variable MAX_RETRIES : nat.
Variable RETRY_DELAY : Z.

Let fetchWithRetry := Common.fetchWithRetry env MAX_RETRIES RETRY_DELAY.
Let createDataDeposition := Common.createDataDeposition env penv MAX_RETRIES RETRY_DELAY.

(** [headers.get('Content-Length') || '0'] *)
Definition content_length_or_0 (r : Response) : string :=
  if falsy_string (content_length r) then "0" else template (content_length r).

(** The size that the probe reports: [parseInt(..., 10)]. *)
Definition reported_size (r : Response) : option Z :=
  parseInt10 (content_length_or_0 r).

(** The options of the upload (lines 43-51). *)
Definition put_request (fileStream : Readable) (fileSize : Z) : RequestInit :=
  {| method := Some "PUT";
     headers := [("Authorization", "Bearer " ++ template (ZENODO_ACCESS_TOKEN penv));
                 ("Content-Type", "application/octet-stream");
                 ("Content-Length", Number_toString fileSize)];
     body := StreamBody fileStream;
     timeout := Some 0 |}.

(** The address and the options of the probe (lines 58-65). *)
Definition probe_url (url : string) : string :=
  url ++ "?" ++ URLSearchParams_access_token (template (ZENODO_ACCESS_TOKEN penv)).

Definition probe_request : RequestInit :=
  {| method := Some "HEAD"; headers := []; body := NoBody; timeout := None |}.

(** [uploadFileToZenodo(deposition, fileName, fileStream, fileSize)]
    (lines 34-84). *)
Definition uploadFileToZenodo (deposition : Deposition) (fileName : string)
    (fileStream : Readable) (fileSize : Z) : M unit :=
  links <- lift (read_links deposition) ;;
  let url := template (bucket links) ++ "/" ++ encodeURIComponent fileName in
  response <- fetchWithRetry url (put_request fileStream fileSize) MAX_RETRIES ;;
  if negb (ok response)
  then throw (Error ("Failed to upload file: " ++ statusText response))
  else
    finalResponse <- fetch env (probe_url url) probe_request ;;
    if negb (ok finalResponse)
    then throw (Error ("Failed to verify final file size: " ++ statusText finalResponse))
    else
      let finalSize := reported_size finalResponse in
      if strict_neq finalSize fileSize
      then throw (Error ("Final file size mismatch. Expected: "
                           ++ Number_toString fileSize
                           ++ ", Actual: " ++ template_number finalSize))
      else
        console (LogVerified finalSize) ;;
        ret tt.

(** The [catch] clause of the handler (lines 154-166). *)
Definition handler_catch (error : Thrown) : M Lambda.HandlerResult :=
  console (LogError error) ;;
  (if instanceof_Error error
   then console (LogErrorDetails (message_or_String error)) ;; console LogStackTrace
   else ret tt) ;;
  ret {| Lambda.statusCode := 500;
         Lambda.body := "Error processing file: " ++ message_or_String error |}.

(** The [try] block of the handler (lines 121-153). *)
Definition handler_try (bucketName objectKey fileName : string)
  : M Lambda.HandlerResult :=
  out <- s3Client_send env {| Bucket := bucketName; Key := objectKey; Range := None |} ;;
  match Body out with
  | Some Body' =>
      if falsy_number (ContentLength out)
      then throw (Error "Failed to get file stream from S3")
      else
        let ContentLength' := match ContentLength out with Some n => n | None => 0 end in
        console (LogFileSize ContentLength') ;;
        console LogCreating ;;
        deposition <- createDataDeposition ;;
        id <- lift (read_id deposition) ;;
        console (LogDepositionCreated id) ;;
        console LogStartUpload ;;
        uploadFileToZenodo deposition fileName Body' ContentLength' ;;
        console (LogSuccess objectKey) ;;
        links <- lift (read_links deposition) ;;
        console (LogZenodoUrl (html links)) ;;
        ret {| Lambda.statusCode := 200;
               Lambda.body := "File processed and published successfully" |}
  | None => throw (Error "Failed to get file stream from S3")
  end.

(** [handler(event)] (lines 109-167). *)
Definition handler (event : Lambda.S3Event) : M Lambda.HandlerResult :=
  p <- lift (Common.handler_prelude event) ;;
  let '(bucketName, objectKey, fileName) := p in
  console (LogProcessing objectKey fileName) ;;
  try_catch (handler_try bucketName objectKey fileName) handler_catch.
End Program.

End Streaming.

(* ===================================================================== *)
(** * [src/types.ts], lines 259-437: chunked upload *)
(* ===================================================================== *)

Module Chunked.

(** [const CHUNK_SIZE = 100 * 1024 * 1024] *)
Definition CHUNK_SIZE_src : Z := 100 * 1024 * 1024.

Section Program.
Variable env : Env.
Variable penv : ProcessEnv.
Variable MAX_RETRIES : nat.
Variable RETRY_DELAY : Z.
Variable CHUNK_SIZE : Z.
Hypothesis CHUNK_SIZE_pos : 0 < CHUNK_SIZE.

Let fetchWithRetry := Common.fetchWithRetry env MAX_RETRIES RETRY_DELAY.
Let createDataDeposition := Common.createDataDeposition env penv MAX_RETRIES RETRY_DELAY.

(** [const end = Math.min(start + CHUNK_SIZE - 1, fileSize - 1)] *)
Definition chunk_end (fileSize start : Z) : Z :=
  Z.min (start + CHUNK_SIZE - 1) (fileSize - 1).

(** The ranges [(start, end)] that the loop of
    [uploadLargeFileToZenodo] goes through, from [start] on: the loop
    without its requests. *)
Equations? ranges_from (fileSize start : Z) : list (Z * Z)
  by wf (Z.to_nat (fileSize - start)) lt :=
  ranges_from fileSize start with Z_lt_dec start fileSize => {
    | left _ =>
        (start, chunk_end fileSize start)
          :: ranges_from fileSize (chunk_end fileSize start + 1);
    | right _ => [] }.
Proof. unfold chunk_end. lia. Qed.

(** The range plan of an object of [fileSize] bytes ([let start = 0]). *)
Definition ranges (fileSize : Z) : list (Z * Z) := ranges_from fileSize 0.

(** The options of the PUT of the range [start .. end_] (lines 323-332). *)
Definition chunk_request (fileSize start end_ : Z) (Body' : Readable) : RequestInit :=
  let chunkSize := end_ - start + 1 in
  {| method := Some "PUT";
     headers := [("Authorization", "Bearer " ++ template (ZENODO_ACCESS_TOKEN penv));
                 ("Content-Type", "application/octet-stream");
                 ("Content-Length", Number_toString chunkSize);
                 ("Content-Range",
                  "bytes " ++ Number_toString start ++ "-" ++ Number_toString end_
                    ++ "/" ++ Number_toString fileSize)];
     body := StreamBody Body';
     timeout := Some 0 |}.

(** The command that reads the range [start .. end_] (lines 311-315). *)
Definition chunk_command (bucket' key : string) (start end_ : Z) : GetObjectCommand :=
  {| Bucket := bucket'; Key := key;
     Range := Some ("bytes=" ++ Number_toString start ++ "-" ++ Number_toString end_) |}.

(** One turn of the loop (lines 307-344), up to the assignment
    [start = end + 1] that [upload_loop] performs. *)
Definition upload_chunk (url bucket' key : string) (fileSize start : Z) : M unit :=
  let end_ := chunk_end fileSize start in
  out <- s3Client_send env (chunk_command bucket' key start end_) ;;
  match Body out with
  | None => throw (Error "Failed to get file chunk from S3")
  | Some Body' =>
      response <- fetchWithRetry url (chunk_request fileSize start end_ Body')
                    MAX_RETRIES ;;
      if negb (ok response)
      then throw (Error ("Failed to upload file chunk: " ++ statusText response))
      else console (LogUploaded (end_ + 1) fileSize)
  end.

(** [while (start < fileSize) { ... }] (lines 306-345). *)
Equations? upload_loop (url bucket' key : string) (fileSize start : Z) (w : State)
  : Result unit * State
  by wf (Z.to_nat (fileSize - start)) lt :=
  upload_loop url bucket' key fileSize start w with Z_lt_dec start fileSize => {
    | left _ with upload_chunk url bucket' key fileSize start w => {
        | (Ok _, w') =>
            upload_loop url bucket' key fileSize (chunk_end fileSize start + 1) w';
        | (Throw e, w') => (Throw e, w') };
    | right _ => (Ok tt, w) }.
Proof. unfold chunk_end. lia. Qed.

(** [uploadLargeFileToZenodo(deposition, fileName, bucket, key, fileSize)]
    (lines 296-346). *)
Definition uploadLargeFileToZenodo (deposition : Deposition) (fileName : string)
    (bucket' key : string) (fileSize : Z) : M unit :=
  links <- lift (read_links deposition) ;;
  let url := template (bucket links) ++ "/" ++ encodeURIComponent fileName in
  upload_loop url bucket' key fileSize 0.

(** The [catch] clause of the handler (lines 433-436). *)
Definition handler_catch (error : Thrown) : M Lambda.HandlerResult :=
  console (LogError error) ;;
  ret {| Lambda.statusCode := 500; Lambda.body := "Error processing file" |}.

(** The [try] block of the handler (lines 394-432). *)
Definition handler_try (bucketName objectKey fileName : string)
  : M Lambda.HandlerResult :=
  out <- s3Client_send env {| Bucket := bucketName; Key := objectKey; Range := None |} ;;
  match Body out with
  | Some _ =>
      if falsy_number (ContentLength out)
      then throw (Error "Failed to get file stream from S3")
      else
        let ContentLength' := match ContentLength out with Some n => n | None => 0 end in
        console (LogFileSize ContentLength') ;;
        console LogCreating ;;
        deposition <- createDataDeposition ;;
        id <- lift (read_id deposition) ;;
        console (LogDepositionCreated id) ;;
        console LogStartUpload ;;
        uploadLargeFileToZenodo deposition fileName bucketName objectKey ContentLength' ;;
        console (LogSuccess objectKey) ;;
        links <- lift (read_links deposition) ;;
        console (LogZenodoUrl (html links)) ;;
        ret {| Lambda.statusCode := 200;
               Lambda.body := "File processed and published successfully" |}
  | None => throw (Error "Failed to get file stream from S3")
  end.

(** [handler(event)] (lines 382-437). *)
Definition handler (event : Lambda.S3Event) : M Lambda.HandlerResult :=
  p <- lift (Common.handler_prelude event) ;;
  let '(bucketName, objectKey, fileName) := p in
  console (LogProcessing objectKey fileName) ;;
  try_catch (handler_try bucketName objectKey fileName) handler_catch.
End Program.

End Chunked.

(* ===================================================================== *)
(** * [src/types.ts], lines 65-257: buffered upload and metadata helpers *)
(* ===================================================================== *)

Module Buffered.

Section Program.
Variable env : Env.
Variable penv : ProcessEnv.

(** [streamToBuffer(stream)] (lines 76-82): the bytes of the stream. *)
Definition streamToBuffer (stream : Readable) : M Buffer := ret stream.

(** [buffer.length] *)
Definition Buffer_length (b : Buffer) : Z := Z.of_nat (String.length b).

(** [createDataDeposition()] (lines 84-101): the same request as in the
    later generations, sent with [fetch] itself. *)
Definition createDataDeposition : M Deposition :=
  res <- fetch env (Common.creation_url penv) (Common.creation_request penv) ;;
  result <- lift (json res) ;;
  ret result.

(** [process.env.ZENODO_URL && !url.startsWith(process.env.ZENODO_URL)] *)
Definition invalid_data_url (url : string) : bool :=
  negb (falsy_string (ZENODO_URL penv))
  && negb (startsWith url (template (ZENODO_URL penv))).

Definition bearer_only : list (string * string) :=
  [("Authorization", "Bearer " ++ template (ZENODO_ACCESS_TOKEN penv))].

(** [updateDataDeposition(url, params)] (lines 102-126). *)
Definition updateDataDeposition (url : string) (params : Json) : M Deposition :=
  if invalid_data_url url
  then throw (Error ("Invalid data URL: " ++ url))
  else
    res <- fetch env url
             {| method := Some "PUT";
                headers := [("Authorization", "Bearer " ++ template (ZENODO_ACCESS_TOKEN penv));
                            ("Content-Type", "application/json")];
                body := JsonText params;
                timeout := None |} ;;
    if negb (status res =? 200)
    then throw (Error ("Status " ++ Number_toString (status res)
                         ++ ": Unable to update deposition. " ++ statusText res))
    else
      result <- lift (json res) ;;
      ret result.

(** [deleteZenodoEntity(url)] (lines 128-149). *)
Definition deleteZenodoEntity (url : string) : M bool :=
  if invalid_data_url url
  then throw (Error ("Invalid data URL: " ++ url))
  else
    res <- fetch env url
             {| method := Some "DELETE"; headers := bearer_only; body := NoBody;
                timeout := None |} ;;
    if (status res =? 204) || (status res =? 404)
    then ret true
    else throw (Error ("Status " ++ Number_toString (status res)
                         ++ ": Unable to delete deposition. " ++ statusText res)).

(** [fetchDataDeposition(url)] (lines 151-169). *)
Definition fetchDataDeposition (url : string) : M Deposition :=
  if invalid_data_url url
  then throw (Error ("Invalid data URL: " ++ url))
  else
    res <- fetch env url
             {| method := None; headers := bearer_only; body := NoBody;
                timeout := None |} ;;
    if negb (status res =? 200)
    then throw (Error ("Status " ++ Number_toString (status res)
                         ++ ": Unable to fetch deposition. " ++ statusText res))
    else
      result <- lift (json res) ;;
      ret result.

(** [createDataDepositionVersion(url)] (lines 171-192). *)
Definition createDataDepositionVersion (url : string) : M Deposition :=
  if invalid_data_url url
  then throw (Error ("Invalid data URL: " ++ url))
  else
    res <- fetch env url
             {| method := Some "POST"; headers := bearer_only; body := NoBody;
                timeout := None |} ;;
    if negb (status res =? 201)
    then throw (Error ("Status " ++ Number_toString (status res)
                         ++ ": Unable to create new version of deposition. "
                         ++ statusText res))
    else
      result <- lift (json res) ;;
      ret result.

(** The [catch] clause of the handler (lines 253-256). *)
Definition handler_catch (error : Thrown) : M Lambda.HandlerResult :=
  console (LogError error) ;;
  ret {| Lambda.statusCode := 500; Lambda.body := "Error processing file" |}.

(** [deposition.links.bucket ?? ''] *)
Definition bucket_or_empty (l : DepositionLinks) : string :=
  match bucket l with Some b => b | None => "" end.

(** The [try] block of the handler (lines 206-252). *)
Definition handler_try (bucketName objectKey fileName : string)
  : M Lambda.HandlerResult :=
  out <- s3Client_send env {| Bucket := bucketName; Key := objectKey; Range := None |} ;;
  match Body out with
  | Some Body' =>
      fileBuffer <- streamToBuffer Body' ;;
      console LogCreating ;;
      deposition <- createDataDeposition ;;
      console (LogDepositionResponse deposition) ;;
      links <- lift (read_links deposition) ;;
      let url := bucket_or_empty links ++ "/" ++ encodeURIComponent fileName in
      uploadResponse <- fetch env url
                          {| method := Some "PUT";
                             headers := [("Authorization",
                                          "Bearer " ++ template (ZENODO_ACCESS_TOKEN penv));
                                         ("Content-Length",
                                          Number_toString (Buffer_length fileBuffer))];
                             body := BufferBody fileBuffer;
                             timeout := None |} ;;
      console (LogUploadStatus (status uploadResponse)) ;;
      if negb (ok uploadResponse)
      then throw (Error ("Failed to upload file to Zenodo: " ++ statusText uploadResponse))
      else
        console (LogUploadedTo objectKey (html links)) ;;
        ret {| Lambda.statusCode := 200;
               Lambda.body := "File processed successfully" |}
  | None => throw (Error "Failed to get file stream from S3")
  end.

(** [handler(event)] (lines 194-257). *)
Definition handler (event : Lambda.S3Event) : M Lambda.HandlerResult :=
  p <- lift (Common.handler_prelude event) ;;
  let '(bucketName, objectKey, fileName) := p in
  console (LogProcessing objectKey fileName) ;;
  try_catch (handler_try bucketName objectKey fileName) handler_catch.
End Program.

End Buffered.


(* ===================================================================== *)
(** * Specification vocabulary *)
(* ===================================================================== *)

Module Spec.

(** ** Range plans *)

(** [chain a p b]: the ranges of [p] are non-empty, the first starts at
    [a], each starts right after the previous one ends, and the last ends
    at [b - 1]; so they tile the bytes [a .. b - 1]. *)
Fixpoint chain (a : Z) (p : list (Z * Z)) (b : Z) : Prop :=
  match p with
  | [] => a = b
  | (s, e) :: r => s = a /\ s <= e /\ chain (e + 1) r b
  end.

(** The number of bytes of the inclusive range [s .. e]. *)
Definition range_length (r : Z * Z) : Z := snd r - fst r + 1.

Definition total_length (p : list (Z * Z)) : Z :=
  fold_right Z.add 0 (map range_length p).

(** ** Sequential iteration *)

(** Run [f] on each element in turn; the first failure ends the
    iteration. *)
Fixpoint for_each {A} (f : A -> M unit) (l : list A) : M unit :=
  match l with
  | [] => ret tt
  | x :: r => f x ;; for_each f r
  end.

(** What a computation adds to the trace, and its outcome. *)
Definition outcome {A} (m : M A) (w : State) : Result A := fst (m w).

Definition added {A} (m : M A) (w : State) : list Event :=
  skipn (List.length (trace w)) (trace (snd (m w))).

(** ** The retrying transport *)

(** The trace of [k] failed attempts of [fetchWithRetry] that starts with
    [retries] retries left: each attempt is followed by the message with
    its ordinal number and by the delay. *)
Fixpoint failed_attempts (MAX_RETRIES : nat) (RETRY_DELAY : Z)
    (url : string) (options : RequestInit) (retries k : nat) : list Event :=
  match k with
  | O => []
  | S k' =>
      [Fetch url options;
       Console (LogRetry (Z.of_nat MAX_RETRIES - Z.of_nat retries + 1) RETRY_DELAY);
       Sleep RETRY_DELAY]
        ++ failed_attempts MAX_RETRIES RETRY_DELAY url options (Nat.pred retries) k'
  end.

(** ** The chunked uploader, range by range *)

Section Upload.
Variable env : Env.
Variable penv : ProcessEnv.
Variable MAX_RETRIES : nat.
Variable RETRY_DELAY : Z.

(** The PUT that the specification asks for the range [r] of an object
    of [size] bytes, with the stream [stream] as body. *)
Definition range_put (size : Z) (r : Z * Z) (stream : Readable) : RequestInit :=
  {| method := Some "PUT";
     headers := [("Authorization", "Bearer " ++ template (ZENODO_ACCESS_TOKEN penv));
                 ("Content-Type", "application/octet-stream");
                 ("Content-Length", Number_toString (range_length r));
                 ("Content-Range",
                  "bytes " ++ Number_toString (fst r) ++ "-" ++ Number_toString (snd r)
                    ++ "/" ++ Number_toString size)];
     body := StreamBody stream;
     timeout := Some 0 |}.

(** The read of the range [r] of the object [key] of [bucket']. *)
Definition range_get (bucket' key : string) (r : Z * Z) : GetObjectCommand :=
  {| Bucket := bucket'; Key := key;
     Range := Some ("bytes=" ++ Number_toString (fst r) ++ "-" ++ Number_toString (snd r)) |}.

(** The treatment of one range: read its stream, send it with one PUT
    through the retrying transport, fail on a non-success status, and
    report the progress. *)
Definition upload_range (url bucket' key : string) (size : Z) (r : Z * Z) : M unit :=
  out <- s3Client_send env (range_get bucket' key r) ;;
  match Body out with
  | None => throw (Error "Failed to get file chunk from S3")
  | Some stream =>
      response <- Common.fetchWithRetry env MAX_RETRIES RETRY_DELAY url
                    (range_put size r stream) MAX_RETRIES ;;
      if negb (ok response)
      then throw (Error ("Failed to upload file chunk: " ++ statusText response))
      else console (LogUploaded (snd r + 1) size)
  end.

(** The trace of the treatment of the ranges [p] when every stream is
    there and every PUT is accepted at the first attempt: for each range
    its read, its PUT and the progress message. *)
Definition smooth_trace (url bucket' key : string) (size : Z)
    (stream_of : GetObjectCommand -> Readable) (p : list (Z * Z)) : list Event :=
  flat_map
    (fun r =>
       [S3Send (range_get bucket' key r);
        Fetch url (range_put size r (stream_of (range_get bucket' key r)));
        Console (LogUploaded (snd r + 1) size)])
    p.
End Upload.

(** ** Traces and outcomes *)

(** Every event that [m] adds to the trace satisfies [P]. *)
Definition emits {A} (P : Event -> Prop) (m : M A) : Prop :=
  forall w, exists evs, trace (snd (m w)) = (trace w ++ evs)%list /\ Forall P evs.

(** Whenever [m] returns a value, the value satisfies [Q]. *)
Definition returns {A} (Q : A -> Prop) (m : M A) : Prop :=
  forall w, match fst (m w) with Ok a => Q a | Throw _ => True end.

(** ** File names *)

Definition has_slash (s : string) : bool := mem_ascii "/"%char s.

(** [f] is the final path segment of [k]: it holds no [/], and [k] is
    [f] itself or ends with [/] followed by [f]. *)
Definition final_segment (k f : string) : Prop :=
  has_slash f = false /\ (k = f \/ exists p, k = p ++ "/" ++ f).

(** ** Object keys *)

(** The place of [c] in [s], counted from 0. *)
Fixpoint index_in (c : ascii) (s : string) : option N :=
  match s with
  | EmptyString => None
  | String x r => if Ascii.eqb c x then Some 0%N else option_map N.succ (index_in c r)
  end.

(** The value of a hexadecimal digit, in either case. *)
Definition hex_digit_value (c : ascii) : option N :=
  match index_in c "0123456789ABCDEF" with
  | Some v => Some v
  | None => option_map (N.add 10) (index_in c "abcdef")
  end.

(** The percent-decoded key with [+] read as a space, as the
    specification words it and byte by byte: a [%] with two hexadecimal
    digits stands for the byte that they write, a [+] for a space, any
    other character for itself.  [None] when a [%] comes without its two
    digits. *)
Fixpoint percent_decoded (key : string) : option string :=
  match key with
  | EmptyString => Some EmptyString
  | String c r =>
      if Ascii.eqb c "%"%char then
        match r with
        | String h (String l r') =>
            match hex_digit_value h, hex_digit_value l, percent_decoded r' with
            | Some hi, Some lo, Some d => Some (String (ascii_of_N (16 * hi + lo)) d)
            | _, _, _ => None
            end
        | _ => None
        end
      else
        option_map (String (if Ascii.eqb c "+"%char then " "%char else c))
          (percent_decoded r)
  end.

(** The event [ev], if it is a PUT, is addressed to a path that ends with
    [/] and the URL-escaped file name [f]. *)
Definition put_to (f : string) (ev : Event) : Prop :=
  forall url init,
    ev = Fetch url init -> method init = Some "PUT" ->
    exists base, url = base ++ "/" ++ encodeURIComponent f.

(** The event [ev], if it is a read of S3, reads the object [k] of the
    bucket [b]. *)
Definition reads_only (b k : string) (ev : Event) : Prop :=
  forall cmd, ev = S3Send cmd -> Bucket cmd = b /\ Key cmd = k.

End Spec.

(* ===================================================================== *)
(** * Sample environments and events *)
(* ===================================================================== *)

Module Fixtures.

Definition penv : ProcessEnv :=
  {| ZENODO_ACCESS_TOKEN := Some "secret"; ZENODO_URL := Some "https://zenodo.org" |}.

Definition links : DepositionLinks :=
  {| bucket := Some "https://zenodo.org/api/files/b1";
     html := Some "https://zenodo.org/deposit/42" |}.

Definition deposition : Deposition := JsonValue (Some 42) (Some links).

(** A response with the given status line, no [Content-Length] and the
    given JSON body. *)
Definition response (code : Z) (text : string) (j : Result Deposition) : Response :=
  {| status := code; statusText := text; content_length := None; json := j |}.

Definition not_json : Result Deposition :=
  Throw (ErrorObj "FetchError" "invalid json response body").

Definition created : Response := response 201 "Created" (Ok deposition).

Definition unavailable : Response := response 503 "Service Unavailable" not_json.

(** The reply to a HEAD request on a file of [n] bytes. *)
Definition head_reply (n : string) : Response :=
  {| status := 200; statusText := "OK"; content_length := Some n; json := not_json |}.

Definition network_down : Thrown := ErrorObj "FetchError" "socket hang up".

Definition no_object : Result GetObjectOutput :=
  Throw (ErrorObj "NoSuchKey" "The specified key does not exist.").

(** A network that fails [k] times and then answers [r] to everything;
    no object in S3. *)
Definition flaky (k : nat) (r : Response) : Env :=
  {| s3_reply := fun _ _ => no_object;
     fetch_reply := fun n _ _ => if (n <? k)%nat then Throw network_down else Ok r |}.

(** An object of ten bytes in S3 and a service that accepts everything:
    creations are answered with [created], uploads with 200, and probes
    report the size [n]. *)
Definition ten_bytes : GetObjectOutput :=
  {| Body := Some "0123456789"; ContentLength := Some 10; ContentType := None |}.

Definition healthy (n : string) : Env :=
  {| s3_reply := fun _ _ => Ok ten_bytes;
     fetch_reply := fun _ _ init =>
       if String.eqb (template (method init)) "POST" then Ok created
       else if String.eqb (template (method init)) "HEAD" then Ok (head_reply n)
       else Ok (response 200 "OK" not_json) |}.

(** The same service, with an object of zero bytes in S3. *)
Definition zero_bytes : GetObjectOutput :=
  {| Body := Some ""; ContentLength := Some 0; ContentType := None |}.

Definition empty_store : Env :=
  {| s3_reply := fun _ _ => Ok zero_bytes;
     fetch_reply := fetch_reply (healthy "0") |}.

(** The event of the creation of the object [key] in the bucket [inbox]. *)
Definition created_object (key : string) : Lambda.S3Event :=
  {| Lambda.Records := [{| Lambda.bucket_name := "inbox"; Lambda.object_key := key |}] |}.

(** An event with two records, the first one for [data/a.csv]. *)
Definition two_objects : Lambda.S3Event :=
  {| Lambda.Records :=
       [{| Lambda.bucket_name := "inbox"; Lambda.object_key := "data/a.csv" |};
        {| Lambda.bucket_name := "other"; Lambda.object_key := "data/b.csv" |}] |}.

(** A service whose creation request comes back with the status 500 and
    the JSON body [j], and that accepts everything else. *)
Definition error_body : Deposition := JsonValue None None.

Definition failing_creation (j : Result Deposition) : Env :=
  {| s3_reply := fun _ _ => Ok ten_bytes;
     fetch_reply := fun _ _ init =>
       if String.eqb (template (method init)) "POST"
       then Ok (response 500 "INTERNAL SERVER ERROR" j)
       else Ok (response 200 "OK" not_json) |}.

Definition some_request : RequestInit :=
  {| method := Some "POST"; headers := []; body := NoBody; timeout := None |}.

End Fixtures.

(* ===================================================================== *)
(** * Further specification vocabulary *)
(* ===================================================================== *)

From Stdlib Require DecimalPos.

Module More.

(** ** Range plans in closed form *)

(** The number of ranges of an object of [size] bytes cut in chunks of
    [c] bytes: the quotient rounded up. *)
Definition range_count (c size : Z) : nat := Z.to_nat ((size + c - 1) / c).

(** The [i]-th range, counted from 0. *)
Definition nth_range (c size : Z) (i : nat) : Z * Z :=
  (Z.of_nat i * c, Z.min (Z.of_nat i * c + c - 1) (size - 1)).

Definition closed_plan (c size : Z) : list (Z * Z) :=
  map (nth_range c size) (seq 0 (range_count c size)).

(** ** Requests *)

(** The method of a request, [GET] when none is given. *)
Definition method_of (ev : Event) : option string :=
  match ev with
  | Fetch _ init => Some (match method init with Some m => m | None => "GET" end)
  | _ => None
  end.

(** The event is no request, or a request with one of the [methods]. *)
Definition uses_only (methods : list string) (ev : Event) : Prop :=
  match method_of ev with
  | Some m => In m methods
  | None => True
  end.

(** Whether the event is a request with the method [HEAD]. *)
Definition is_head (ev : Event) : bool :=
  match method_of ev with
  | Some m => String.eqb m "HEAD"
  | None => false
  end.

(** The messages of a trace, oldest first. *)
Definition messages (evs : list Event) : list LogMsg :=
  flat_map (fun ev => match ev with Console msg => [msg] | _ => [] end) evs.

(** The value of the header [name] of a request. *)
Definition header (name : string) (init : RequestInit) : option string :=
  option_map snd (find (fun h => String.eqb (fst h) name) (headers init)).

(** The number of bytes that a PUT announces in its [Content-Length];
    0 for any other event. *)
Definition declared_length (ev : Event) : Z :=
  match ev with
  | Fetch _ init =>
      if is_put ev
      then match header "Content-Length" init with
           | Some v => match parseInt10 v with Some n => n | None => 0 end
           | None => 0
           end
      else 0
  | _ => 0
  end.

Definition declared_total (evs : list Event) : Z :=
  fold_right Z.add 0 (map declared_length evs).

(** ** Well-formed UTF-8 *)

Definition between (low high : N) (c : ascii) : bool :=
  (low <=? N_of_ascii c)%N && (N_of_ascii c <=? high)%N.

(** The first two bytes of a sequence of three bytes, and of four bytes
    (Unicode, table 3-7): no overlong form, no surrogate, nothing above
    U+10FFFF. *)
Definition three_bytes (c1 c2 : ascii) : bool :=
  (between 224 224 c1 && between 160 191 c2)
  || (between 225 236 c1 && between 128 191 c2)
  || (between 237 237 c1 && between 128 159 c2)
  || (between 238 239 c1 && between 128 191 c2).

Definition four_bytes (c1 c2 : ascii) : bool :=
  (between 240 240 c1 && between 144 191 c2)
  || (between 241 243 c1 && between 128 191 c2)
  || (between 244 244 c1 && between 128 143 c2).

(** Whether the bytes of [s] are the UTF-8 form of a sequence of code
    points: what a JavaScript string without lone surrogates is. *)
Fixpoint is_utf8 (s : string) : bool :=
  match s with
  | EmptyString => true
  | String c1 r1 =>
      if between 0 127 c1 then is_utf8 r1
      else
        match r1 with
        | EmptyString => false
        | String c2 r2 =>
            if between 194 223 c1 && between 128 191 c2 then is_utf8 r2
            else
              match r2 with
              | EmptyString => false
              | String c3 r3 =>
                  if three_bytes c1 c2 && between 128 191 c3 then is_utf8 r3
                  else
                    match r3 with
                    | EmptyString => false
                    | String c4 r4 =>
                        if four_bytes c1 c2 && between 128 191 c3 && between 128 191 c4
                        then is_utf8 r4
                        else false
                    end
              end
        end
  end.

(** The units that [decodeURIComponent] reads in the escaped form of
    [s]: the characters that are left alone, and an escape for every
    other byte. *)
Fixpoint escaped_units (s : string) : list UriUnit :=
  match s with
  | EmptyString => []
  | String c r =>
      (if uri_unreserved c then Plain c else Escaped (N_of_ascii c)) :: escaped_units r
  end.

(** What the decoder expects after a byte of an escaped sequence. *)
Definition after (q : Pending) : option Pending :=
  match more q with
  | S (S n) => Some {| more := S n; lo := 128; hi := 191 |}
  | _ => None
  end.

(** ** Keys in ASCII *)

(** Whether [s] is written in ASCII, as the keys of the events of S3
    are. *)
Definition is_ascii (s : string) : bool :=
  forallb (between 0 127) (list_ascii_of_string s).

(** The byte that a unit of the decoder stands for, and the bytes of a
    sequence of units. *)
Definition unit_byte (u : UriUnit) : ascii :=
  match u with
  | Plain c => c
  | Escaped b => ascii_of_N b
  end.

Fixpoint units_text (us : list UriUnit) : string :=
  match us with
  | [] => EmptyString
  | u :: r => String (unit_byte u) (units_text r)
  end.

(** A unit read in a key in ASCII: a character of ASCII, or an escape,
    which writes one byte. *)
Definition ascii_unit (u : UriUnit) : bool :=
  match u with
  | Plain c => between 0 127 c
  | Escaped b => (b <? 256)%N
  end.

(** ** Decimal numerals *)

(** The value of the digits [d] read from the left, after the value
    [acc] of the digits before them. *)
Fixpoint uint_value (acc : Z) (d : Decimal.uint) : Z :=
  match d with
  | Decimal.Nil => acc
  | Decimal.D0 d' => uint_value (10 * acc + 0) d'
  | Decimal.D1 d' => uint_value (10 * acc + 1) d'
  | Decimal.D2 d' => uint_value (10 * acc + 2) d'
  | Decimal.D3 d' => uint_value (10 * acc + 3) d'
  | Decimal.D4 d' => uint_value (10 * acc + 4) d'
  | Decimal.D5 d' => uint_value (10 * acc + 5) d'
  | Decimal.D6 d' => uint_value (10 * acc + 6) d'
  | Decimal.D7 d' => uint_value (10 * acc + 7) d'
  | Decimal.D8 d' => uint_value (10 * acc + 8) d'
  | Decimal.D9 d' => uint_value (10 * acc + 9) d'
  end.

End More.

(* ===================================================================== *)
(** * Further sample environments *)
(* ===================================================================== *)

Module Samples.

(** An object of ten bytes in S3 and a service that accepts the first [n]
    requests and refuses the others with the status 403. *)
Definition refusing (n : nat) : Env :=
  {| s3_reply := fun _ _ => Ok Fixtures.ten_bytes;
     fetch_reply := fun i _ _ =>
       if (i <? n)%nat
       then Ok (Fixtures.response 200 "OK" Fixtures.not_json)
       else Ok (Fixtures.response 403 "Forbidden" Fixtures.not_json) |}.

(** An object of ten bytes in S3 and a network that fails [k] times before
    it answers everything with [Fixtures.created]. *)
Definition flaky_store (k : nat) : Env :=
  {| s3_reply := fun _ _ => Ok Fixtures.ten_bytes;
     fetch_reply := fetch_reply (Fixtures.flaky k Fixtures.created) |}.

(** A [Content-Length] that starts with white space: a no-break space
    (U+00A0, the bytes C2 A0 of UTF-8) and a space before the digit. *)
Definition padded_7 : string :=
  String (ascii_of_N 194) (String (ascii_of_N 160) " 7").

(** The object store is out of reach; the network is fine. *)
Definition no_store : Env :=
  {| s3_reply := fun _ _ => Fixtures.no_object;
     fetch_reply := fetch_reply (Fixtures.healthy "10") |}.

(** The key of the object [résumés/Q1 2024+.csv] as S3 writes it in an
    event, and the name of the object in UTF-8. *)
Definition escaped_key : string := "r%C3%A9sum%C3%A9s/Q1+2024%2B.csv".

Definition e_acute : string := String (ascii_of_N 195) (String (ascii_of_N 169) "").

Definition decoded_key : string :=
  "r" ++ e_acute ++ "sum" ++ e_acute ++ "s/Q1 2024+.csv".

End Samples.

(* ===================================================================== *)
(** * Sanity checks of the built-ins *)
(* ===================================================================== *)

Example encodeURIComponent_ex :
  encodeURIComponent "my file(1).csv" = "my%20file(1).csv".
Proof. reflexivity. Qed.

Example decodeURIComponent_ex :
  decodeURIComponent (replace_plus_with_space "data/my+file%2B%C3%A9.csv")
  = Ok ("data/my file+" ++ String (ascii_of_N 195) (String (ascii_of_N 169) ".csv")).
Proof. reflexivity. Qed.

Example decodeURIComponent_malformed :
  decodeURIComponent "50%" = Throw (URIError "URI malformed")
  /\ decodeURIComponent "%C0%80" = Throw (URIError "URI malformed")
  /\ decodeURIComponent "%E2%82x" = Throw (URIError "URI malformed").
Proof. repeat split. Qed.

Example parseInt10_ex :
  parseInt10 "1024" = Some 1024 /\ parseInt10 " -7px" = Some (-7)
  /\ parseInt10 "abc" = None /\ parseInt10 "" = None.
Proof. repeat split; reflexivity. Qed.

(** White space of more than one byte is skipped too: U+00A0, then
    U+2003, then U+FEFF. *)
Example parseInt10_white_space :
  parseInt10 Samples.padded_7 = Some 7
  /\ parseInt10 (String (ascii_of_N 226) (String (ascii_of_N 128)
                   (String (ascii_of_N 131) "42")))
     = Some 42
  /\ parseInt10 (String (ascii_of_N 239) (String (ascii_of_N 187)
                   (String (ascii_of_N 191) "+5 bytes")))
     = Some 5.
Proof. repeat split; reflexivity. Qed.

Example split_pop_ex :
  pop (split_slash "a/b/c.txt") = Some "c.txt" /\ pop (split_slash "a/b/") = Some "".
Proof. split; reflexivity. Qed.

(* ===================================================================== *)
(** * Facts on range plans *)
(* ===================================================================== *)

Module PlanFacts.
Import Spec.

Lemma chain_le a p b : chain a p b -> a <= b.
Proof.
  revert a; induction p as [|[s e] r IH]; simpl; intros a H.
  - lia.
  - destruct H as (-> & Hse & Hr). apply IH in Hr. lia.
Qed.

Lemma chain_total_length a p b : chain a p b -> total_length p = b - a.
Proof.
  revert a; induction p as [|[s e] r IH]; simpl; intros a H.
  - unfold total_length; simpl. lia.
  - destruct H as (-> & Hse & Hr). apply IH in Hr.
    unfold total_length in *; simpl. unfold range_length at 1; simpl. lia.
Qed.

Lemma chain_within a p b :
  chain a p b -> Forall (fun r => a <= fst r /\ fst r <= snd r /\ snd r < b) p.
Proof.
  revert a; induction p as [|[s e] r IH]; simpl; intros a H.
  - constructor.
  - destruct H as (-> & Hse & Hr). constructor.
    + simpl. apply chain_le in Hr. lia.
    + apply IH in Hr. eapply Forall_impl; [|exact Hr].
      simpl. intros x Hx. lia.
Qed.

Lemma chain_consecutive a p b i x y :
  chain a p b ->
  nth_error p i = Some x -> nth_error p (S i) = Some y ->
  fst y = snd x + 1.
Proof.
  revert a i; induction p as [|[s e] r IH]; intros a i H Hx Hy.
  - destruct i; discriminate.
  - destruct H as (-> & Hse & Hr). destruct i as [|i].
    + simpl in Hx, Hy. injection Hx as <-. destruct r as [|[s' e'] r'].
      * discriminate.
      * injection Hy as <-. simpl in Hr. simpl. lia.
    + simpl in Hx. eapply IH; eauto.
Qed.

Lemma chain_ordered a p b i j x y :
  chain a p b -> (i < j)%nat ->
  nth_error p i = Some x -> nth_error p j = Some y ->
  snd x < fst y.
Proof.
  revert a i j; induction p as [|[s e] r IH]; intros a i j H Hij Hx Hy.
  - destruct i; discriminate.
  - destruct H as (-> & Hse & Hr). destruct j as [|j]; [lia|].
    simpl in Hy. destruct i as [|i].
    + simpl in Hx. injection Hx as <-. simpl.
      apply chain_within in Hr.
      apply nth_error_In in Hy.
      rewrite Forall_forall in Hr. apply Hr in Hy. lia.
    + simpl in Hx. eapply (IH (e + 1) i j); eauto. lia.
Qed.

End PlanFacts.

Section ChunkedPlan.
Variable CHUNK_SIZE : Z.
Hypothesis CHUNK_SIZE_pos : 0 < CHUNK_SIZE.

Let ranges_from := Chunked.ranges_from CHUNK_SIZE CHUNK_SIZE_pos.

Lemma ranges_from_step fileSize start :
  start < fileSize ->
  ranges_from fileSize start
  = (start, Chunked.chunk_end CHUNK_SIZE fileSize start)
      :: ranges_from fileSize (Chunked.chunk_end CHUNK_SIZE fileSize start + 1).
Proof.
  intros H. unfold ranges_from.
  rewrite Chunked.ranges_from_equation_1.
  destruct (Z_lt_dec start fileSize); [|contradiction].
  reflexivity.
Qed.

Lemma ranges_from_done fileSize start :
  fileSize <= start -> ranges_from fileSize start = [].
Proof.
  intros H. unfold ranges_from.
  rewrite Chunked.ranges_from_equation_1.
  destruct (Z_lt_dec start fileSize); [lia|].
  reflexivity.
Qed.

(** The loop tiles the bytes that are left. *)
Lemma ranges_from_chain fileSize start :
  start <= fileSize ->
  Spec.chain start (ranges_from fileSize start) fileSize.
Proof.
  intros Hle.
  remember (Z.to_nat (fileSize - start)) as n eqn:Hn.
  revert start Hle Hn.
  induction n as [n IH] using lt_wf_ind. intros start Hle Hn.
  destruct (Z_lt_dec start fileSize) as [Hlt|Hge].
  - rewrite ranges_from_step by assumption. simpl.
    assert (Hend : start <= Chunked.chunk_end CHUNK_SIZE fileSize start < fileSize)
      by (unfold Chunked.chunk_end; lia).
    repeat split; [lia|].
    eapply IH; [|lia|reflexivity]. lia.
  - rewrite ranges_from_done by lia. simpl. lia.
Qed.
End ChunkedPlan.

Lemma CHUNK_SIZE_src_pos : 0 < Chunked.CHUNK_SIZE_src.
Proof. reflexivity. Qed.

(** C1. For every object size [s >= 0] and chunk ceiling [c > 0], the
    ranges that the chunked uploader goes through start at offset 0 (when
    there is one), are contiguous (each starts right after the previous
    one ends), do not overlap (an earlier range ends before a later one
    starts), are non-empty and within the object, and their lengths sum to
    exactly [s]; for [s] = 250 MiB and [c] = 100 MiB the plan is exactly
    [0, 104857599], [104857600, 209715199], [209715200, 262143999], in
    that order. *)
Theorem range_plan_tiles (c : Z) (Hc : 0 < c) (s : Z) (Hs : 0 <= s) :
  let plan := Chunked.ranges c Hc s in
  (forall r, hd_error plan = Some r -> fst r = 0)
  /\ (forall i x y,
         nth_error plan i = Some x -> nth_error plan (S i) = Some y ->
         fst y = snd x + 1)
  /\ (forall i j x y,
         (i < j)%nat -> nth_error plan i = Some x -> nth_error plan j = Some y ->
         snd x < fst y)
  /\ Forall (fun r => 0 <= fst r /\ fst r <= snd r /\ snd r < s) plan
  /\ Spec.total_length plan = s
  /\ (c = 100 * 1024 * 1024 -> s = 250 * 1024 * 1024 ->
      plan = [(0, 104857599); (104857600, 209715199); (209715200, 262143999)]).
Proof.
  intros plan.
  assert (Hchain : Spec.chain 0 plan s)
    by (apply ranges_from_chain; assumption).
  split; [|split; [|split; [|split; [|split]]]].
  - intros [a b] Hhd. destruct plan as [|[a' b'] rest]; [discriminate|].
    injection Hhd as -> ->. simpl in Hchain. simpl. lia.
  - intros i x y. apply (PlanFacts.chain_consecutive 0 plan s); assumption.
  - intros i j x y. apply (PlanFacts.chain_ordered 0 plan s); assumption.
  - apply PlanFacts.chain_within; assumption.
  - rewrite (PlanFacts.chain_total_length 0 plan s) by assumption. lia.
  - intros -> ->. subst plan. unfold Chunked.ranges.
    rewrite ranges_from_step by reflexivity.
    replace (Chunked.chunk_end _ _ 0) with 104857599 by reflexivity.
    rewrite ranges_from_step by reflexivity.
    replace (Chunked.chunk_end _ _ (104857599 + 1)) with 209715199 by reflexivity.
    rewrite ranges_from_step by reflexivity.
    replace (Chunked.chunk_end _ _ (209715199 + 1)) with 262143999 by reflexivity.
    rewrite ranges_from_done by (vm_compute; discriminate).
    reflexivity.
Qed.

Lemma range_plan_tiles_witness :
  Chunked.ranges Chunked.CHUNK_SIZE_src CHUNK_SIZE_src_pos (250 * 1024 * 1024)
  = [(0, 104857599); (104857600, 209715199); (209715200, 262143999)].
Proof.
  apply (range_plan_tiles Chunked.CHUNK_SIZE_src CHUNK_SIZE_src_pos (250 * 1024 * 1024)).
  - lia.
  - reflexivity.
  - reflexivity.
Defined.

(* ===================================================================== *)
(** * Facts on the monad and on traces *)
(* ===================================================================== *)

Open Scope list_scope.

Lemma state_eta (w : State) :
  {| s3_calls := s3_calls w; fetch_calls := fetch_calls w; trace := trace w |} = w.
Proof. destruct w; reflexivity. Qed.

Lemma skipn_length_app {A} (l l' : list A) : skipn (List.length l) (l ++ l') = l'.
Proof. induction l; simpl; auto. Qed.

(** What a run added, once its final trace is known. *)
Lemma added_of_run {A} (m : M A) (w w' : State) (r : Result A) (evs : list Event) :
  m w = (r, w') -> trace w' = trace w ++ evs ->
  Spec.outcome m w = r /\ Spec.added m w = evs.
Proof.
  intros Hm Ht. unfold Spec.outcome, Spec.added. rewrite Hm. simpl.
  rewrite Ht. split; [reflexivity | apply skipn_length_app].
Qed.

Lemma count_app (p : Event -> bool) (a b : list Event) :
  count p (a ++ b) = (count p a + count p b)%nat.
Proof. unfold count. rewrite filter_app, length_app. reflexivity. Qed.

(* ===================================================================== *)
(** * The retrying transport *)
(* ===================================================================== *)

Section RetryFacts.
Variable env : Env.
Variable MAX_RETRIES : nat.
Variable RETRY_DELAY : Z.
Variable url : string.
Variable options : RequestInit.

Let fetchWithRetry := Common.fetchWithRetry env MAX_RETRIES RETRY_DELAY url options.
Let failed := Spec.failed_attempts MAX_RETRIES RETRY_DELAY url options.

Lemma fetchWithRetry_unfold retries w :
  fetchWithRetry retries w
  = match fetch_reply env (fetch_calls w) url options with
    | Ok r =>
        (Ok r, {| s3_calls := s3_calls w; fetch_calls := S (fetch_calls w);
                  trace := trace w ++ [Fetch url options] |})
    | Throw e =>
        match retries with
        | S retries' =>
            fetchWithRetry retries'
              {| s3_calls := s3_calls w; fetch_calls := S (fetch_calls w);
                 trace := ((trace w ++ [Fetch url options])
                             ++ [Console (LogRetry (Z.of_nat MAX_RETRIES
                                                    - Z.of_nat retries + 1)
                                            RETRY_DELAY)])
                            ++ [Sleep RETRY_DELAY] |}
        | O =>
            (Throw e, {| s3_calls := s3_calls w; fetch_calls := S (fetch_calls w);
                         trace := trace w ++ [Fetch url options] |})
        end
    end.
Proof.
  unfold fetchWithRetry.
  destruct retries; simpl; unfold try_catch, fetch; simpl;
    destruct (fetch_reply env (fetch_calls w) url options); reflexivity.
Qed.

(** [k] failures followed by a success, with at least [k] retries left. *)
Lemma fetchWithRetry_recovers k : forall retries w r,
  (k <= retries)%nat ->
  (forall i, (i < k)%nat ->
     exists e, fetch_reply env (fetch_calls w + i) url options = Throw e) ->
  fetch_reply env (fetch_calls w + k) url options = Ok r ->
  fetchWithRetry retries w
  = (Ok r, {| s3_calls := s3_calls w; fetch_calls := fetch_calls w + S k;
              trace := trace w ++ failed retries k ++ [Fetch url options] |}).
Proof.
  induction k as [|k IH]; intros retries w r Hle Hfail Hok.
  - rewrite fetchWithRetry_unfold. rewrite Nat.add_0_r in Hok. rewrite Hok.
    simpl. repeat f_equal. lia.
  - destruct retries as [|retries']; [lia|].
    rewrite fetchWithRetry_unfold.
    destruct (Hfail 0%nat ltac:(lia)) as [e He].
    rewrite Nat.add_0_r in He. rewrite He.
    rewrite (IH retries' _ r).
    + simpl. f_equal. f_equal; [lia|].
      rewrite <- !app_assoc. reflexivity.
    + lia.
    + simpl. intros i Hi. destruct (Hfail (S i) ltac:(lia)) as [e' He'].
      exists e'. rewrite <- He'. f_equal. lia.
    + simpl. rewrite <- Hok. f_equal. lia.
Qed.

(** Failures only: the error of the last attempt comes out. *)
Lemma fetchWithRetry_gives_up retries : forall w (errs : nat -> Thrown),
  (forall i, (i <= retries)%nat ->
     fetch_reply env (fetch_calls w + i) url options = Throw (errs i)) ->
  fetchWithRetry retries w
  = (Throw (errs retries),
     {| s3_calls := s3_calls w; fetch_calls := fetch_calls w + S retries;
        trace := trace w ++ failed retries retries ++ [Fetch url options] |}).
Proof.
  induction retries as [|retries' IH]; intros w errs Hfail.
  - rewrite fetchWithRetry_unfold.
    pose proof (Hfail 0%nat ltac:(lia)) as He.
    rewrite Nat.add_0_r in He. rewrite He. simpl. repeat f_equal. lia.
  - rewrite fetchWithRetry_unfold.
    pose proof (Hfail 0%nat ltac:(lia)) as He.
    rewrite Nat.add_0_r in He. rewrite He.
    rewrite (IH _ (fun i => errs (S i))).
    + simpl. f_equal. f_equal; [lia|].
      rewrite <- !app_assoc. reflexivity.
    + simpl. intros i Hi. rewrite <- (Hfail (S i) ltac:(lia)). f_equal. lia.
Qed.

Lemma failed_counts retries k :
  count is_sleep (failed retries k) = k
  /\ count is_fetch (failed retries k) = k.
Proof.
  revert retries. induction k as [|k IH]; intros retries; [split; reflexivity|].
  destruct (IH (Nat.pred retries)) as [Hs Hf].
  unfold failed in *. simpl. unfold count in *. simpl.
  rewrite Hs, Hf. split; reflexivity.
Qed.

(** Every event of the retrying transport is an attempt of the same
    request, a retry message or the delay. *)
Lemma failed_events retries k :
  Forall (fun ev => ev = Fetch url options \/ ev = Sleep RETRY_DELAY
                    \/ exists n, ev = Console (LogRetry n RETRY_DELAY))
         (failed retries k).
Proof.
  revert retries. induction k as [|k IH]; intros retries; [constructor|].
  unfold failed in *. simpl.
  constructor; [now left|]. constructor; [right; right; eauto|].
  constructor; [right; now left|]. apply IH.
Qed.
End RetryFacts.

(** C2. For every request through the retrying transport with maximum
    retry count [R] and delay [D]: when the underlying fetch fails [k]
    times and then succeeds, with [k <= R], the call succeeds with that
    response, after [k + 1] attempts and exactly [k] delays of [D]; when it
    fails [R + 1] times, the call fails with the error of the last
    attempt, after [R] delays; and a response that is received is returned
    at once, whatever its status code, after a single attempt. *)
Theorem fetchWithRetry_bounded_retry
    (env : Env) (R : nat) (D : Z) (url : string) (options : RequestInit) (w : State) :
  let run := Common.fetchWithRetry env R D url options R in
  (forall (k : nat) (r : Response),
      (k <= R)%nat ->
      (forall i, (i < k)%nat ->
         exists e, fetch_reply env (fetch_calls w + i) url options = Throw e) ->
      fetch_reply env (fetch_calls w + k) url options = Ok r ->
      Spec.outcome run w = Ok r
      /\ Spec.added run w
         = Spec.failed_attempts R D url options R k ++ [Fetch url options]
      /\ count is_sleep (Spec.added run w) = k
      /\ count is_fetch (Spec.added run w) = S k
      /\ Forall (fun ev => is_sleep ev = true -> ev = Sleep D) (Spec.added run w))
  /\ (forall errs : nat -> Thrown,
      (forall i, (i <= R)%nat ->
         fetch_reply env (fetch_calls w + i) url options = Throw (errs i)) ->
      Spec.outcome run w = Throw (errs R)
      /\ count is_sleep (Spec.added run w) = R
      /\ count is_fetch (Spec.added run w) = S R)
  /\ (forall r : Response,
      fetch_reply env (fetch_calls w) url options = Ok r ->
      Spec.outcome run w = Ok r
      /\ Spec.added run w = [Fetch url options]).
Proof.
  intros run. split; [|split].
  - intros k r Hle Hfail Hok.
    pose proof (fetchWithRetry_recovers env R D url options k R w r Hle Hfail Hok) as Hrun.
    destruct (added_of_run run w _ _ _ Hrun eq_refl) as [Hout Hadd].
    destruct (failed_counts R D url options R k) as [Hs Hf].
    rewrite Hadd, !count_app, Hs, Hf.
    split; [assumption|]. split; [reflexivity|].
    split; [unfold count; simpl; lia|]. split; [unfold count; simpl; lia|].
    apply Forall_app. split.
    + eapply Forall_impl; [|apply failed_events].
      intros ev [->|[->|[n ->]]]; simpl; intros; congruence.
    + constructor; [simpl; discriminate | constructor].
  - intros errs Hfail.
    pose proof (fetchWithRetry_gives_up env R D url options R w errs Hfail) as Hrun.
    destruct (added_of_run run w _ _ _ Hrun eq_refl) as [Hout Hadd].
    destruct (failed_counts R D url options R R) as [Hs Hf].
    rewrite Hadd, !count_app, Hs, Hf.
    split; [assumption|]. split; unfold count; simpl; lia.
  - intros r Hok.
    assert (Hfail : forall i, (i < 0)%nat ->
              exists e, fetch_reply env (fetch_calls w + i) url options = Throw e)
      by (intros i Hi; lia).
    rewrite <- (Nat.add_0_r (fetch_calls w)) in Hok.
    pose proof (fetchWithRetry_recovers env R D url options 0 R w r (Nat.le_0_l R) Hfail Hok)
      as Hrun.
    destruct (added_of_run run w _ _ _ Hrun eq_refl) as [Hout Hadd].
    split; assumption.
Qed.

Lemma fetchWithRetry_bounded_retry_witness :
  let run := Common.fetchWithRetry (Fixtures.flaky 2 Fixtures.unavailable) 3 5000
               "https://zenodo.org/api/deposit/depositions" Fixtures.some_request 3 in
  Spec.outcome run initial = Ok Fixtures.unavailable
  /\ count is_sleep (Spec.added run initial) = 2%nat.
Proof.
  intros run.
  destruct (fetchWithRetry_bounded_retry (Fixtures.flaky 2 Fixtures.unavailable) 3 5000
              "https://zenodo.org/api/deposit/depositions" Fixtures.some_request initial)
    as [Hrecover _].
  destruct (Hrecover 2%nat Fixtures.unavailable) as (Hout & _ & Hsleep & _).
  - lia.
  - intros i Hi. exists Fixtures.network_down.
    destruct i as [|[|i]]; [reflexivity | reflexivity | lia].
  - reflexivity.
  - split; assumption.
Defined.

(* ===================================================================== *)
(** * Verification of the uploaded size *)
(* ===================================================================== *)

Lemma strict_neq_false (a : option Z) (b : Z) :
  strict_neq a b = false <-> a = Some b.
Proof.
  destruct a as [x|]; simpl.
  - rewrite negb_false_iff, Z.eqb_eq. split; [intros ->; reflexivity | congruence].
  - split; discriminate.
Qed.



(* ===================================================================== *)
(** * The guard of the metadata helpers *)
(* ===================================================================== *)

Lemma startsWith_empty (s : string) : startsWith s "" = true.
Proof. destruct s; reflexivity. Qed.

Lemma invalid_data_url_true (penv : ProcessEnv) (base url : string) :
  ZENODO_URL penv = Some base -> startsWith url base = false ->
  Buffered.invalid_data_url penv url = true.
Proof.
  intros Hbase Hstart. unfold Buffered.invalid_data_url.
  rewrite Hbase. simpl. rewrite Hstart.
  destruct base as [|c base']; [|reflexivity].
  rewrite startsWith_empty in Hstart. discriminate.
Qed.

(** C9. When [ZENODO_URL] is set to [base] and the target [url] does not
    start with [base], each of [updateDataDeposition],
    [deleteZenodoEntity], [fetchDataDeposition] and
    [createDataDepositionVersion] throws the error [Invalid data URL: url]
    and leaves the state of the invocation as it was: no request is
    issued. *)
Theorem metadata_helpers_reject_foreign_url
    (env : Env) (penv : ProcessEnv) (base url : string) (params : Json) (w : State) :
  ZENODO_URL penv = Some base ->
  startsWith url base = false ->
  let invalid {A} : Result A * State :=
    (Throw (Error ("Invalid data URL: " ++ url)%string), w) in
  Buffered.updateDataDeposition env penv url params w = invalid
  /\ Buffered.deleteZenodoEntity env penv url w = invalid
  /\ Buffered.fetchDataDeposition env penv url w = invalid
  /\ Buffered.createDataDepositionVersion env penv url w = invalid.
Proof.
  intros Hbase Hstart invalid.
  pose proof (invalid_data_url_true penv base url Hbase Hstart) as Hguard.
  unfold Buffered.updateDataDeposition, Buffered.deleteZenodoEntity,
    Buffered.fetchDataDeposition, Buffered.createDataDepositionVersion.
  rewrite Hguard. repeat split.
Qed.

Lemma metadata_helpers_reject_foreign_url_witness :
  Buffered.deleteZenodoEntity (Fixtures.healthy "0") Fixtures.penv
    "https://example.org/api/deposit/depositions/1" initial
  = (Throw (Error "Invalid data URL: https://example.org/api/deposit/depositions/1"),
     initial).
Proof.
  apply (metadata_helpers_reject_foreign_url (Fixtures.healthy "0") Fixtures.penv
           "https://zenodo.org" "https://example.org/api/deposit/depositions/1"
           (JObject []) initial eq_refl eq_refl).
Defined.

(* ===================================================================== *)
(** * The chunked uploader *)
(* ===================================================================== *)

Section UploadFacts.
Variable env : Env.
Variable penv : ProcessEnv.
Variable MAX_RETRIES : nat.
Variable RETRY_DELAY : Z.
Variable CHUNK_SIZE : Z.
Hypothesis CHUNK_SIZE_pos : 0 < CHUNK_SIZE.
Variables url bucket' key : string.
Variable fileSize : Z.

Let upload_loop :=
  Chunked.upload_loop env penv MAX_RETRIES RETRY_DELAY CHUNK_SIZE CHUNK_SIZE_pos
    url bucket' key fileSize.
Let upload_chunk :=
  Chunked.upload_chunk env penv MAX_RETRIES RETRY_DELAY CHUNK_SIZE url bucket' key fileSize.
Let upload_range :=
  Spec.upload_range env penv MAX_RETRIES RETRY_DELAY url bucket' key fileSize.
Let ranges_from := Chunked.ranges_from CHUNK_SIZE CHUNK_SIZE_pos.

(** One turn of the [while] loop. *)
Lemma upload_loop_step start w :
  start < fileSize ->
  upload_loop start w
  = match upload_chunk start w with
    | (Ok _, w') => upload_loop (Chunked.chunk_end CHUNK_SIZE fileSize start + 1) w'
    | (Throw e, w') => (Throw e, w')
    end.
Proof.
  intros H. unfold upload_loop.
  rewrite Chunked.upload_loop_equation_1.
  destruct (Z_lt_dec start fileSize); [|contradiction].
  simpl. unfold upload_chunk.
  destruct (Chunked.upload_chunk env penv MAX_RETRIES RETRY_DELAY CHUNK_SIZE
              url bucket' key fileSize start w) as [[u|e] w']; reflexivity.
Qed.

(** The exit of the [while] loop. *)
Lemma upload_loop_done start w :
  fileSize <= start -> upload_loop start w = (Ok tt, w).
Proof.
  intros H. unfold upload_loop.
  rewrite Chunked.upload_loop_equation_1.
  destruct (Z_lt_dec start fileSize); [lia|]. reflexivity.
Qed.

(** A turn of the loop is the treatment of the range it computes. *)
Lemma upload_chunk_is_upload_range start w :
  upload_chunk start w
  = upload_range (start, Chunked.chunk_end CHUNK_SIZE fileSize start) w.
Proof. reflexivity. Qed.

(** The loop treats the ranges of the plan one after the other. *)
Lemma upload_loop_for_each start w :
  upload_loop start w = Spec.for_each upload_range (ranges_from fileSize start) w.
Proof.
  remember (Z.to_nat (fileSize - start)) as n eqn:Hn.
  revert start w Hn.
  induction n as [n IH] using lt_wf_ind. intros start w Hn.
  destruct (Z_lt_dec start fileSize) as [Hlt|Hge].
  - rewrite upload_loop_step by assumption.
    unfold ranges_from. rewrite ranges_from_step by assumption.
    simpl Spec.for_each. unfold bind.
    rewrite upload_chunk_is_upload_range.
    destruct (upload_range (start, Chunked.chunk_end CHUNK_SIZE fileSize start) w)
      as [[u|e] w']; [|reflexivity].
    eapply IH; [|reflexivity].
    unfold Chunked.chunk_end. lia.
  - rewrite upload_loop_done by lia.
    unfold ranges_from. rewrite ranges_from_done by lia. reflexivity.
Qed.

Let smooth_trace := Spec.smooth_trace penv url bucket' key fileSize.

Lemma for_each_smooth (stream_of : GetObjectCommand -> Readable) (p : list (Z * Z)) :
  (forall n cmd, exists out,
      s3_reply env n cmd = Ok out /\ Body out = Some (stream_of cmd)) ->
  (forall n u init, exists r, fetch_reply env n u init = Ok r /\ ok r = true) ->
  forall w,
    Spec.for_each upload_range p w
    = (Ok tt,
       {| s3_calls := s3_calls w + List.length p;
          fetch_calls := fetch_calls w + List.length p;
          trace := trace w ++ smooth_trace stream_of p |}).
Proof.
  intros Hs3 Hnet. induction p as [|r p' IH]; intros w.
  - simpl. unfold ret, smooth_trace, Spec.smooth_trace. simpl.
    rewrite !Nat.add_0_r, app_nil_r, state_eta. reflexivity.
  - simpl Spec.for_each. unfold bind.
    unfold upload_range at 1, Spec.upload_range, bind, s3Client_send.
    destruct (Hs3 (s3_calls w) (Spec.range_get bucket' key r)) as (out & -> & ->).
    rewrite fetchWithRetry_unfold. cbn [fetch_calls].
    destruct (Hnet (fetch_calls w) url
                (Spec.range_put penv fileSize r (stream_of (Spec.range_get bucket' key r))))
      as (resp & -> & ->).
    cbn [negb]. unfold console, record. cbn [s3_calls fetch_calls trace].
    rewrite IH. cbn [s3_calls fetch_calls trace].
    f_equal. f_equal; [simpl; lia | simpl; lia |].
    unfold smooth_trace, Spec.smooth_trace. simpl. rewrite <- !app_assoc. reflexivity.
Qed.
End UploadFacts.

(** C5. The chunked uploader treats the ranges of its plan one after the
    other, in the order of the plan, whatever the outside world answers:
    for each range it reads the stream of the range and issues, through
    the retrying transport, one PUT to the bucket link of the deposition
    followed by [/] and the URL-escaped file name, with [Content-Length]
    the byte count of the range, [Content-Range] equal to
    [bytes start-end/size] and the stream as body; the first failure ends
    the upload.  The ranges come in increasing byte order without
    overlap; and when every stream is there and every PUT is accepted at
    once, the upload succeeds and its trace is, range after range, the
    read, the PUT and the progress message. *)
Theorem uploader_sends_ranges_in_order
    (env : Env) (penv : ProcessEnv) (R : nat) (D : Z) (c : Z) (Hc : 0 < c)
    (deposition : Deposition) (fileName bucket' key : string) (size : Z)
    (links : DepositionLinks) (w : State) :
  read_links deposition = Ok links ->
  let url := (template (bucket links) ++ "/" ++ encodeURIComponent fileName)%string in
  let upload :=
    Chunked.uploadLargeFileToZenodo env penv R D c Hc deposition fileName bucket' key size in
  let plan := Chunked.ranges c Hc size in
  upload w = Spec.for_each (Spec.upload_range env penv R D url bucket' key size) plan w
  /\ (forall i j x y,
         (i < j)%nat -> nth_error plan i = Some x -> nth_error plan j = Some y ->
         snd x < fst y)
  /\ (forall stream_of : GetObjectCommand -> Readable,
         (forall n cmd, exists out,
             s3_reply env n cmd = Ok out /\ Body out = Some (stream_of cmd)) ->
         (forall n u init, exists r, fetch_reply env n u init = Ok r /\ ok r = true) ->
         Spec.outcome upload w = Ok tt
         /\ Spec.added upload w
            = Spec.smooth_trace penv url bucket' key size stream_of plan).
Proof.
  intros Hlinks url upload plan.
  assert (Hrefine :
            upload w
            = Spec.for_each (Spec.upload_range env penv R D url bucket' key size) plan w).
  { unfold upload, Chunked.uploadLargeFileToZenodo, bind, lift.
    rewrite Hlinks. apply upload_loop_for_each. }
  split; [exact Hrefine|]. split.
  - intros i j x y Hij Hx Hy.
    destruct (Z_le_gt_dec 0 size) as [Hsize|Hsize].
    + apply (PlanFacts.chain_ordered 0 plan size i j); try assumption.
      apply ranges_from_chain; assumption.
    + unfold plan, Chunked.ranges in Hx.
      rewrite ranges_from_done in Hx by lia. destruct i; discriminate.
  - intros stream_of Hs3 Hnet.
    apply (added_of_run upload w
             {| s3_calls := s3_calls w + List.length plan;
                fetch_calls := fetch_calls w + List.length plan;
                trace := trace w
                          ++ Spec.smooth_trace penv url bucket' key size stream_of plan |});
      [|reflexivity].
    rewrite Hrefine. apply for_each_smooth; assumption.
Qed.

Lemma four_pos : 0 < 4.
Proof. reflexivity. Qed.

Lemma uploader_sends_ranges_in_order_witness :
  let upload :=
    Chunked.uploadLargeFileToZenodo (Fixtures.healthy "10") Fixtures.penv 3 5000 4 four_pos
      Fixtures.deposition "a b.csv" "inbox" "data/a b.csv" 10 in
  Spec.outcome upload initial = Ok tt
  /\ Spec.added upload initial
     = Spec.smooth_trace Fixtures.penv "https://zenodo.org/api/files/b1/a%20b.csv"
         "inbox" "data/a b.csv" 10 (fun _ => "0123456789"%string)
         (Chunked.ranges 4 four_pos 10).
Proof.
  intros upload.
  destruct (uploader_sends_ranges_in_order (Fixtures.healthy "10") Fixtures.penv 3 5000
              4 four_pos Fixtures.deposition "a b.csv" "inbox" "data/a b.csv" 10
              Fixtures.links initial eq_refl) as (_ & _ & Hsmooth).
  apply (Hsmooth (fun _ => "0123456789"%string)).
  - intros n cmd. exists Fixtures.ten_bytes. split; reflexivity.
  - intros n u init. simpl.
    destruct (String.eqb (template (method init)) "POST");
      [|destruct (String.eqb (template (method init)) "HEAD")];
      eexists; split; reflexivity.
Defined.

Example ranges_4_10 : Chunked.ranges 4 four_pos 10 = [(0, 3); (4, 7); (8, 9)].
Proof. reflexivity. Qed.

(** C3 on the code.  An object of zero bytes comes from S3 with a stream
    and the [ContentLength] 0.  The handlers of [index.ts] and of the
    chunked generation test [!ContentLength], which holds for 0 as it does
    for a missing length: they answer 500, with the message of a missing
    stream, after the read of the object and before any request to the
    archive, so that no PUT is sent and the transfer fails.  The handler
    of the buffered generation tests the stream only: it sends the empty
    file with one PUT that announces 0 bytes and answers 200. *)
Theorem zero_byte_object_is_refused :
  let event := Fixtures.created_object "data/empty.bin" in
  let object := {| Bucket := "inbox"; Key := "data/empty.bin"; Range := None |} in
  let missing := Error "Failed to get file stream from S3" in
  let streaming :=
    Streaming.handler Fixtures.empty_store Fixtures.penv 3 5000 event in
  let chunked :=
    Chunked.handler Fixtures.empty_store Fixtures.penv 3 5000
      Chunked.CHUNK_SIZE_src CHUNK_SIZE_src_pos event in
  let buffered := Buffered.handler Fixtures.empty_store Fixtures.penv event in
  s3_reply Fixtures.empty_store 0 object
  = Ok {| Body := Some ""; ContentLength := Some 0; ContentType := None |}
  /\ Spec.outcome streaming initial
     = Ok {| Lambda.statusCode := 500;
             Lambda.body := "Error processing file: Failed to get file stream from S3" |}
  /\ Spec.added streaming initial
     = [Console (LogProcessing "data/empty.bin" "empty.bin");
        S3Send object;
        Console (LogError missing);
        Console (LogErrorDetails "Failed to get file stream from S3");
        Console LogStackTrace]
  /\ Spec.outcome chunked initial
     = Ok {| Lambda.statusCode := 500; Lambda.body := "Error processing file" |}
  /\ Spec.added chunked initial
     = [Console (LogProcessing "data/empty.bin" "empty.bin");
        S3Send object;
        Console (LogError missing)]
  /\ Spec.outcome buffered initial
     = Ok {| Lambda.statusCode := 200; Lambda.body := "File processed successfully" |}
  /\ filter is_fetch (Spec.added buffered initial)
     = [Fetch (Common.creation_url Fixtures.penv) (Common.creation_request Fixtures.penv);
        Fetch "https://zenodo.org/api/files/b1/empty.bin"
          {| method := Some "PUT";
             headers := [("Authorization", "Bearer secret"); ("Content-Length", "0")];
             body := BufferBody "";
             timeout := None |}].
Proof. repeat split. Qed.

(* ===================================================================== *)
(** * What computations emit and return *)
(* ===================================================================== *)

Section Emits.
Variable P : Event -> Prop.

Lemma emits_ret {A} (a : A) : Spec.emits P (ret a).
Proof. intros w. exists []. simpl. rewrite app_nil_r. auto. Qed.

Lemma emits_throw {A} (e : Thrown) : Spec.emits P (@throw A e).
Proof. intros w. exists []. simpl. rewrite app_nil_r. auto. Qed.

Lemma emits_lift {A} (r : Result A) : Spec.emits P (lift r).
Proof. intros w. exists []. simpl. rewrite app_nil_r. auto. Qed.

Lemma emits_console msg : P (Console msg) -> Spec.emits P (console msg).
Proof. intros H w. exists [Console msg]. simpl. auto. Qed.

Lemma emits_sleep ms : P (Sleep ms) -> Spec.emits P (sleep ms).
Proof. intros H w. exists [Sleep ms]. simpl. auto. Qed.

Lemma emits_fetch env url init : P (Fetch url init) -> Spec.emits P (fetch env url init).
Proof. intros H w. exists [Fetch url init]. simpl. auto. Qed.

Lemma emits_s3Client_send env cmd : P (S3Send cmd) -> Spec.emits P (s3Client_send env cmd).
Proof. intros H w. exists [S3Send cmd]. simpl. auto. Qed.

Lemma emits_bind {A B} (m : M A) (k : A -> M B) :
  Spec.emits P m -> (forall a, Spec.emits P (k a)) -> Spec.emits P (bind m k).
Proof.
  intros Hm Hk w. unfold bind.
  destruct (Hm w) as (evs & Ht & Hevs).
  destruct (m w) as [[a|e] w1]; simpl in Ht.
  - destruct (Hk a w1) as (evs' & Ht' & Hevs').
    exists (evs ++ evs'). rewrite Ht', Ht, app_assoc.
    split; [reflexivity | apply Forall_app; auto].
  - exists evs. simpl. auto.
Qed.

(** After [lift r] the continuation may rely on the value of [r]. *)
Lemma emits_bind_lift {A B} (r : Result A) (k : A -> M B) :
  (forall a, r = Ok a -> Spec.emits P (k a)) -> Spec.emits P (bind (lift r) k).
Proof.
  intros Hk w. unfold bind, lift. destruct r as [a|e].
  - apply Hk. reflexivity.
  - exists []. simpl. rewrite app_nil_r. auto.
Qed.

Lemma emits_try_catch {A} (m : M A) (h : Thrown -> M A) :
  Spec.emits P m -> (forall e, Spec.emits P (h e)) -> Spec.emits P (try_catch m h).
Proof.
  intros Hm Hh w. unfold try_catch.
  destruct (Hm w) as (evs & Ht & Hevs).
  destruct (m w) as [[a|e] w1]; simpl in Ht.
  - exists evs. simpl. auto.
  - destruct (Hh e w1) as (evs' & Ht' & Hevs').
    exists (evs ++ evs'). rewrite Ht', Ht, app_assoc.
    split; [reflexivity | apply Forall_app; auto].
Qed.

Lemma emits_fetchWithRetry env MAX_RETRIES RETRY_DELAY url options retries :
  P (Fetch url options) -> P (Sleep RETRY_DELAY) ->
  (forall n, P (Console (LogRetry n RETRY_DELAY))) ->
  Spec.emits P (Common.fetchWithRetry env MAX_RETRIES RETRY_DELAY url options retries).
Proof.
  intros Hf Hs Hc. induction retries as [|retries' IH]; simpl;
    (apply emits_try_catch; [apply emits_fetch; assumption|]); intros e.
  - apply emits_throw.
  - apply emits_bind; [apply emits_console; apply Hc|]. intros _.
    apply emits_bind; [apply emits_sleep; assumption|]. intros _.
    exact IH.
Qed.

Lemma emits_for_each {A} (f : A -> M unit) (l : list A) :
  (forall x, Spec.emits P (f x)) -> Spec.emits P (Spec.for_each f l).
Proof.
  intros Hf. induction l as [|x l' IH]; simpl.
  - apply emits_ret.
  - apply emits_bind; [apply Hf | intros _; exact IH].
Qed.

(** A run that is pointwise equal emits the same. *)
Lemma emits_ext {A} (m m' : M A) :
  (forall w, m w = m' w) -> Spec.emits P m' -> Spec.emits P m.
Proof. intros Heq Hm w. rewrite Heq. apply Hm. Qed.
End Emits.

Section Returns.
Context {A : Type}.
Variable Q : A -> Prop.

Lemma returns_ret (a : A) : Q a -> Spec.returns Q (ret a).
Proof. intros H w. exact H. Qed.

Lemma returns_throw (e : Thrown) : Spec.returns Q (throw e).
Proof. intros w. exact I. Qed.

Lemma returns_bind {B} (m : M B) (k : B -> M A) :
  (forall b, Spec.returns Q (k b)) -> Spec.returns Q (bind m k).
Proof.
  intros Hk w. unfold bind. destruct (m w) as [[b|e] w1]; [apply Hk | exact I].
Qed.

(** A [try] whose [catch] clause always returns a value never throws. *)
Lemma try_catch_total (Q' : Thrown -> A -> Prop) (m : M A) (h : Thrown -> M A) :
  Spec.returns Q m ->
  (forall e w, exists a w', h e w = (Ok a, w') /\ Q' e a) ->
  forall w, exists a w',
    try_catch m h w = (Ok a, w') /\ (Q a \/ exists e, Q' e a).
Proof.
  intros Hm Hh w. unfold try_catch. specialize (Hm w).
  destruct (m w) as [[a|e] w1]; simpl in Hm.
  - exists a, w1. auto.
  - destruct (Hh e w1) as (a & w' & -> & Ha). exists a, w'. eauto.
Qed.
End Returns.

(* ===================================================================== *)
(** * The file name of an event *)
(* ===================================================================== *)

Lemma string_app_assoc (a b c : string) : ((a ++ b) ++ c = a ++ (b ++ c))%string.
Proof. induction a as [|x a IH]; simpl; [reflexivity | now rewrite IH]. Qed.

Lemma string_app_nil_r (a : string) : (a ++ "")%string = a.
Proof. induction a as [|x a IH]; simpl; [reflexivity | now rewrite IH]. Qed.

Lemma has_slash_app (a b : string) :
  Spec.has_slash (a ++ b) = Spec.has_slash a || Spec.has_slash b.
Proof.
  unfold Spec.has_slash, mem_ascii.
  induction a as [|x a IH]; simpl; [reflexivity|].
  rewrite IH. apply orb_assoc.
Qed.

Lemma pop_cons (x : string) (l : list string) :
  pop (x :: l) = match pop l with Some y => Some y | None => Some x end.
Proof. unfold pop. simpl. destruct (rev l); reflexivity. Qed.

(** The last element of [s.split('/')] is the final path segment. *)
Lemma split_slash_from_last (s : string) : forall cur,
  Spec.has_slash cur = false ->
  exists f, pop (split_slash_from cur s) = Some f
            /\ Spec.has_slash f = false
            /\ ((cur ++ s)%string = f \/ exists p, (cur ++ s = p ++ "/" ++ f)%string).
Proof.
  induction s as [|c r IH]; intros cur Hcur.
  - exists cur. simpl. rewrite string_app_nil_r. auto.
  - simpl. destruct (Ascii.eqb c "/") eqn:Hc.
    + apply Ascii.eqb_eq in Hc. subst c.
      destruct (IH EmptyString eq_refl) as (f & Hpop & Hf & Hshape).
      exists f. rewrite pop_cons, Hpop. split; [reflexivity|]. split; [assumption|].
      right. simpl in Hshape. destruct Hshape as [->|[p ->]].
      * exists cur. reflexivity.
      * exists (cur ++ "/" ++ p)%string. rewrite !string_app_assoc. reflexivity.
    + destruct (IH (cur ++ String c EmptyString)%string) as (f & Hpop & Hf & Hshape).
      * rewrite has_slash_app, Hcur. unfold Spec.has_slash, mem_ascii.
        cbn [list_ascii_of_string existsb orb].
        rewrite orb_false_r. apply eqb_neq. apply eqb_neq in Hc. congruence.
      * exists f. split; [assumption|]. split; [assumption|].
        rewrite string_app_assoc in Hshape. exact Hshape.
Qed.

Lemma pop_split_slash (k : string) :
  exists f, pop (split_slash k) = Some f /\ Spec.final_segment k f.
Proof.
  destruct (split_slash_from_last k EmptyString eq_refl) as (f & Hpop & Hf & Hshape).
  exists f. split; [exact Hpop|]. split; assumption.
Qed.

Lemma has_slash_cons (c : ascii) (s : string) :
  Spec.has_slash (String c s) = false ->
  Ascii.eqb c "/" = false /\ Spec.has_slash s = false.
Proof.
  unfold Spec.has_slash, mem_ascii. cbn [list_ascii_of_string existsb].
  intros H. apply orb_false_elim in H. destruct H as [Hc Hs].
  split; [|exact Hs]. apply eqb_neq. apply eqb_neq in Hc. congruence.
Qed.

Lemma split_slash_from_plain (s : string) : forall cur,
  Spec.has_slash s = false -> split_slash_from cur s = [(cur ++ s)%string].
Proof.
  induction s as [|c r IH]; intros cur H.
  - simpl. rewrite string_app_nil_r. reflexivity.
  - apply has_slash_cons in H. destruct H as [Hc Hr].
    cbn [split_slash_from]. rewrite Hc, IH by assumption.
    rewrite string_app_assoc. reflexivity.
Qed.

Lemma split_slash_from_after (a b : string) : forall cur,
  Spec.has_slash b = false ->
  pop (split_slash_from cur (a ++ "/" ++ b)) = Some b.
Proof.
  induction a as [|x a' IH]; intros cur Hb.
  - cbn [append split_slash_from]. rewrite Ascii.eqb_refl.
    rewrite split_slash_from_plain by assumption. reflexivity.
  - cbn [append split_slash_from]. destruct (Ascii.eqb x "/").
    + rewrite pop_cons, IH by assumption. reflexivity.
    + apply IH. assumption.
Qed.

(** A key has one final path segment only: the one that the code takes. *)
Lemma final_segment_unique (k f : string) :
  Spec.final_segment k f -> pop (split_slash k) = Some f.
Proof.
  intros [Hf [-> | [p ->]]]; unfold split_slash.
  - rewrite split_slash_from_plain by assumption. reflexivity.
  - apply split_slash_from_after. assumption.
Qed.

(** What a successful prelude tells of the event. *)
Lemma handler_prelude_ok (event : Lambda.S3Event) (b k f : string) :
  Common.handler_prelude event = Ok (b, k, f) ->
  exists record rest,
    Lambda.Records event = record :: rest
    /\ b = Lambda.bucket_name record
    /\ decodeURIComponent (replace_plus_with_space (Lambda.object_key record)) = Ok k
    /\ pop (split_slash k) = Some f
    /\ f <> EmptyString.
Proof.
  unfold Common.handler_prelude. intros H.
  destruct (Lambda.Records event) as [|record rest]; [discriminate|].
  exists record, rest.
  destruct (decodeURIComponent (replace_plus_with_space (Lambda.object_key record)))
    as [k'|e]; [|discriminate].
  destruct (pop (split_slash k')) as [f'|] eqn:Hpop; simpl in H; [|discriminate].
  destruct (String.eqb f' EmptyString) eqn:Hempty; [discriminate|].
  injection H as <- <- <-.
  split; [reflexivity|]. split; [reflexivity|]. split; [reflexivity|].
  split; [assumption|].
  intros ->. rewrite String.eqb_refl in Hempty. discriminate.
Qed.

(** The prelude of an event whose first record decodes to [k]. *)
Lemma handler_prelude_decoded (event : Lambda.S3Event) record rest (k f : string) :
  Lambda.Records event = record :: rest ->
  decodeURIComponent (replace_plus_with_space (Lambda.object_key record)) = Ok k ->
  pop (split_slash k) = Some f ->
  Common.handler_prelude event
  = if String.eqb f EmptyString
    then Throw (Error "File name is required")
    else Ok (Lambda.bucket_name record, k, f).
Proof.
  intros Hrec Hdec Hpop. unfold Common.handler_prelude.
  rewrite Hrec, Hdec, Hpop. reflexivity.
Qed.

(* ===================================================================== *)
(** * What the handlers emit *)
(* ===================================================================== *)

(** One step of the walk through a computation; the events themselves are
    left to the caller. *)
Ltac emits_step :=
  first
    [ apply emits_ret
    | apply emits_throw
    | apply emits_lift
    | apply emits_console
    | apply emits_sleep
    | apply emits_fetch
    | apply emits_s3Client_send
    | apply emits_fetchWithRetry
    | apply emits_bind; [|intros ?]
    | apply emits_try_catch; [|intros ?]
    | match goal with
      | |- Spec.emits _ (match ?x with _ => _ end) => destruct x
      end ].

Section HandlerEmits.
Variable P : Event -> Prop.
Variables b k f : string.
Hypothesis P_console : forall msg, P (Console msg).
Hypothesis P_sleep : forall ms, P (Sleep ms).
Hypothesis P_s3 : forall range, P (S3Send {| Bucket := b; Key := k; Range := range |}).
Hypothesis P_other : forall url init, method init <> Some "PUT"%string -> P (Fetch url init).
Hypothesis P_put : forall base init, P (Fetch (base ++ "/" ++ encodeURIComponent f)%string init).

Variable env : Env.
Variable penv : ProcessEnv.
Variable MAX_RETRIES : nat.
Variable RETRY_DELAY : Z.

Lemma createDataDeposition_emits :
  Spec.emits P (Common.createDataDeposition env penv MAX_RETRIES RETRY_DELAY).
Proof.
  unfold Common.createDataDeposition.
  repeat emits_step; auto; apply P_other; discriminate.
Qed.

Lemma uploadFileToZenodo_emits deposition fileStream fileSize :
  Spec.emits P
    (Streaming.uploadFileToZenodo env penv MAX_RETRIES RETRY_DELAY
       deposition f fileStream fileSize).
Proof.
  unfold Streaming.uploadFileToZenodo. cbv zeta.
  repeat emits_step; auto; apply P_other; discriminate.
Qed.

Lemma upload_range_emits url size r :
  (exists base, url = (base ++ "/" ++ encodeURIComponent f)%string) ->
  Spec.emits P (Spec.upload_range env penv MAX_RETRIES RETRY_DELAY url b k size r).
Proof.
  intros [base ->]. unfold Spec.upload_range.
  repeat emits_step; auto. apply P_s3.
Qed.

Lemma uploadLargeFileToZenodo_emits c (Hc : 0 < c) deposition size :
  Spec.emits P
    (Chunked.uploadLargeFileToZenodo env penv MAX_RETRIES RETRY_DELAY c Hc
       deposition f b k size).
Proof.
  unfold Chunked.uploadLargeFileToZenodo. cbv zeta.
  apply emits_bind; [apply emits_lift|]. intros links.
  eapply emits_ext; [intros w; apply upload_loop_for_each|].
  apply emits_for_each. intros r. apply upload_range_emits. eauto.
Qed.

Variable event : Lambda.S3Event.
Hypothesis prelude_ok : Common.handler_prelude event = Ok (b, k, f).

Ltac enter_handler :=
  apply emits_bind_lift; intros p Hp;
  rewrite prelude_ok in Hp; injection Hp as <-; cbv beta iota zeta.

Lemma Streaming_handler_emits :
  Spec.emits P (Streaming.handler env penv MAX_RETRIES RETRY_DELAY event).
Proof.
  unfold Streaming.handler, Streaming.handler_try, Streaming.handler_catch. enter_handler.
  repeat first [ apply createDataDeposition_emits
               | apply uploadFileToZenodo_emits
               | emits_step ]; auto.
Qed.

Lemma Chunked_handler_emits c (Hc : 0 < c) :
  Spec.emits P (Chunked.handler env penv MAX_RETRIES RETRY_DELAY c Hc event).
Proof.
  unfold Chunked.handler, Chunked.handler_try, Chunked.handler_catch. enter_handler.
  repeat first [ apply createDataDeposition_emits
               | apply uploadLargeFileToZenodo_emits
               | emits_step ]; auto.
Qed.

Lemma Buffered_handler_emits :
  Spec.emits P (Buffered.handler env penv event).
Proof.
  unfold Buffered.handler, Buffered.handler_try, Buffered.handler_catch,
    Buffered.createDataDeposition,
    Buffered.streamToBuffer.
  enter_handler.
  repeat emits_step; auto; apply P_other; discriminate.
Qed.
End HandlerEmits.

Lemma emits_added {A} (P : Event -> Prop) (m : M A) (w : State) :
  Spec.emits P m -> Forall P (Spec.added m w).
Proof.
  intros Hm. destruct (Hm w) as (evs & Ht & Hevs).
  unfold Spec.added. rewrite Ht, skipn_length_app. exact Hevs.
Qed.

Section PutTo.
Variable f : string.

Lemma put_to_console msg : Spec.put_to f (Console msg).
Proof. intros url init H. discriminate. Qed.

Lemma put_to_sleep ms : Spec.put_to f (Sleep ms).
Proof. intros url init H. discriminate. Qed.

Lemma put_to_s3 cmd : Spec.put_to f (S3Send cmd).
Proof. intros url init H. discriminate. Qed.

Lemma put_to_other url init :
  method init <> Some "PUT"%string -> Spec.put_to f (Fetch url init).
Proof. intros Hm url' init' H Hput. injection H as <- <-. contradiction. Qed.

Lemma put_to_put base init :
  Spec.put_to f (Fetch (base ++ "/" ++ encodeURIComponent f)%string init).
Proof. intros url' init' H _. injection H as <- _. exists base. reflexivity. Qed.
End PutTo.

Create HintDb events.
#[global] Hint Resolve put_to_console put_to_sleep put_to_s3 put_to_other put_to_put
  : events.

(** The decoder of [decodeURIComponent] reads the hexadecimal digits as
    the specification does. *)
Lemma hex_value_digit (c : ascii) : hex_value c = Spec.hex_digit_value c.
Proof. destruct c as [[] [] [] [] [] [] [] []]; reflexivity. Qed.






(* ===================================================================== *)
(** * Only the first record counts *)
(* ===================================================================== *)

Lemma handler_prelude_hd (e1 e2 : Lambda.S3Event) :
  hd_error (Lambda.Records e1) = hd_error (Lambda.Records e2) ->
  Common.handler_prelude e1 = Common.handler_prelude e2.
Proof.
  unfold Common.handler_prelude.
  destruct (Lambda.Records e1) as [|r1 l1], (Lambda.Records e2) as [|r2 l2];
    simpl; intros H; try discriminate; [reflexivity|].
  injection H as ->. reflexivity.
Qed.

Section ReadsOnly.
Variables b k : string.

Lemma reads_only_console msg : Spec.reads_only b k (Console msg).
Proof. intros cmd H. discriminate. Qed.

Lemma reads_only_sleep ms : Spec.reads_only b k (Sleep ms).
Proof. intros cmd H. discriminate. Qed.

Lemma reads_only_fetch url init : Spec.reads_only b k (Fetch url init).
Proof. intros cmd H. discriminate. Qed.

Lemma reads_only_s3 range :
  Spec.reads_only b k (S3Send {| Bucket := b; Key := k; Range := range |}).
Proof. intros cmd H. injection H as <-. split; reflexivity. Qed.
End ReadsOnly.

#[global] Hint Resolve reads_only_console reads_only_sleep reads_only_fetch reads_only_s3
  : events.

(** Every read of S3 by a handler that goes through the prelude is a read
    of the object of the first record. *)
Lemma reads_first_record (h : Lambda.S3Event -> M Lambda.HandlerResult)
    (event : Lambda.S3Event) (w : State) (cmd : GetObjectCommand) :
  (forall e, Common.handler_prelude event = Throw e -> snd (h event w) = w) ->
  (forall b k f, Common.handler_prelude event = Ok (b, k, f) ->
                 Spec.emits (Spec.reads_only b k) (h event)) ->
  In (S3Send cmd) (Spec.added (h event) w) ->
  exists record,
    hd_error (Lambda.Records event) = Some record
    /\ Bucket cmd = Lambda.bucket_name record
    /\ decodeURIComponent (replace_plus_with_space (Lambda.object_key record))
       = Ok (Key cmd).
Proof.
  intros Hthrow Hok Hin.
  destruct (Common.handler_prelude event) as [[[b k] f]|e] eqn:Hp.
  - pose proof (emits_added _ _ w (Hok b k f eq_refl)) as Hall.
    rewrite Forall_forall in Hall.
    destruct (Hall _ Hin cmd eq_refl) as [Hb Hk].
    destruct (handler_prelude_ok event b k f Hp)
      as (record & rest & Hrec & Hbucket & Hdec & _).
    exists record. rewrite Hrec, Hb, Hk. auto.
  - unfold Spec.added in Hin. rewrite (Hthrow e eq_refl), skipn_all in Hin.
    destruct Hin.
Qed.

(** C10. Two events with the same first record are handled in the same
    way by every handler, from every state and in every environment: same
    outcome, same calls, same trace.  And every object that a handler
    reads from S3 is the object of the first record: its bucket, and its
    key once decoded. *)
Theorem handler_depends_on_first_record_only
    (env : Env) (penv : ProcessEnv) (R : nat) (D : Z) (c : Z) (Hc : 0 < c)
    (e1 e2 : Lambda.S3Event) (w : State) :
  hd_error (Lambda.Records e1) = hd_error (Lambda.Records e2) ->
  Streaming.handler env penv R D e1 w = Streaming.handler env penv R D e2 w
  /\ Chunked.handler env penv R D c Hc e1 w = Chunked.handler env penv R D c Hc e2 w
  /\ Buffered.handler env penv e1 w = Buffered.handler env penv e2 w
  /\ (forall cmd,
         In (S3Send cmd) (Spec.added (Streaming.handler env penv R D e1) w)
         \/ In (S3Send cmd) (Spec.added (Chunked.handler env penv R D c Hc e1) w)
         \/ In (S3Send cmd) (Spec.added (Buffered.handler env penv e1) w) ->
         exists record,
           hd_error (Lambda.Records e1) = Some record
           /\ Bucket cmd = Lambda.bucket_name record
           /\ decodeURIComponent (replace_plus_with_space (Lambda.object_key record))
              = Ok (Key cmd)).
Proof.
  intros Hhd. pose proof (handler_prelude_hd e1 e2 Hhd) as Hpre.
  split; [|split; [|split]].
  - unfold Streaming.handler, bind, lift. rewrite Hpre. reflexivity.
  - unfold Chunked.handler, bind, lift. rewrite Hpre. reflexivity.
  - unfold Buffered.handler, bind, lift. rewrite Hpre. reflexivity.
  - intros cmd [Hin|[Hin|Hin]];
      (eapply reads_first_record; [| |exact Hin]).
    + intros e He. unfold Streaming.handler, bind, lift. rewrite He. reflexivity.
    + intros b k f Hp. apply (Streaming_handler_emits _ b k f);
        auto with events.
    + intros e He. unfold Chunked.handler, bind, lift. rewrite He. reflexivity.
    + intros b k f Hp. apply (Chunked_handler_emits _ b k f);
        auto with events.
    + intros e He. unfold Buffered.handler, bind, lift. rewrite He. reflexivity.
    + intros b k f Hp. apply (Buffered_handler_emits _ b k f);
        auto with events.
Qed.

Lemma handler_depends_on_first_record_only_witness :
  Streaming.handler (Fixtures.healthy "10") Fixtures.penv 3 5000
    (Fixtures.created_object "data/a.csv") initial
  = Streaming.handler (Fixtures.healthy "10") Fixtures.penv 3 5000
      Fixtures.two_objects initial.
Proof.
  apply (handler_depends_on_first_record_only (Fixtures.healthy "10") Fixtures.penv
           3 5000 4 four_pos (Fixtures.created_object "data/a.csv")
           Fixtures.two_objects initial eq_refl).
Defined.

(* ===================================================================== *)
(** * What the handlers return *)
(* ===================================================================== *)

Ltac returns_step :=
  first
    [ apply returns_ret; reflexivity
    | apply returns_throw
    | apply returns_bind; intros ?
    | match goal with
      | |- Spec.returns _ (match ?x with _ => _ end) => destruct x
      end ].

(** The [try] blocks return nothing but the record of a success. *)
Lemma Streaming_handler_try_returns env penv R D (b k f : string) :
  Spec.returns
    (fun res => res = {| Lambda.statusCode := 200;
                         Lambda.body := "File processed and published successfully" |})
    (Streaming.handler_try env penv R D b k f).
Proof. unfold Streaming.handler_try. repeat returns_step. Qed.

Lemma Chunked_handler_try_returns env penv R D c (Hc : 0 < c) (b k f : string) :
  Spec.returns
    (fun res => res = {| Lambda.statusCode := 200;
                         Lambda.body := "File processed and published successfully" |})
    (Chunked.handler_try env penv R D c Hc b k f).
Proof. unfold Chunked.handler_try. repeat returns_step. Qed.

Lemma Streaming_handler_catch_total (e : Thrown) (w : State) :
  exists res w',
    Streaming.handler_catch e w = (Ok res, w')
    /\ res = {| Lambda.statusCode := 500;
                Lambda.body := ("Error processing file: " ++ message_or_String e)%string |}.
Proof.
  unfold Streaming.handler_catch, bind, console, ret.
  destruct (instanceof_Error e); simpl; eauto.
Qed.

Lemma Chunked_handler_catch_total (e : Thrown) (w : State) :
  exists res w',
    Chunked.handler_catch e w = (Ok res, w')
    /\ res = {| Lambda.statusCode := 500; Lambda.body := "Error processing file" |}.
Proof. unfold Chunked.handler_catch, bind, console, ret. simpl. eauto. Qed.

(** C8, as the code has it.  An event that passes the first lines of the
    handler (a first record, a key that decodes, a file name that is not
    empty) always gets a structured result, never an exception.  When the
    [try] block runs to its end the result is the status 200; whatever
    error [e] is thrown inside it (while reading, provisioning, uploading
    or verifying), the result is the status 500 with a message, which in
    [index.ts] carries the message of [e].  The validation error
    [File name is required] is thrown to the caller instead, before
    anything else is done. *)
Theorem handler_returns_structured_failure
    (env : Env) (penv : ProcessEnv) (R : nat) (D : Z) (c : Z) (Hc : 0 < c)
    (event : Lambda.S3Event) (w : State) :
  (forall b k f,
      Common.handler_prelude event = Ok (b, k, f) ->
      let w0 := snd (console (LogProcessing k f) w) in
      let done := {| Lambda.statusCode := 200;
                     Lambda.body := "File processed and published successfully" |} in
      (match Streaming.handler_try env penv R D b k f w0 with
       | (Ok res, w') =>
           res = done /\ Streaming.handler env penv R D event w = (Ok done, w')
       | (Throw e, w1) =>
           Streaming.handler env penv R D event w
           = (Ok {| Lambda.statusCode := 500;
                    Lambda.body := ("Error processing file: "
                                      ++ message_or_String e)%string |},
              snd (Streaming.handler_catch e w1))
       end)
      /\ (match Chunked.handler_try env penv R D c Hc b k f w0 with
          | (Ok res, w') =>
              res = done /\ Chunked.handler env penv R D c Hc event w = (Ok done, w')
          | (Throw e, w1) =>
              Chunked.handler env penv R D c Hc event w
              = (Ok {| Lambda.statusCode := 500; Lambda.body := "Error processing file" |},
                 snd (Chunked.handler_catch e w1))
          end))
  /\ (Common.handler_prelude event = Throw (Error "File name is required") ->
      Streaming.handler env penv R D event w
      = (Throw (Error "File name is required"), w)
      /\ Chunked.handler env penv R D c Hc event w
         = (Throw (Error "File name is required"), w)).
Proof.
  split.
  - intros b k f Hp w0 done. split.
    + pose proof (Streaming_handler_try_returns env penv R D b k f w0) as Hdone.
      assert (Hrun : Streaming.handler env penv R D event w
                     = try_catch (Streaming.handler_try env penv R D b k f)
                         (Streaming.handler_catch) w0)
        by (unfold Streaming.handler, bind, lift; rewrite Hp; reflexivity).
      rewrite Hrun. unfold try_catch.
      destruct (Streaming.handler_try env penv R D b k f w0) as [[res|e] w'].
      * simpl in Hdone. subst res. split; reflexivity.
      * destruct (Streaming_handler_catch_total e w') as (res & w'' & Hcatch & ->).
        rewrite Hcatch. reflexivity.
    + pose proof (Chunked_handler_try_returns env penv R D c Hc b k f w0) as Hdone.
      assert (Hrun : Chunked.handler env penv R D c Hc event w
                     = try_catch (Chunked.handler_try env penv R D c Hc b k f)
                         (Chunked.handler_catch) w0)
        by (unfold Chunked.handler, bind, lift; rewrite Hp; reflexivity).
      rewrite Hrun. unfold try_catch.
      destruct (Chunked.handler_try env penv R D c Hc b k f w0) as [[res|e] w'].
      * simpl in Hdone. subst res. split; reflexivity.
      * destruct (Chunked_handler_catch_total e w') as (res & w'' & Hcatch & ->).
        rewrite Hcatch. reflexivity.
  - intros Hp. unfold Streaming.handler, Chunked.handler, bind, lift.
    rewrite Hp. split; reflexivity.
Qed.

(** The object store of the witness rejects the read. *)
Lemma handler_returns_structured_failure_witness :
  Spec.outcome
    (Streaming.handler Samples.no_store Fixtures.penv 3 5000
       (Fixtures.created_object "data/a.csv")) initial
  = Ok {| Lambda.statusCode := 500;
          Lambda.body := "Error processing file: The specified key does not exist." |}
  /\ Spec.outcome
       (Chunked.handler Samples.no_store Fixtures.penv 3 5000 4 four_pos
          (Fixtures.created_object "data/a.csv")) initial
     = Ok {| Lambda.statusCode := 500; Lambda.body := "Error processing file" |}.
Proof.
  destruct (handler_returns_structured_failure Samples.no_store Fixtures.penv 3 5000
              4 four_pos (Fixtures.created_object "data/a.csv") initial)
    as [Hreturned _].
  destruct (Hreturned "inbox" "data/a.csv" "a.csv" eq_refl) as [Hs Hc].
  unfold Spec.outcome. simpl in Hs, Hc. rewrite Hs, Hc. split; reflexivity.
Defined.

(** C8 fails on the code: the validation error of an event whose key ends
    with a [/] is thrown by both handlers, not returned as a status and a
    message. *)
Lemma empty_file_name_is_thrown :
  Spec.outcome
    (Streaming.handler (Fixtures.healthy "10") Fixtures.penv 3 5000
       (Fixtures.created_object "incoming/2024/")) initial
  = Throw (Error "File name is required")
  /\ Spec.outcome
       (Chunked.handler (Fixtures.healthy "10") Fixtures.penv 3 5000
          Chunked.CHUNK_SIZE_src CHUNK_SIZE_src_pos
          (Fixtures.created_object "incoming/2024/")) initial
     = Throw (Error "File name is required").
Proof. split; reflexivity. Qed.

(* ===================================================================== *)
(** * Provisioning and its failures *)
(* ===================================================================== *)

(** [createDataDeposition] of the retrying generations turns a response
    with a non-success status into an error that carries its reason
    text. *)
Lemma createDataDeposition_rejects_status
    (env : Env) (penv : ProcessEnv) (R : nat) (D : Z) (w w1 : State) (r : Response) :
  Common.fetchWithRetry env R D (Common.creation_url penv)
    (Common.creation_request penv) R w = (Ok r, w1) ->
  ok r = false ->
  Common.createDataDeposition env penv R D w
  = (Throw (Error ("Failed to create deposition: " ++ statusText r)%string), w1).
Proof.
  intros Hrun Hok. unfold Common.createDataDeposition, bind.
  rewrite Hrun, Hok. reflexivity.
Qed.

(** In the retrying generations a creation that comes back with a
    non-success status ends the invocation with the status 500, and no PUT
    is ever sent. *)
Lemma failed_creation_stops_the_handlers
    (env : Env) (penv : ProcessEnv) (R : nat) (D : Z) (c : Z) (Hc : 0 < c)
    (event : Lambda.S3Event) (w : State) (b k f : string)
    (out : GetObjectOutput) (stream : Readable) (r : Response) :
  Common.handler_prelude event = Ok (b, k, f) ->
  s3_reply env (s3_calls w) {| Bucket := b; Key := k; Range := None |} = Ok out ->
  Body out = Some stream ->
  falsy_number (ContentLength out) = false ->
  fetch_reply env (fetch_calls w) (Common.creation_url penv)
    (Common.creation_request penv) = Ok r ->
  ok r = false ->
  let streaming := Streaming.handler env penv R D event in
  let chunked := Chunked.handler env penv R D c Hc event in
  Spec.outcome streaming w
  = Ok {| Lambda.statusCode := 500;
          Lambda.body := ("Error processing file: Failed to create deposition: "
                            ++ statusText r)%string |}
  /\ count is_put (Spec.added streaming w) = 0%nat
  /\ Spec.outcome chunked w
     = Ok {| Lambda.statusCode := 500; Lambda.body := "Error processing file" |}
  /\ count is_put (Spec.added chunked w) = 0%nat.
Proof.
  intros Hp Hs3 Hbody Hlen Hpost Hok streaming chunked.
  assert (Hcreate : forall w0,
             s3_calls w0 = S (s3_calls w) -> fetch_calls w0 = fetch_calls w ->
             Common.createDataDeposition env penv R D w0
             = (Throw (Error ("Failed to create deposition: " ++ statusText r)%string),
                {| s3_calls := s3_calls w0; fetch_calls := S (fetch_calls w0);
                   trace := trace w0
                            ++ [Fetch (Common.creation_url penv)
                                  (Common.creation_request penv)] |})).
  { intros w0 _ Hcalls. apply createDataDeposition_rejects_status; [|exact Hok].
    rewrite fetchWithRetry_unfold, Hcalls, Hpost. reflexivity. }
  assert (Hstreaming :
            exists evs,
              streaming w
              = (Ok {| Lambda.statusCode := 500;
                       Lambda.body := ("Error processing file: Failed to create deposition: "
                                         ++ statusText r)%string |},
                 {| s3_calls := S (s3_calls w); fetch_calls := S (fetch_calls w);
                    trace := trace w ++ evs |})
              /\ count is_put evs = 0%nat).
  { eexists. unfold streaming, Streaming.handler, Streaming.handler_try, bind at 1, lift.
    rewrite Hp.
    cbv beta iota zeta. unfold bind at 1, console at 1.
    unfold try_catch, bind at 1, s3Client_send, record. cbn [s3_calls].
    rewrite Hs3, Hbody, Hlen. unfold bind at 1, console at 1.
    unfold bind at 1, console at 1. unfold bind at 1.
    rewrite Hcreate by reflexivity.
    unfold Streaming.handler_catch, bind, console, record, ret. simpl.
    rewrite <- !app_assoc. split; [reflexivity|]. reflexivity. }
  assert (Hchunked :
            exists evs,
              chunked w
              = (Ok {| Lambda.statusCode := 500; Lambda.body := "Error processing file" |},
                 {| s3_calls := S (s3_calls w); fetch_calls := S (fetch_calls w);
                    trace := trace w ++ evs |})
              /\ count is_put evs = 0%nat).
  { eexists. unfold chunked, Chunked.handler, Chunked.handler_try, bind at 1, lift.
    rewrite Hp.
    cbv beta iota zeta. unfold bind at 1, console at 1.
    unfold try_catch, bind at 1, s3Client_send, record. cbn [s3_calls].
    rewrite Hs3, Hbody, Hlen. unfold bind at 1, console at 1.
    unfold bind at 1, console at 1. unfold bind at 1.
    rewrite Hcreate by reflexivity.
    unfold Chunked.handler_catch, bind, console, record, ret. simpl.
    rewrite <- !app_assoc. split; [reflexivity|]. reflexivity. }
  destruct Hstreaming as (evs1 & Hrun1 & Hput1).
  destruct Hchunked as (evs2 & Hrun2 & Hput2).
  destruct (added_of_run streaming w _ _ evs1 Hrun1 eq_refl) as [-> ->].
  destruct (added_of_run chunked w _ _ evs2 Hrun2 eq_refl) as [-> ->].
  auto.
Qed.

(** C6 on the buffered generation ([types.ts], lines 84-101 and 194-257).
    When the creation request comes back with the status 500 and a JSON
    error body, [createDataDeposition] returns that body as if it were a
    deposition: no error, no status.  The handler then fails on the
    missing [links] with a [TypeError] and answers 500 with a message that
    has lost the status.  And when the body of the 500 response happens to
    hold a bucket link, the upload PUT is sent and the handler answers
    200. *)
Theorem buffered_provisioner_ignores_status :
  let rejected := Fixtures.failing_creation (Ok Fixtures.error_body) in
  let misleading := Fixtures.failing_creation (Ok Fixtures.deposition) in
  let event := Fixtures.created_object "data/a.csv" in
  Spec.outcome (Buffered.createDataDeposition rejected Fixtures.penv) initial
  = Ok Fixtures.error_body
  /\ Spec.outcome (Buffered.handler rejected Fixtures.penv event) initial
     = Ok {| Lambda.statusCode := 500; Lambda.body := "Error processing file" |}
  /\ In (Console (LogError
                    (TypeError "Cannot read properties of undefined (reading 'bucket')")))
        (Spec.added (Buffered.handler rejected Fixtures.penv event) initial)
  /\ Spec.outcome (Buffered.handler misleading Fixtures.penv event) initial
     = Ok {| Lambda.statusCode := 200; Lambda.body := "File processed successfully" |}
  /\ count is_put (Spec.added (Buffered.handler misleading Fixtures.penv event) initial)
     = 1%nat.
Proof.
  intros rejected misleading event.
  split; [reflexivity|]. split; [reflexivity|].
  split; [vm_compute; tauto|]. split; reflexivity.
Qed.

(** The same reply in the retrying generations: the invocation ends with
    the status 500, the message names the failed creation, and no PUT is
    sent. *)
Example retrying_provisioner_checks_status :
  let rejected := Fixtures.failing_creation (Ok Fixtures.deposition) in
  let event := Fixtures.created_object "data/a.csv" in
  Spec.outcome (Streaming.handler rejected Fixtures.penv 3 5000 event) initial
  = Ok {| Lambda.statusCode := 500;
          Lambda.body := "Error processing file: Failed to create deposition: INTERNAL SERVER ERROR" |}
  /\ count is_put (Spec.added (Streaming.handler rejected Fixtures.penv 3 5000 event) initial)
     = 0%nat.
Proof.
  intros rejected event.
  destruct (failed_creation_stops_the_handlers rejected Fixtures.penv 3 5000 4 four_pos
              event initial "inbox" "data/a.csv" "a.csv" Fixtures.ten_bytes "0123456789"
              (Fixtures.response 500 "INTERNAL SERVER ERROR" (Ok Fixtures.deposition))
              eq_refl eq_refl eq_refl eq_refl eq_refl eq_refl)
    as (Hout & Hput & _).
  split; assumption.
Qed.

(* ===================================================================== *)
(** * More runs of the handlers *)
(* ===================================================================== *)

(** A ten-byte object goes through the streaming handler when the probe
    reports ten bytes. *)
Example streaming_ten_bytes :
  Spec.outcome
    (Streaming.handler (Fixtures.healthy "10") Fixtures.penv 3 5000
       (Fixtures.created_object "data/a.csv")) initial
  = Ok {| Lambda.statusCode := 200;
          Lambda.body := "File processed and published successfully" |}.
Proof. reflexivity. Qed.

(** The same object in chunks of four bytes: the read of the whole object
    and of three ranges, and three PUTs. *)
Example chunked_ten_bytes :
  let run :=
    Chunked.handler (Fixtures.healthy "10") Fixtures.penv 3 5000 4 four_pos
      (Fixtures.created_object "data/a.csv") in
  Spec.outcome run initial
  = Ok {| Lambda.statusCode := 200;
          Lambda.body := "File processed and published successfully" |}
  /\ count is_s3 (Spec.added run initial) = 4%nat
  /\ count is_put (Spec.added run initial) = 3%nat.
Proof. repeat split; reflexivity. Qed.

(** With the constants of the sources: three failures are absorbed, with
    three delays of five seconds; a fourth failure is not. *)
Example retry_with_source_constants :
  let run k :=
    Common.fetchWithRetry (Fixtures.flaky k Fixtures.created)
      Common.MAX_RETRIES_src Common.RETRY_DELAY_src
      "https://zenodo.org/api/deposit/depositions" Fixtures.some_request
      Common.MAX_RETRIES_src in
  Spec.outcome (run 3%nat) initial = Ok Fixtures.created
  /\ filter is_sleep (Spec.added (run 3%nat) initial) = [Sleep 5000; Sleep 5000; Sleep 5000]
  /\ Spec.outcome (run 4%nat) initial = Throw Fixtures.network_down.
Proof. repeat split; reflexivity. Qed.

(** Errors of the prelude other than the validation error: an event
    without records and a key that does not decode. *)
Example prelude_errors :
  Common.handler_prelude {| Lambda.Records := [] |}
  = Throw (TypeError "Cannot read properties of undefined (reading 's3')")
  /\ Common.handler_prelude (Fixtures.created_object "data/50%.csv")
     = Throw (URIError "URI malformed").
Proof. split; reflexivity. Qed.

(* ===================================================================== *)
(** * The retrying transport in every environment *)
(* ===================================================================== *)

Section RetryCases.
Variable env : Env.
Variable MAX_RETRIES : nat.
Variable RETRY_DELAY : Z.
Variable url : string.
Variable options : RequestInit.

Let fetchWithRetry := Common.fetchWithRetry env MAX_RETRIES RETRY_DELAY url options.
Let failed := Spec.failed_attempts MAX_RETRIES RETRY_DELAY url options.

(** Whatever the network does, a call is [k] failed attempts, with
    [k <= retries], followed by a last attempt whose reply is the outcome
    of the call; after a failure of the last attempt no retry is left. *)
Lemma fetchWithRetry_cases retries : forall w,
  exists k,
    (k <= retries)%nat
    /\ (forall i, (i < k)%nat ->
          exists e, fetch_reply env (fetch_calls w + i) url options = Throw e)
    /\ fetchWithRetry retries w
       = (fetch_reply env (fetch_calls w + k) url options,
          {| s3_calls := s3_calls w; fetch_calls := fetch_calls w + S k;
             trace := trace w ++ failed retries k ++ [Fetch url options] |})
    /\ ((exists r, fetch_reply env (fetch_calls w + k) url options = Ok r)
        \/ k = retries).
Proof.
  induction retries as [|retries' IH]; intros w.
  - exists 0%nat. split; [lia|]. split; [intros i Hi; lia|].
    rewrite Nat.add_0_r. split.
    + unfold fetchWithRetry. rewrite fetchWithRetry_unfold.
      destruct (fetch_reply env (fetch_calls w) url options);
        simpl; repeat f_equal; lia.
    + right. reflexivity.
  - destruct (fetch_reply env (fetch_calls w) url options) as [r|e] eqn:Hfirst.
    + exists 0%nat. split; [lia|]. split; [intros i Hi; lia|].
      rewrite Nat.add_0_r. split.
      * unfold fetchWithRetry. rewrite fetchWithRetry_unfold, Hfirst.
        simpl. repeat f_equal. lia.
      * left. exists r. exact Hfirst.
    + destruct (IH {| s3_calls := s3_calls w; fetch_calls := S (fetch_calls w);
                      trace := ((trace w ++ [Fetch url options])
                                  ++ [Console (LogRetry (Z.of_nat MAX_RETRIES
                                                         - Z.of_nat (S retries') + 1)
                                                 RETRY_DELAY)])
                                 ++ [Sleep RETRY_DELAY] |})
        as (k & Hle & Hfail & Hrun & Hlast).
      cbn [s3_calls fetch_calls trace] in *.
      assert (Hshift : forall j, (S (fetch_calls w) + j = fetch_calls w + S j)%nat)
        by (intros; lia).
      rewrite Hshift in *.
      exists (S k). split; [lia|]. split; [|split].
      * intros i Hi. destruct i as [|i].
        -- exists e. rewrite Nat.add_0_r. exact Hfirst.
        -- rewrite <- Hshift. apply Hfail. lia.
      * unfold fetchWithRetry in *. rewrite fetchWithRetry_unfold, Hfirst, Hrun.
        f_equal. f_equal; [lia|].
        unfold failed. simpl. rewrite <- !app_assoc. reflexivity.
      * destruct Hlast as [Hok | ->]; [left; exact Hok | right; reflexivity].
Qed.
End RetryCases.

(** X1. In every environment a call of [fetchWithRetry] makes at least one
    and at most [R + 1] attempts, all of them with the request it was
    given; it waits exactly once between two attempts, each time for the
    configured delay; and it never touches S3. *)
Theorem fetchWithRetry_attempts_are_bounded
    (env : Env) (R : nat) (D : Z) (url : string) (options : RequestInit) (w : State) :
  let run := Common.fetchWithRetry env R D url options R in
  (1 <= count is_fetch (Spec.added run w) <= S R)%nat
  /\ S (count is_sleep (Spec.added run w)) = count is_fetch (Spec.added run w)
  /\ Forall (fun ev => is_fetch ev = true -> ev = Fetch url options) (Spec.added run w)
  /\ Forall (fun ev => is_sleep ev = true -> ev = Sleep D) (Spec.added run w)
  /\ s3_calls (snd (run w)) = s3_calls w
  /\ fetch_calls (snd (run w))
     = (fetch_calls w + count is_fetch (Spec.added run w))%nat.
Proof.
  intros run.
  destruct (fetchWithRetry_cases env R D url options R w) as (k & Hle & _ & Hrun & _).
  destruct (added_of_run run w _ _ _ Hrun eq_refl) as [_ Hadd].
  destruct (failed_counts R D url options R k) as [Hs Hf].
  pose proof (failed_events R D url options R k) as Hev.
  fold run in Hrun. rewrite Hadd, Hrun, !count_app, Hs, Hf.
  unfold count; cbn [filter is_fetch is_sleep List.length snd s3_calls fetch_calls].
  split; [lia|]. split; [lia|]. split; [|split; [|split; [reflexivity | lia]]].
  - apply Forall_app. split.
    + eapply Forall_impl; [|exact Hev].
      intros ev [->|[->|[n ->]]]; simpl; intros; congruence.
    + constructor; [reflexivity | constructor].
  - apply Forall_app. split.
    + eapply Forall_impl; [|exact Hev].
      intros ev [->|[->|[n ->]]]; simpl; intros; congruence.
    + constructor; [simpl; discriminate | constructor].
Qed.

(* ===================================================================== *)
(** * The range plan in closed form *)
(* ===================================================================== *)

Section ClosedPlan.
Variable c : Z.
Hypothesis c_pos : 0 < c.

Let ranges_from := Chunked.ranges_from c c_pos.

(** The ranges left from [start] on are [start], [start + c], ... *)
Lemma ranges_from_closed size : forall n start,
  n = Z.to_nat ((size - start + c - 1) / c) ->
  ranges_from size start
  = map (fun j => (start + Z.of_nat j * c,
                   Z.min (start + Z.of_nat j * c + c - 1) (size - 1)))
        (seq 0 n).
Proof.
  induction n as [|n IH]; intros start Hn.
  - unfold ranges_from. rewrite ranges_from_done; [reflexivity|].
    destruct (Z_lt_dec start size) as [Hlt|]; [|lia].
    assert (1 <= (size - start + c - 1) / c)
      by (apply Z.div_le_lower_bound; lia).
    lia.
  - assert (Hlt : start < size).
    { destruct (Z_lt_dec start size) as [|Hge]; [assumption|].
      assert ((size - start + c - 1) / c <= 0).
      { apply Z.lt_succ_r. apply Z.div_lt_upper_bound; lia. }
      lia. }
    unfold ranges_from. rewrite ranges_from_step by assumption.
    cbn [seq map]. rewrite Z.mul_0_l, Z.add_0_r.
    unfold Chunked.chunk_end at 1. f_equal.
    rewrite <- seq_shift, map_map.
    destruct (Z_le_gt_dec (start + c) size) as [Hfull|Hlast].
    + replace (Chunked.chunk_end c size start + 1) with (start + c)
        by (unfold Chunked.chunk_end; lia).
      fold ranges_from. rewrite (IH (start + c)).
      * apply map_ext. intros j. rewrite Nat2Z.inj_succ.
        f_equal; [lia | f_equal; lia].
      * replace (size - start + c - 1) with ((size - (start + c) + c - 1) + 1 * c) in Hn
          by lia.
        rewrite Z.div_add in Hn by lia.
        assert (0 <= (size - (start + c) + c - 1) / c)
          by (apply Z.div_pos; lia).
        lia.
    + replace (Chunked.chunk_end c size start + 1) with size
        by (unfold Chunked.chunk_end; lia).
      rewrite ranges_from_done by lia.
      assert (Hone : (size - start + c - 1) / c = 1).
      { symmetry. apply (Z.div_unique _ c 1 (size - start - 1)); lia. }
      rewrite Hone in Hn. assert (n = 0%nat) by lia. subst n. reflexivity.
Qed.
End ClosedPlan.

(** X2. For a size [s >= 0] and a chunk ceiling [c > 0] the plan of the
    chunked uploader has the quotient of [s] by [c], rounded up, ranges;
    the [i]-th one starts at [i * c] and ends at [i * c + c - 1], or at
    [s - 1] if that comes first.  So no range is longer than [c] bytes and
    every range but the last is exactly [c] bytes long. *)
Theorem range_plan_closed_form (c : Z) (Hc : 0 < c) (s : Z) (Hs : 0 <= s) :
  let plan := Chunked.ranges c Hc s in
  plan = More.closed_plan c s
  /\ List.length plan = More.range_count c s
  /\ Forall (fun r => Spec.range_length r <= c) plan
  /\ (forall i r,
         nth_error plan i = Some r -> (S i < List.length plan)%nat ->
         Spec.range_length r = c).
Proof.
  intros plan.
  assert (Hclosed : plan = More.closed_plan c s).
  { unfold plan, Chunked.ranges, More.closed_plan, More.range_count.
    rewrite (ranges_from_closed c Hc s (Z.to_nat ((s + c - 1) / c)) 0)
      by (f_equal; f_equal; lia).
    apply map_ext. intros j. unfold More.nth_range. rewrite !Z.add_0_l. reflexivity. }
  assert (Hlen : List.length plan = More.range_count c s).
  { rewrite Hclosed. unfold More.closed_plan. rewrite length_map, length_seq. reflexivity. }
  split; [exact Hclosed|]. split; [exact Hlen|]. split.
  - rewrite Hclosed. unfold More.closed_plan. apply Forall_map.
    apply Forall_forall. intros i _. unfold Spec.range_length, More.nth_range. simpl. lia.
  - intros i r Hnth Hnext. rewrite Hlen in Hnext.
    rewrite Hclosed in Hnth. unfold More.closed_plan in Hnth.
    rewrite nth_error_map in Hnth.
    rewrite nth_error_seq in Hnth.
    destruct (Nat.ltb i (More.range_count c s)) eqn:Hi; [|discriminate].
    simpl in Hnth. injection Hnth as <-.
    unfold Spec.range_length, More.nth_range. simpl.
    assert (Hfull : Z.of_nat (S i) * c <= s - 1).
    { unfold More.range_count in Hnext.
      assert (Z.of_nat (S i) < (s + c - 1) / c) by lia.
      assert (Hdm := Z.div_mod (s + c - 1) c ltac:(lia)).
      assert (Hmod := Z.mod_pos_bound (s + c - 1) c Hc).
      nia. }
    lia.
Qed.

Lemma range_plan_closed_form_witness :
  Chunked.ranges Chunked.CHUNK_SIZE_src CHUNK_SIZE_src_pos 262144001
  = More.closed_plan Chunked.CHUNK_SIZE_src 262144001.
Proof.
  apply (range_plan_closed_form Chunked.CHUNK_SIZE_src CHUNK_SIZE_src_pos 262144001).
  lia.
Defined.

Example closed_plan_ex :
  More.closed_plan Chunked.CHUNK_SIZE_src 262144001
  = [(0, 104857599); (104857600, 209715199); (209715200, 262144000)].
Proof. reflexivity. Qed.

(* ===================================================================== *)
(** * Decimal numerals: [toString] and [parseInt] *)
(* ===================================================================== *)

Lemma of_uint_acc_value (d : Decimal.uint) : forall acc,
  Z.pos (Pos.of_uint_acc d acc) = More.uint_value (Z.pos acc) d.
Proof.
  induction d; intros acc; cbn [Pos.of_uint_acc More.uint_value];
    try reflexivity; rewrite IHd; f_equal;
    rewrite ?Pos2Z.inj_add, ?Pos2Z.inj_mul; lia.
Qed.

Lemma of_uint_value (d : Decimal.uint) :
  Z.of_N (Pos.of_uint d) = More.uint_value 0 d.
Proof.
  induction d; cbn [Pos.of_uint More.uint_value Z.of_N];
    try reflexivity; try exact IHd; rewrite of_uint_acc_value; reflexivity.
Qed.

(** [parseInt] reads the digits of a numeral back. *)
Lemma read_digits_uint (d : Decimal.uint) : forall a,
  read_digits a (NilEmpty.string_of_uint d)
  = match d with
    | Decimal.Nil => a
    | _ => Some (More.uint_value (match a with Some x => x | None => 0 end) d)
    end.
Proof.
  induction d; intros a; [reflexivity|..];
    cbn [NilEmpty.string_of_uint read_digits More.uint_value];
    change (is_digit _) with true; cbv iota; rewrite IHd;
    destruct d; reflexivity.
Qed.

(** A character below U+0080 that is no white space ends the white space
    that [parseInt] skips. *)
Lemma skip_spaces_stop (c : ascii) (r : string) :
  is_space c = false -> (N_of_ascii c <? 194)%N = true ->
  skip_spaces (String c r) = String c r.
Proof.
  intros Hspace Hlow. apply N.ltb_lt in Hlow.
  assert (H2 : forall c2, is_space2 c c2 = false).
  { intros c2. unfold is_space2.
    replace (N_of_ascii c =? 194)%N with false
      by (symmetry; apply N.eqb_neq; lia).
    reflexivity. }
  assert (H3 : forall c2 c3, is_space3 c c2 c3 = false).
  { intros c2 c3. unfold is_space3.
    replace (N_of_ascii c =? 225)%N with false by (symmetry; apply N.eqb_neq; lia).
    replace (N_of_ascii c =? 226)%N with false by (symmetry; apply N.eqb_neq; lia).
    replace (N_of_ascii c =? 227)%N with false by (symmetry; apply N.eqb_neq; lia).
    replace (N_of_ascii c =? 239)%N with false by (symmetry; apply N.eqb_neq; lia).
    reflexivity. }
  cbn [skip_spaces]. rewrite Hspace.
  destruct r as [|c2 [|c3 r3]]; try reflexivity.
  - rewrite H2. reflexivity.
  - rewrite H2, H3. reflexivity.
Qed.

(** The numeral of a number is never empty and starts with a digit or
    with the sign. *)
Lemma Number_toString_parse (n : Z) : parseInt10 (Number_toString n) = Some n.
Proof.
  unfold Number_toString. destruct n as [|p|p].
  - reflexivity.
  - cbn [Z.to_int NilZero.string_of_int].
    pose proof (DecimalPos.Unsigned.to_uint_nonnil p) as Hnil.
    pose proof (DecimalPos.Unsigned.of_to p) as Hval.
    apply (f_equal Z.of_N) in Hval. rewrite of_uint_value in Hval.
    pose proof (read_digits_uint (Pos.to_uint p) None) as Hread.
    destruct (Pos.to_uint p) as [|d|d|d|d|d|d|d|d|d|d]; [contradiction|..];
      cbn [NilZero.string_of_uint NilEmpty.string_of_uint] in *;
      unfold parseInt10; rewrite skip_spaces_stop by reflexivity;
      change (Ascii.eqb _ "-") with false; change (Ascii.eqb _ "+") with false;
      cbv iota; rewrite Hread; f_equal; exact Hval.
  - cbn [Z.to_int NilZero.string_of_int].
    pose proof (DecimalPos.Unsigned.to_uint_nonnil p) as Hnil.
    pose proof (DecimalPos.Unsigned.of_to p) as Hval.
    apply (f_equal Z.of_N) in Hval. rewrite of_uint_value in Hval.
    pose proof (read_digits_uint (Pos.to_uint p) None) as Hread.
    unfold parseInt10. rewrite skip_spaces_stop by reflexivity.
    change (Ascii.eqb "-" "-") with true. cbv iota.
    replace (NilZero.string_of_uint (Pos.to_uint p))
      with (NilEmpty.string_of_uint (Pos.to_uint p))
      by (destruct (Pos.to_uint p); [contradiction | reflexivity..]).
    rewrite Hread.
    destruct (Pos.to_uint p); [contradiction|..]; cbn [option_map];
      f_equal; rewrite Hval; reflexivity.
Qed.

Lemma Number_toString_not_empty (n : Z) : Number_toString n <> EmptyString.
Proof.
  intros H. pose proof (Number_toString_parse n) as Hp. rewrite H in Hp. discriminate.
Qed.

(* ===================================================================== *)
(** * The streaming handler, step by step *)
(* ===================================================================== *)

(** A request that is answered at the first attempt. *)
Lemma fetchWithRetry_first_try
    (env : Env) (R : nat) (D : Z) (url : string) (options : RequestInit)
    (retries : nat) (w : State) (r : Response) :
  fetch_reply env (fetch_calls w) url options = Ok r ->
  Common.fetchWithRetry env R D url options retries w
  = (Ok r, {| s3_calls := s3_calls w; fetch_calls := S (fetch_calls w);
              trace := trace w ++ [Fetch url options] |}).
Proof. intros H. rewrite fetchWithRetry_unfold, H. reflexivity. Qed.

(** X3. The streaming handler on the happy path.  When the object is read
    with a body and a size [n] that is not zero, the creation and the PUT
    are accepted at the first attempt, and the probe answers with a
    success status and the decimal text of [n] as [Content-Length], the
    handler answers 200 and has done, in this order and nothing else: the
    read of the object, the creation request, one PUT of the stream to the
    bucket link followed by the escaped file name, and the HEAD probe of
    the same path with the access token as query, with its messages in
    between. *)
Theorem streaming_handler_happy_path
    (env : Env) (penv : ProcessEnv) (R : nat) (D : Z)
    (event : Lambda.S3Event) (w : State) (b k f : string)
    (out : GetObjectOutput) (stream : Readable) (n : Z)
    (created uploaded probe : Response) (id : option Z) (links : DepositionLinks) :
  let url := (template (bucket links) ++ "/" ++ encodeURIComponent f)%string in
  Common.handler_prelude event = Ok (b, k, f) ->
  s3_reply env (s3_calls w) {| Bucket := b; Key := k; Range := None |} = Ok out ->
  Body out = Some stream ->
  ContentLength out = Some n ->
  n <> 0 ->
  fetch_reply env (fetch_calls w) (Common.creation_url penv)
    (Common.creation_request penv) = Ok created ->
  ok created = true ->
  json created = Ok (JsonValue id (Some links)) ->
  fetch_reply env (S (fetch_calls w)) url (Streaming.put_request penv stream n)
  = Ok uploaded ->
  ok uploaded = true ->
  fetch_reply env (S (S (fetch_calls w))) (Streaming.probe_url penv url)
    Streaming.probe_request = Ok probe ->
  ok probe = true ->
  content_length probe = Some (Number_toString n) ->
  Spec.outcome (Streaming.handler env penv R D event) w
  = Ok {| Lambda.statusCode := 200;
          Lambda.body := "File processed and published successfully" |}
  /\ Spec.added (Streaming.handler env penv R D event) w
     = [Console (LogProcessing k f);
        S3Send {| Bucket := b; Key := k; Range := None |};
        Console (LogFileSize n);
        Console LogCreating;
        Fetch (Common.creation_url penv) (Common.creation_request penv);
        Console (LogDepositionCreated id);
        Console LogStartUpload;
        Fetch url (Streaming.put_request penv stream n);
        Fetch (Streaming.probe_url penv url) Streaming.probe_request;
        Console (LogVerified (Some n));
        Console (LogSuccess k);
        Console (LogZenodoUrl (html links))].
Proof.
  intros url Hp Hs3 Hbody Hlen Hn Hcreate Hcreated Hjson Hput Huploaded
    Hprobe Hprobed Hheader.
  assert (Hsize : Streaming.reported_size probe = Some n).
  { unfold Streaming.reported_size, Streaming.content_length_or_0.
    rewrite Hheader. cbn [falsy_string template].
    destruct (String.eqb (Number_toString n) EmptyString) eqn:He.
    - apply String.eqb_eq in He. destruct (Number_toString_not_empty n He).
    - apply Number_toString_parse. }
  assert (Hfalsy : falsy_number (Some n) = false)
    by (simpl; apply Z.eqb_neq; assumption).
  match goal with
  | |- _ = ?res /\ _ = ?evs =>
      assert (Hrun : exists w',
                 Streaming.handler env penv R D event w = (res, w')
                 /\ trace w' = trace w ++ evs)
  end.
  2: { destruct Hrun as (w' & Hrun & Htrace).
       exact (added_of_run _ w w' _ _ Hrun Htrace). }
  eexists. split; [|shelve].
  unfold Streaming.handler, Streaming.handler_try, Streaming.uploadFileToZenodo,
    Common.createDataDeposition,
    try_catch, bind, lift, console, ret, record, s3Client_send, fetch.
  rewrite Hp. cbn [s3_calls fetch_calls trace].
  rewrite Hs3, Hbody, Hlen, Hfalsy.
  rewrite (fetchWithRetry_first_try _ _ _ _ _ _ _ created) by exact Hcreate.
  rewrite Hcreated, Hjson. cbn [negb read_id read_links]. fold url.
  rewrite (fetchWithRetry_first_try _ _ _ _ _ _ _ uploaded) by exact Hput.
  rewrite Huploaded. cbn [negb s3_calls fetch_calls trace].
  rewrite Hprobe, Hprobed. cbn [negb]. rewrite Hsize.
  replace (strict_neq (Some n) n) with false
    by (symmetry; apply strict_neq_false; reflexivity).
  reflexivity.
  Unshelve. cbn [trace]. rewrite <- !app_assoc. reflexivity.
Qed.

Lemma streaming_handler_happy_path_witness :
  Spec.outcome
    (Streaming.handler (Fixtures.healthy "10") Fixtures.penv 3 5000
       (Fixtures.created_object "data/a+b.csv")) initial
  = Ok {| Lambda.statusCode := 200;
          Lambda.body := "File processed and published successfully" |}.
Proof.
  apply (streaming_handler_happy_path (Fixtures.healthy "10") Fixtures.penv 3 5000
           (Fixtures.created_object "data/a+b.csv") initial
           "inbox" "data/a b.csv" "a b.csv" Fixtures.ten_bytes "0123456789" 10
           Fixtures.created (Fixtures.response 200 "OK" Fixtures.not_json)
           (Fixtures.head_reply "10") (Some 42) Fixtures.links);
    try reflexivity.
  discriminate.
Defined.

(** Unfolds a handler and its helpers down to the replies of the world. *)
Ltac unfold_run :=
  unfold Streaming.handler, Streaming.handler_try, Streaming.handler_catch,
    Streaming.uploadFileToZenodo,
    Chunked.handler, Chunked.handler_try, Chunked.handler_catch,
    Buffered.handler, Buffered.handler_try, Buffered.handler_catch, Buffered.createDataDeposition,
    Buffered.streamToBuffer,
    Common.createDataDeposition,
    try_catch, bind, lift, console, ret, throw, record, s3Client_send, fetch.

Lemma added_unchanged {A} (m : M A) (w : State) :
  snd (m w) = w -> Spec.added m w = [].
Proof.
  intros H. unfold Spec.added. rewrite H. apply skipn_all.
Qed.

Lemma count_filter_none (p : Event -> bool) (l : list Event) :
  Forall (fun ev => p ev = false) l -> count p l = 0%nat.
Proof.
  unfold count. induction 1 as [|ev l Hev _ IH]; simpl; [reflexivity|].
  rewrite Hev. exact IH.
Qed.

(** The attempts of a request that is no [HEAD] hold no [HEAD]. *)
Lemma failed_attempts_no_head R D url options retries k :
  More.is_head (Fetch url options) = false ->
  count More.is_head (Spec.failed_attempts R D url options retries k) = 0%nat.
Proof.
  intros H. apply count_filter_none.
  eapply Forall_impl; [|apply failed_events].
  intros ev [->|[->|[n ->]]]; [exact H | reflexivity | reflexivity].
Qed.

(** X4. In every environment [uploadFileToZenodo] sends at most one HEAD
    probe; it sends it only after an attempt of the PUT was answered with
    a success status; and it never succeeds without having sent it. *)
Theorem probe_only_after_accepted_upload
    (env : Env) (penv : ProcessEnv) (R : nat) (D : Z)
    (deposition : Deposition) (fileName : string) (fileStream : Readable) (E : Z)
    (w : State) :
  let run := Streaming.uploadFileToZenodo env penv R D deposition fileName fileStream E in
  (count More.is_head (Spec.added run w) <= 1)%nat
  /\ (count More.is_head (Spec.added run w) = 1%nat ->
      exists links k r,
        read_links deposition = Ok links
        /\ (k <= R)%nat
        /\ fetch_reply env (fetch_calls w + k)
             (template (bucket links) ++ "/" ++ encodeURIComponent fileName)%string
             (Streaming.put_request penv fileStream E) = Ok r
        /\ ok r = true)
  /\ (Spec.outcome run w = Ok tt -> count More.is_head (Spec.added run w) = 1%nat).
Proof.
  intros run.
  destruct (read_links deposition) as [links|e] eqn:Hlinks.
  2: { assert (Hrun : run w = (Throw e, w))
         by (unfold run; unfold_run; rewrite Hlinks; reflexivity).
       rewrite (added_unchanged run w) by (rewrite Hrun; reflexivity).
       unfold Spec.outcome. rewrite Hrun.
       split; [unfold count; simpl; lia|]. split; [discriminate|discriminate]. }
  set (url := (template (bucket links) ++ "/" ++ encodeURIComponent fileName)%string).
  destruct (fetchWithRetry_cases env R D url (Streaming.put_request penv fileStream E) R w)
    as (k & Hle & _ & Hput & _).
  pose proof (failed_attempts_no_head R D url (Streaming.put_request penv fileStream E)
                R k eq_refl) as Hnohead.
  assert (Hcases :
            (exists res tail,
                run w = (res, {| s3_calls := s3_calls w;
                                 fetch_calls := S (fetch_calls w + S k);
                                 trace := trace w
                                   ++ (Spec.failed_attempts R D url
                                         (Streaming.put_request penv fileStream E) R k
                                       ++ [Fetch url (Streaming.put_request penv fileStream E)])
                                   ++ Fetch (Streaming.probe_url penv url)
                                        Streaming.probe_request :: tail |})
                /\ count More.is_head tail = 0%nat
                /\ exists r, fetch_reply env (fetch_calls w + k) url
                               (Streaming.put_request penv fileStream E) = Ok r
                             /\ ok r = true)
            \/ (exists e,
                   run w = (Throw e, {| s3_calls := s3_calls w;
                                        fetch_calls := fetch_calls w + S k;
                                        trace := trace w
                                          ++ Spec.failed_attempts R D url
                                               (Streaming.put_request penv fileStream E) R k
                                          ++ [Fetch url (Streaming.put_request penv fileStream E)] |}))).
  { remember (run w) as rw eqn:Hrw.
    unfold run, Streaming.uploadFileToZenodo, bind, lift, fetch, console, throw,
      ret, record in Hrw.
    rewrite Hlinks in Hrw. cbv zeta in Hrw. fold url in Hrw. rewrite Hput in Hrw.
    cbn [s3_calls fetch_calls trace] in Hrw.
    destruct (fetch_reply env (fetch_calls w + k) url
                (Streaming.put_request penv fileStream E)) as [r|e];
      [|right; eexists; exact Hrw].
    destruct (ok r) eqn:Hok; cbn [negb] in Hrw; [|right; eexists; exact Hrw].
    left. cbn [s3_calls fetch_calls trace] in Hrw.
    destruct (fetch_reply env (fetch_calls w + S k) (Streaming.probe_url penv url)
                Streaming.probe_request) as [probe|e].
    - destruct (ok probe); cbn [negb] in Hrw.
      + destruct (strict_neq (Streaming.reported_size probe) E).
        * eexists _, []. split; [rewrite Hrw; rewrite <- !app_assoc; reflexivity|].
          split; [reflexivity | eauto].
        * eexists _, [_]. cbn [s3_calls fetch_calls trace] in Hrw.
          split; [rewrite Hrw; rewrite <- !app_assoc; reflexivity|].
          split; [reflexivity | eauto].
      + eexists _, []. split; [rewrite Hrw; rewrite <- !app_assoc; reflexivity|].
          split; [reflexivity | eauto].
    - eexists _, []. split; [rewrite Hrw; rewrite <- !app_assoc; reflexivity|].
          split; [reflexivity | eauto]. }
  destruct Hcases as [(res & tail & Hrun & Htail & r & Hreply & Hok) | (e & Hrun)];
    destruct (added_of_run run w _ _ _ Hrun eq_refl) as [Hout Hadd];
    rewrite Hadd, Hout.
  - assert (Hcount :
              count More.is_head
                ((Spec.failed_attempts R D url (Streaming.put_request penv fileStream E) R k
                  ++ [Fetch url (Streaming.put_request penv fileStream E)])
                 ++ Fetch (Streaming.probe_url penv url) Streaming.probe_request :: tail)
              = 1%nat).
    { rewrite !count_app, Hnohead.
      change (Fetch (Streaming.probe_url penv url) Streaming.probe_request :: tail)
        with ([Fetch (Streaming.probe_url penv url) Streaming.probe_request] ++ tail).
      rewrite count_app, Htail. reflexivity. }
    rewrite Hcount. split; [lia|]. split; [|reflexivity].
    intros _. exists links, k, r. auto.
  - assert (Hcount :
              count More.is_head
                (Spec.failed_attempts R D url (Streaming.put_request penv fileStream E) R k
                 ++ [Fetch url (Streaming.put_request penv fileStream E)])
              = 0%nat)
      by (rewrite count_app, Hnohead; reflexivity).
    rewrite Hcount. split; [lia|]. split; discriminate.
Qed.

(* ===================================================================== *)
(** * Objects that cannot be read *)
(* ===================================================================== *)

(** The outcome and the added events of a run, from one computation of
    it. *)
Lemma run_facts {A} (m : M A) (w : State) (r : Result A) (P : list Event -> Prop) :
  (exists w' evs, m w = (r, w') /\ trace w' = trace w ++ evs /\ P evs) ->
  Spec.outcome m w = r /\ P (Spec.added m w).
Proof.
  intros (w' & evs & Hrun & Htrace & HP).
  destruct (added_of_run m w w' r evs Hrun Htrace) as [-> ->]. auto.
Qed.

(** X5. When the read of the object fails, or comes back without a
    readable body, without a size or with the size 0, the handlers of the
    retrying generations answer 500 after that single read: no request is
    sent to the archive, so no deposition is created.  The streaming
    handler names the reason in its message. *)
Theorem unreadable_object_creates_no_deposition
    (env : Env) (penv : ProcessEnv) (R : nat) (D : Z) (c : Z) (Hc : 0 < c)
    (event : Lambda.S3Event) (w : State) (b k f : string) :
  Common.handler_prelude event = Ok (b, k, f) ->
  match s3_reply env (s3_calls w) {| Bucket := b; Key := k; Range := None |} with
  | Ok out => Body out = None \/ falsy_number (ContentLength out) = true
  | Throw _ => True
  end ->
  let reason :=
    match s3_reply env (s3_calls w) {| Bucket := b; Key := k; Range := None |} with
    | Ok _ => Error "Failed to get file stream from S3"
    | Throw e => e
    end in
  (Spec.outcome (Streaming.handler env penv R D event) w
   = Ok {| Lambda.statusCode := 500;
           Lambda.body := ("Error processing file: " ++ message_or_String reason)%string |}
   /\ (count is_fetch (Spec.added (Streaming.handler env penv R D event) w) = 0%nat
       /\ count is_s3 (Spec.added (Streaming.handler env penv R D event) w) = 1%nat))
  /\ (Spec.outcome (Chunked.handler env penv R D c Hc event) w
      = Ok {| Lambda.statusCode := 500; Lambda.body := "Error processing file" |}
      /\ (count is_fetch (Spec.added (Chunked.handler env penv R D c Hc event) w) = 0%nat
          /\ count is_s3 (Spec.added (Chunked.handler env penv R D c Hc event) w) = 1%nat)).
Proof.
  intros Hp Hreply reason. subst reason.
  destruct (s3_reply env (s3_calls w) {| Bucket := b; Key := k; Range := None |})
    as [out|e] eqn:Hs3.
  - destruct (Body out) as [stream|] eqn:Hbody;
      [destruct Hreply as [Hnone|Hlen]; [discriminate|] | clear Hreply];
      (split;
       apply (run_facts _ _ _ (fun evs => count is_fetch evs = 0%nat
                                          /\ count is_s3 evs = 1%nat));
       do 2 eexists; unfold_run; rewrite Hp;
       cbn [s3_calls fetch_calls trace]; rewrite Hs3, Hbody, ?Hlen; cbn;
       (split; [reflexivity|]);
       rewrite <- !app_assoc; (split; [reflexivity|]); split; reflexivity).
  - destruct e;
      (split;
       apply (run_facts _ _ _ (fun evs => count is_fetch evs = 0%nat
                                          /\ count is_s3 evs = 1%nat));
       do 2 eexists; unfold_run; rewrite Hp;
       cbn [s3_calls fetch_calls trace]; rewrite Hs3; cbn;
       (split; [reflexivity|]);
       rewrite <- !app_assoc; (split; [reflexivity|]); split; reflexivity).
Qed.

Lemma unreadable_object_creates_no_deposition_witness :
  count is_fetch
    (Spec.added
       (Chunked.handler Fixtures.empty_store Fixtures.penv 3 5000 4 four_pos
          (Fixtures.created_object "data/a.csv")) initial)
  = 0%nat.
Proof.
  apply (unreadable_object_creates_no_deposition Fixtures.empty_store Fixtures.penv 3 5000
           4 four_pos (Fixtures.created_object "data/a.csv") initial
           "inbox" "data/a.csv" "a.csv" eq_refl).
  right. reflexivity.
Defined.

(* ===================================================================== *)
(** * The chunked handler, step by step *)
(* ===================================================================== *)

Section SmoothUpload.
Variable env : Env.
Variable penv : ProcessEnv.
Variable R : nat.
Variable D : Z.
Variable c : Z.
Hypothesis c_pos : 0 < c.
Variable stream_of : GetObjectCommand -> Readable.

(** The upload when every stream is there and every PUT is accepted at
    once. *)
Lemma uploadLargeFileToZenodo_smooth deposition links fileName bucket' key size w :
  read_links deposition = Ok links ->
  (forall n cmd, exists out,
      s3_reply env n cmd = Ok out /\ Body out = Some (stream_of cmd)) ->
  (forall n u init, exists r, fetch_reply env n u init = Ok r /\ ok r = true) ->
  Chunked.uploadLargeFileToZenodo env penv R D c c_pos deposition fileName bucket' key size w
  = (Ok tt,
     {| s3_calls := s3_calls w + List.length (Chunked.ranges c c_pos size);
        fetch_calls := fetch_calls w + List.length (Chunked.ranges c c_pos size);
        trace := trace w
                 ++ Spec.smooth_trace penv
                      (template (bucket links) ++ "/" ++ encodeURIComponent fileName)%string
                      bucket' key size stream_of (Chunked.ranges c c_pos size) |}).
Proof.
  intros Hlinks Hs3 Hnet.
  unfold Chunked.uploadLargeFileToZenodo, bind, lift. rewrite Hlinks. cbv zeta.
  rewrite upload_loop_for_each. apply for_each_smooth; assumption.
Qed.

Lemma smooth_trace_counts url bucket' key size (p : list (Z * Z)) :
  count is_put (Spec.smooth_trace penv url bucket' key size stream_of p) = List.length p
  /\ count is_s3 (Spec.smooth_trace penv url bucket' key size stream_of p) = List.length p
  /\ count More.is_head (Spec.smooth_trace penv url bucket' key size stream_of p)
     = 0%nat.
Proof.
  induction p as [|r p' (IH1 & IH2 & IH3)]; [repeat split|].
  change (Spec.smooth_trace penv url bucket' key size stream_of (r :: p'))
    with ([S3Send (Spec.range_get bucket' key r);
           Fetch url (Spec.range_put penv size r (stream_of (Spec.range_get bucket' key r)));
           Console (LogUploaded (snd r + 1) size)]
          ++ Spec.smooth_trace penv url bucket' key size stream_of p').
  rewrite !count_app, IH1, IH2, IH3. repeat split.
Qed.
End SmoothUpload.

Lemma ranges_length (c : Z) (Hc : 0 < c) (size : Z) :
  List.length (Chunked.ranges c Hc size) = More.range_count c size.
Proof.
  unfold Chunked.ranges, More.range_count.
  rewrite (ranges_from_closed c Hc size (Z.to_nat ((size + c - 1) / c)) 0)
    by (f_equal; f_equal; lia).
  rewrite length_map, length_seq. reflexivity.
Qed.

(** X6. The chunked handler on the happy path.  When every read of S3
    gives a stream and the size [size], not zero, when the creation is
    accepted with a deposition that has links, and every request is
    accepted at the first attempt, the handler answers 200.  It reads the
    whole object once (and does not use that stream), sends the creation
    request, then for each range of the plan reads the range and sends it
    with one PUT: as many PUTs as the quotient of [size] by the chunk
    ceiling, rounded up, and one read more than that.  It sends no
    verification probe. *)
Theorem chunked_handler_happy_path
    (env : Env) (penv : ProcessEnv) (R : nat) (D : Z) (c : Z) (Hc : 0 < c)
    (event : Lambda.S3Event) (w : State) (b k f : string)
    (stream_of : GetObjectCommand -> Readable) (size : Z)
    (created : Response) (id : option Z) (links : DepositionLinks) :
  let url := (template (bucket links) ++ "/" ++ encodeURIComponent f)%string in
  let run := Chunked.handler env penv R D c Hc event in
  Common.handler_prelude event = Ok (b, k, f) ->
  (forall n cmd, exists out,
      s3_reply env n cmd = Ok out /\ Body out = Some (stream_of cmd)
      /\ ContentLength out = Some size) ->
  size <> 0 ->
  fetch_reply env (fetch_calls w) (Common.creation_url penv)
    (Common.creation_request penv) = Ok created ->
  json created = Ok (JsonValue id (Some links)) ->
  (forall n u init, exists r, fetch_reply env n u init = Ok r /\ ok r = true) ->
  Spec.outcome run w
  = Ok {| Lambda.statusCode := 200;
          Lambda.body := "File processed and published successfully" |}
  /\ Spec.added run w
     = [Console (LogProcessing k f);
        S3Send {| Bucket := b; Key := k; Range := None |};
        Console (LogFileSize size);
        Console LogCreating;
        Fetch (Common.creation_url penv) (Common.creation_request penv);
        Console (LogDepositionCreated id);
        Console LogStartUpload]
       ++ Spec.smooth_trace penv url b k size stream_of (Chunked.ranges c Hc size)
       ++ [Console (LogSuccess k); Console (LogZenodoUrl (html links))]
  /\ count is_put (Spec.added run w) = More.range_count c size
  /\ count is_s3 (Spec.added run w) = S (More.range_count c size)
  /\ count More.is_head (Spec.added run w) = 0%nat.
Proof.
  intros url run Hp Hs3 Hsize Hcreate Hjson Hnet.
  assert (Hs3' : forall n cmd, exists out,
             s3_reply env n cmd = Ok out /\ Body out = Some (stream_of cmd)).
  { intros n cmd. destruct (Hs3 n cmd) as (out & H1 & H2 & _). eauto. }
  destruct (Hs3 (s3_calls w) {| Bucket := b; Key := k; Range := None |})
    as (out & Hfirst & Hbody & Hlen).
  assert (Hcreated : ok created = true).
  { destruct (Hnet (fetch_calls w) (Common.creation_url penv)
                (Common.creation_request penv)) as (r & Hr & Hok).
    rewrite Hcreate in Hr. injection Hr as <-. exact Hok. }
  assert (Hfalsy : falsy_number (Some size) = false)
    by (simpl; apply Z.eqb_neq; assumption).
  assert (Hrun :
            exists w',
              run w = (Ok {| Lambda.statusCode := 200;
                             Lambda.body := "File processed and published successfully" |},
                       w')
              /\ trace w'
                 = trace w
                   ++ [Console (LogProcessing k f);
                       S3Send {| Bucket := b; Key := k; Range := None |};
                       Console (LogFileSize size);
                       Console LogCreating;
                       Fetch (Common.creation_url penv) (Common.creation_request penv);
                       Console (LogDepositionCreated id);
                       Console LogStartUpload]
                   ++ Spec.smooth_trace penv url b k size stream_of (Chunked.ranges c Hc size)
                   ++ [Console (LogSuccess k); Console (LogZenodoUrl (html links))]).
  { eexists. split.
    - unfold run. unfold_run. rewrite Hp. cbn [s3_calls fetch_calls trace].
      rewrite Hfirst, Hbody, Hlen, Hfalsy.
      rewrite (fetchWithRetry_first_try _ _ _ _ _ _ _ created) by exact Hcreate.
      rewrite Hcreated, Hjson. cbn [negb read_id read_links].
      rewrite (uploadLargeFileToZenodo_smooth env penv R D c Hc stream_of
                 (JsonValue id (Some links)) links)
        by (reflexivity || assumption).
      reflexivity.
    - cbn [trace]. fold url. rewrite <- !app_assoc. reflexivity. }
  destruct Hrun as (w' & Hrun & Htrace).
  destruct (added_of_run run w w' _ _ Hrun Htrace) as [Hout Hadd].
  destruct (smooth_trace_counts penv stream_of url b k size (Chunked.ranges c Hc size))
    as (Hputs & Hreads & Hnohead).
  split; [exact Hout|]. split; [exact Hadd|].
  rewrite Hadd, !count_app, Hputs, Hreads, ranges_length.
  split; [unfold count; cbn; lia|]. split; [unfold count; cbn; lia|].
  rewrite Hnohead. reflexivity.
Qed.

Lemma chunked_handler_happy_path_witness :
  count is_put
    (Spec.added
       (Chunked.handler (Fixtures.healthy "10") Fixtures.penv 3 5000 4 four_pos
          (Fixtures.created_object "data/a.csv")) initial)
  = More.range_count 4 10.
Proof.
  apply (chunked_handler_happy_path (Fixtures.healthy "10") Fixtures.penv 3 5000
           4 four_pos (Fixtures.created_object "data/a.csv") initial
           "inbox" "data/a.csv" "a.csv" (fun _ => "0123456789"%string) 10
           Fixtures.created (Some 42) Fixtures.links eq_refl).
  - intros n cmd. exists Fixtures.ten_bytes. repeat split.
  - discriminate.
  - reflexivity.
  - reflexivity.
  - intros n u init. simpl.
    destruct (String.eqb (template (method init)) "POST");
      [|destruct (String.eqb (template (method init)) "HEAD")];
      eexists; split; reflexivity.
Defined.

(* ===================================================================== *)
(** * A range that is refused *)
(* ===================================================================== *)

Lemma for_each_app {A} (f : A -> M unit) (a b : list A) (w : State) :
  Spec.for_each f (a ++ b) w
  = match Spec.for_each f a w with
    | (Ok _, w') => Spec.for_each f b w'
    | (Throw e, w') => (Throw e, w')
    end.
Proof.
  revert w. induction a as [|x a' IH]; intros w; [reflexivity|].
  cbn [app Spec.for_each]. unfold bind.
  destruct (f x w) as [[u|e] w1]; [apply IH | reflexivity].
Qed.

Section RefusedRange.
Variable env : Env.
Variable penv : ProcessEnv.
Variable R : nat.
Variable D : Z.
Variables url bucket' key : string.
Variable size : Z.
Variable stream_of : GetObjectCommand -> Readable.
Hypothesis streams :
  forall n cmd, exists out, s3_reply env n cmd = Ok out /\ Body out = Some (stream_of cmd).

Let upload_range := Spec.upload_range env penv R D url bucket' key size.
Let smooth_trace := Spec.smooth_trace penv url bucket' key size stream_of.

(** The ranges [p] go through when the next [length p] requests are
    accepted at once. *)
Lemma for_each_smooth_prefix (p : list (Z * Z)) : forall w,
  (forall i u init, (i < List.length p)%nat ->
     exists r, fetch_reply env (fetch_calls w + i) u init = Ok r /\ ok r = true) ->
  Spec.for_each upload_range p w
  = (Ok tt,
     {| s3_calls := s3_calls w + List.length p;
        fetch_calls := fetch_calls w + List.length p;
        trace := trace w ++ smooth_trace p |}).
Proof.
  induction p as [|r p' IH]; intros w Hnet.
  - simpl. unfold ret, smooth_trace, Spec.smooth_trace. simpl.
    rewrite !Nat.add_0_r, app_nil_r, state_eta. reflexivity.
  - simpl Spec.for_each. unfold bind.
    unfold upload_range at 1, Spec.upload_range, bind, s3Client_send.
    destruct (streams (s3_calls w) (Spec.range_get bucket' key r)) as (out & -> & ->).
    rewrite fetchWithRetry_unfold. cbn [fetch_calls].
    destruct (Hnet 0%nat url
                (Spec.range_put penv size r (stream_of (Spec.range_get bucket' key r)))
                ltac:(simpl; lia))
      as (resp & Hresp & Hokr).
    rewrite Nat.add_0_r in Hresp. rewrite Hresp, Hokr.
    cbn [negb]. unfold console, record. cbn [s3_calls fetch_calls trace].
    rewrite IH.
    + cbn [s3_calls fetch_calls trace].
      f_equal. f_equal; [simpl; lia | simpl; lia |].
      unfold smooth_trace, Spec.smooth_trace. simpl. rewrite <- !app_assoc. reflexivity.
    + cbn [fetch_calls]. intros i u init Hi.
      destruct (Hnet (S i) u init ltac:(simpl; lia)) as (r' & Hr' & Hok').
      exists r'. split; [|exact Hok']. rewrite <- Hr'. f_equal. lia.
Qed.

(** A range whose PUT is answered with a non-success status. *)
Lemma upload_range_refused (r : Z * Z) (resp : Response) (w : State) :
  fetch_reply env (fetch_calls w) url
    (Spec.range_put penv size r (stream_of (Spec.range_get bucket' key r))) = Ok resp ->
  ok resp = false ->
  upload_range r w
  = (Throw (Error ("Failed to upload file chunk: " ++ statusText resp)%string),
     {| s3_calls := S (s3_calls w); fetch_calls := S (fetch_calls w);
        trace := trace w
                 ++ [S3Send (Spec.range_get bucket' key r);
                     Fetch url (Spec.range_put penv size r
                                  (stream_of (Spec.range_get bucket' key r)))] |}).
Proof.
  intros Hresp Hok.
  unfold upload_range, Spec.upload_range, bind, s3Client_send.
  destruct (streams (s3_calls w) (Spec.range_get bucket' key r)) as (out & -> & ->).
  rewrite fetchWithRetry_unfold. cbn [fetch_calls]. rewrite Hresp, Hok.
  cbn [negb]. unfold throw. cbn [s3_calls fetch_calls trace].
  rewrite <- app_assoc. reflexivity.
Qed.
End RefusedRange.

(** X7. When the PUT of a range of the plan is answered with a non-success
    status, after the ranges before it went through, the chunked upload
    stops there with the error [Failed to upload file chunk: ...]: the
    ranges before it were read and sent, that range was read and sent
    once, and no later range is read or sent; nothing that was sent is
    taken back. *)
Theorem refused_range_stops_the_upload
    (env : Env) (penv : ProcessEnv) (R : nat) (D : Z) (c : Z) (Hc : 0 < c)
    (deposition : Deposition) (links : DepositionLinks)
    (fileName bucket' key : string) (size : Z) (w : State)
    (stream_of : GetObjectCommand -> Readable)
    (before after : list (Z * Z)) (r : Z * Z) (resp : Response) :
  let url := (template (bucket links) ++ "/" ++ encodeURIComponent fileName)%string in
  let upload :=
    Chunked.uploadLargeFileToZenodo env penv R D c Hc deposition fileName bucket' key size in
  read_links deposition = Ok links ->
  Chunked.ranges c Hc size = before ++ r :: after ->
  (forall n cmd, exists out,
      s3_reply env n cmd = Ok out /\ Body out = Some (stream_of cmd)) ->
  (forall i u init, (i < List.length before)%nat ->
     exists r', fetch_reply env (fetch_calls w + i) u init = Ok r' /\ ok r' = true) ->
  fetch_reply env (fetch_calls w + List.length before) url
    (Spec.range_put penv size r (stream_of (Spec.range_get bucket' key r))) = Ok resp ->
  ok resp = false ->
  Spec.outcome upload w
  = Throw (Error ("Failed to upload file chunk: " ++ statusText resp)%string)
  /\ Spec.added upload w
     = Spec.smooth_trace penv url bucket' key size stream_of before
       ++ [S3Send (Spec.range_get bucket' key r);
           Fetch url (Spec.range_put penv size r
                        (stream_of (Spec.range_get bucket' key r)))].
Proof.
  intros url upload Hlinks Hplan Hs3 Hnet Hresp Hok.
  eapply added_of_run with
    (w' := {| s3_calls := S (s3_calls w + List.length before);
              fetch_calls := S (fetch_calls w + List.length before);
              trace := (trace w ++ Spec.smooth_trace penv url bucket' key size stream_of before)
                       ++ [S3Send (Spec.range_get bucket' key r);
                           Fetch url (Spec.range_put penv size r
                                        (stream_of (Spec.range_get bucket' key r)))] |});
    [|cbn [trace]; rewrite <- app_assoc; reflexivity].
  unfold upload, Chunked.uploadLargeFileToZenodo, bind, lift. rewrite Hlinks. cbv zeta.
  rewrite upload_loop_for_each. fold url. unfold Chunked.ranges in Hplan. rewrite Hplan.
  rewrite for_each_app.
  rewrite (for_each_smooth_prefix env penv R D url bucket' key size stream_of Hs3 before w Hnet).
  cbn [Spec.for_each]. unfold bind.
  rewrite (upload_range_refused env penv R D url bucket' key size stream_of Hs3 r resp)
    by (cbn [fetch_calls]; assumption).
  reflexivity.
Qed.

Lemma refused_range_stops_the_upload_witness :
  Spec.outcome
    (Chunked.uploadLargeFileToZenodo (Samples.refusing 2) Fixtures.penv 3 5000 4 four_pos
       Fixtures.deposition "a.csv" "inbox" "data/a.csv" 10) initial
  = Throw (Error "Failed to upload file chunk: Forbidden").
Proof.
  apply (refused_range_stops_the_upload (Samples.refusing 2) Fixtures.penv 3 5000 4 four_pos
           Fixtures.deposition Fixtures.links "a.csv" "inbox" "data/a.csv" 10 initial
           (fun _ => "0123456789"%string)
           [(0, 3); (4, 7)] [] (8, 9) (Fixtures.response 403 "Forbidden" Fixtures.not_json)
           eq_refl eq_refl).
  - intros n cmd. exists Fixtures.ten_bytes. split; reflexivity.
  - intros i u init Hi. exists (Fixtures.response 200 "OK" Fixtures.not_json).
    destruct i as [|[|i]]; [split; reflexivity | split; reflexivity | simpl in Hi; lia].
  - reflexivity.
  - reflexivity.
Defined.

(** X8. One turn of the upload loop whose PUT fails [k] times, [k <= R],
    before it is accepted: the range is read from S3 once, the same
    request (same headers, same stream as body) is sent [k + 1] times with
    the delay after each failure, and the progress is reported once, with
    the offset that follows the range. *)
Theorem retried_chunk_is_read_once
    (env : Env) (penv : ProcessEnv) (R : nat) (D : Z) (c : Z)
    (url bucket' key : string) (fileSize start : Z) (w : State)
    (out : GetObjectOutput) (stream : Readable) (resp : Response) (k : nat) :
  let end_ := Chunked.chunk_end c fileSize start in
  let request := Chunked.chunk_request penv fileSize start end_ stream in
  let turn := Chunked.upload_chunk env penv R D c url bucket' key fileSize start in
  s3_reply env (s3_calls w) (Chunked.chunk_command bucket' key start end_) = Ok out ->
  Body out = Some stream ->
  (k <= R)%nat ->
  (forall i, (i < k)%nat ->
     exists e, fetch_reply env (fetch_calls w + i) url request = Throw e) ->
  fetch_reply env (fetch_calls w + k) url request = Ok resp ->
  ok resp = true ->
  Spec.outcome turn w = Ok tt
  /\ Spec.added turn w
     = S3Send (Chunked.chunk_command bucket' key start end_)
         :: Spec.failed_attempts R D url request R k
         ++ [Fetch url request; Console (LogUploaded (end_ + 1) fileSize)]
  /\ count is_s3 (Spec.added turn w) = 1%nat
  /\ count is_sleep (Spec.added turn w) = k.
Proof.
  intros end_ request turn Hs3 Hbody Hle Hfail Hresp Hok.
  assert (Hrun :
            turn w
            = (Ok tt,
               {| s3_calls := S (s3_calls w); fetch_calls := fetch_calls w + S k;
                  trace := trace w
                           ++ S3Send (Chunked.chunk_command bucket' key start end_)
                                :: Spec.failed_attempts R D url request R k
                                ++ [Fetch url request;
                                    Console (LogUploaded (end_ + 1) fileSize)] |})).
  { unfold turn, Chunked.upload_chunk, bind, s3Client_send. cbv zeta.
    fold end_. rewrite Hs3, Hbody. fold request.
    rewrite (fetchWithRetry_recovers env R D url request k R _ resp Hle)
      by (cbn [fetch_calls]; assumption).
    rewrite Hok. cbn [negb]. unfold console, record.
    cbn [s3_calls fetch_calls trace]. rewrite <- !app_assoc. reflexivity. }
  destruct (added_of_run turn w _ _ _ Hrun eq_refl) as [Hout Hadd].
  destruct (failed_counts R D url request R k) as [Hsleeps _].
  assert (Hreads : count is_s3 (Spec.failed_attempts R D url request R k) = 0%nat).
  { apply count_filter_none. eapply Forall_impl; [|apply failed_events].
    intros ev [->|[->|[n ->]]]; reflexivity. }
  split; [exact Hout|]. split; [exact Hadd|]. rewrite Hadd.
  change (S3Send (Chunked.chunk_command bucket' key start end_)
            :: Spec.failed_attempts R D url request R k
            ++ [Fetch url request; Console (LogUploaded (end_ + 1) fileSize)])
    with ([S3Send (Chunked.chunk_command bucket' key start end_)]
            ++ Spec.failed_attempts R D url request R k
            ++ [Fetch url request; Console (LogUploaded (end_ + 1) fileSize)]).
  rewrite !count_app, Hsleeps, Hreads. split; unfold count; simpl; lia.
Qed.

Lemma retried_chunk_is_read_once_witness :
  count is_s3
    (Spec.added
       (Chunked.upload_chunk (Samples.flaky_store 2) Fixtures.penv 3 5000 4
          "https://zenodo.org/api/files/b1/a.csv" "inbox" "data/a.csv" 10 4) initial)
  = 1%nat.
Proof.
  apply (retried_chunk_is_read_once (Samples.flaky_store 2) Fixtures.penv 3 5000 4
           "https://zenodo.org/api/files/b1/a.csv" "inbox" "data/a.csv" 10 4 initial
           Fixtures.ten_bytes "0123456789" Fixtures.created 2 eq_refl eq_refl).
  - lia.
  - intros i Hi. exists Fixtures.network_down.
    destruct i as [|[|i]]; [reflexivity | reflexivity | lia].
  - reflexivity.
  - reflexivity.
Defined.

(* ===================================================================== *)
(** * The buffered handler *)
(* ===================================================================== *)

(** X9. The buffered handler on the happy path.  When the object is read
    with a body, whatever size S3 announces, the creation is accepted with
    a deposition that has links and the PUT is accepted, the handler
    answers 200 after one read, the creation request and one PUT of the
    whole buffer whose [Content-Length] is the number of bytes of the
    buffer itself.  An object of zero bytes is sent like any other, with
    [Content-Length] 0. *)
Theorem buffered_handler_happy_path
    (env : Env) (penv : ProcessEnv)
    (event : Lambda.S3Event) (w : State) (b k f : string)
    (out : GetObjectOutput) (stream : Readable)
    (created uploaded : Response) (id : option Z) (links : DepositionLinks) :
  let url := (Buffered.bucket_or_empty links ++ "/" ++ encodeURIComponent f)%string in
  let put :=
    {| method := Some "PUT"%string;
       headers := [("Authorization", "Bearer " ++ template (ZENODO_ACCESS_TOKEN penv));
                   ("Content-Length", Number_toString (Z.of_nat (String.length stream)))]%string;
       body := BufferBody stream;
       timeout := None |} in
  Common.handler_prelude event = Ok (b, k, f) ->
  s3_reply env (s3_calls w) {| Bucket := b; Key := k; Range := None |} = Ok out ->
  Body out = Some stream ->
  fetch_reply env (fetch_calls w) (Common.creation_url penv)
    (Common.creation_request penv) = Ok created ->
  ok created = true ->
  json created = Ok (JsonValue id (Some links)) ->
  fetch_reply env (S (fetch_calls w)) url put = Ok uploaded ->
  ok uploaded = true ->
  Spec.outcome (Buffered.handler env penv event) w
  = Ok {| Lambda.statusCode := 200; Lambda.body := "File processed successfully" |}
  /\ Spec.added (Buffered.handler env penv event) w
     = [Console (LogProcessing k f);
        S3Send {| Bucket := b; Key := k; Range := None |};
        Console LogCreating;
        Fetch (Common.creation_url penv) (Common.creation_request penv);
        Console (LogDepositionResponse (JsonValue id (Some links)));
        Fetch url put;
        Console (LogUploadStatus (status uploaded));
        Console (LogUploadedTo k (html links))].
Proof.
  intros url put Hp Hs3 Hbody Hcreate _ Hjson Hput Huploaded.
  match goal with
  | |- _ = ?res /\ _ = ?evs =>
      apply (run_facts _ _ res (fun added => added = evs))
  end.
  do 2 eexists. split; [|split; [|reflexivity]].
  - unfold_run. rewrite Hp. cbn [s3_calls fetch_calls trace].
    rewrite Hs3, Hbody. cbn [s3_calls fetch_calls trace].
    rewrite Hcreate, Hjson. cbn [read_links s3_calls fetch_calls trace].
    fold url. unfold Buffered.Buffer_length. fold put. rewrite Hput, Huploaded.
    reflexivity.
  - cbn [trace]. rewrite <- !app_assoc. reflexivity.
Qed.

Lemma buffered_handler_happy_path_witness :
  Spec.outcome
    (Buffered.handler Fixtures.empty_store Fixtures.penv
       (Fixtures.created_object "data/empty.bin")) initial
  = Ok {| Lambda.statusCode := 200; Lambda.body := "File processed successfully" |}.
Proof.
  apply (buffered_handler_happy_path Fixtures.empty_store Fixtures.penv
           (Fixtures.created_object "data/empty.bin") initial
           "inbox" "data/empty.bin" "empty.bin" Fixtures.zero_bytes ""%string
           Fixtures.created (Fixtures.response 200 "OK" Fixtures.not_json)
           (Some 42) Fixtures.links);
    reflexivity.
Defined.

(** X10. In every environment the buffered handler sends at most two
    requests and never waits: it has no retry.  A single failure of the
    network, at the creation or at the upload, ends the invocation. *)
Theorem buffered_handler_never_retries
    (env : Env) (penv : ProcessEnv) (event : Lambda.S3Event) (w : State) :
  let run := Buffered.handler env penv event in
  (count is_fetch (Spec.added run w) <= 2)%nat
  /\ count is_sleep (Spec.added run w) = 0%nat
  /\ (count is_s3 (Spec.added run w) <= 1)%nat.
Proof.
  intros run.
  apply (run_facts run w (Spec.outcome run w)
           (fun evs => (count is_fetch evs <= 2)%nat
                       /\ count is_sleep evs = 0%nat
                       /\ (count is_s3 evs <= 1)%nat)).
  unfold Spec.outcome, run. unfold_run.
  destruct (Common.handler_prelude event) as [[[b k] f]|e];
    [|exists w, []; rewrite app_nil_r; repeat split; unfold count; simpl; lia].
  cbn [s3_calls fetch_calls trace].
  destruct (s3_reply env (s3_calls w) {| Bucket := b; Key := k; Range := None |})
    as [out|e];
    [destruct (Body out) as [stream|] |].
  2, 3: do 2 eexists; cbn; rewrite <- !app_assoc;
    (split; [reflexivity|]); (split; [reflexivity|]);
    repeat split; unfold count; simpl; lia.
  cbn [s3_calls fetch_calls trace].
  destruct (fetch_reply env (fetch_calls w) (Common.creation_url penv)
              (Common.creation_request penv)) as [created|e].
  2: { do 2 eexists; cbn; rewrite <- !app_assoc;
       (split; [reflexivity|]); (split; [reflexivity|]);
       repeat split; unfold count; simpl; lia. }
  destruct (json created) as [[|id [links|]]|e].
  1, 3, 4: do 2 eexists; cbn; rewrite <- !app_assoc;
    (split; [reflexivity|]); (split; [reflexivity|]);
    repeat split; unfold count; simpl; lia.
  cbn [read_links s3_calls fetch_calls trace].
  match goal with
  | |- context [fetch_reply env (S (fetch_calls w)) ?u ?i] =>
      destruct (fetch_reply env (S (fetch_calls w)) u i) as [uploaded|e]
  end.
  2: { do 2 eexists; cbn; rewrite <- !app_assoc;
       (split; [reflexivity|]); (split; [reflexivity|]);
       repeat split; unfold count; simpl; lia. }
  destruct (ok uploaded);
    do 2 eexists; cbn; rewrite <- !app_assoc;
    (split; [reflexivity|]); (split; [reflexivity|]);
    repeat split; unfold count; simpl; lia.
Qed.

(* ===================================================================== *)
(** * The methods of the requests *)
(* ===================================================================== *)

Section MethodEmits.
Variable P : Event -> Prop.
Hypothesis P_console : forall msg, P (Console msg).
Hypothesis P_sleep : forall ms, P (Sleep ms).
Hypothesis P_s3 : forall cmd, P (S3Send cmd).
Hypothesis P_post :
  forall url init, method init = Some "POST"%string -> P (Fetch url init).
Hypothesis P_put :
  forall url init, method init = Some "PUT"%string -> P (Fetch url init).
Hypothesis P_head :
  forall url init, method init = Some "HEAD"%string -> P (Fetch url init).

Variable env : Env.
Variable penv : ProcessEnv.
Variable MAX_RETRIES : nat.
Variable RETRY_DELAY : Z.

(** Walks through a computation and leaves the requests to the
    hypotheses on the methods. *)
Ltac emits_method_step :=
  first
    [ emits_step
    | apply P_console | apply P_sleep | apply P_s3
    | apply P_post; reflexivity | apply P_put; reflexivity
    | apply P_head; reflexivity
    | progress cbv zeta
    | lazymatch goal with
      | |- Spec.emits _ _ => fail
      | |- _ => intro
      end ].

Ltac emits_methods := repeat emits_method_step.

Lemma createDataDeposition_methods :
  Spec.emits P (Common.createDataDeposition env penv MAX_RETRIES RETRY_DELAY).
Proof. unfold Common.createDataDeposition. emits_methods. Qed.

Lemma uploadFileToZenodo_methods deposition fileName fileStream fileSize :
  Spec.emits P
    (Streaming.uploadFileToZenodo env penv MAX_RETRIES RETRY_DELAY
       deposition fileName fileStream fileSize).
Proof. unfold Streaming.uploadFileToZenodo. cbv zeta. emits_methods. Qed.

Lemma uploadLargeFileToZenodo_methods c (Hc : 0 < c) deposition fileName bucket' key size :
  Spec.emits P
    (Chunked.uploadLargeFileToZenodo env penv MAX_RETRIES RETRY_DELAY c Hc
       deposition fileName bucket' key size).
Proof.
  unfold Chunked.uploadLargeFileToZenodo. cbv zeta.
  apply emits_bind; [apply emits_lift|]. intros links.
  eapply emits_ext; [intros w; apply upload_loop_for_each|].
  apply emits_for_each. intros r. unfold Spec.upload_range. emits_methods.
Qed.

Lemma Streaming_handler_methods event :
  Spec.emits P (Streaming.handler env penv MAX_RETRIES RETRY_DELAY event).
Proof.
  unfold Streaming.handler, Streaming.handler_try, Streaming.handler_catch.
  apply emits_bind; [apply emits_lift|]. intros [[b k] f]. cbv beta iota zeta.
  repeat first [ apply createDataDeposition_methods
               | apply uploadFileToZenodo_methods
               | emits_method_step ].
Qed.

Lemma Chunked_handler_methods c (Hc : 0 < c) event :
  Spec.emits P (Chunked.handler env penv MAX_RETRIES RETRY_DELAY c Hc event).
Proof.
  unfold Chunked.handler, Chunked.handler_try, Chunked.handler_catch.
  apply emits_bind; [apply emits_lift|]. intros [[b k] f]. cbv beta iota zeta.
  repeat first [ apply createDataDeposition_methods
               | apply uploadLargeFileToZenodo_methods
               | emits_method_step ].
Qed.

Lemma Buffered_handler_methods event :
  Spec.emits P (Buffered.handler env penv event).
Proof.
  unfold Buffered.handler, Buffered.handler_try, Buffered.handler_catch,
    Buffered.createDataDeposition,
    Buffered.streamToBuffer.
  apply emits_bind; [apply emits_lift|]. intros [[b k] f]. cbv beta iota zeta.
  emits_methods.
Qed.
End MethodEmits.

Lemma uses_only_method (methods : list string) (m url : string) (init : RequestInit) :
  In m methods -> method init = Some m -> More.uses_only methods (Fetch url init).
Proof. intros Hin Hm. unfold More.uses_only, More.method_of. rewrite Hm. exact Hin. Qed.

(** X11. Whatever the event and whatever the outside world answers, the
    handlers send creation requests (POST) and uploads (PUT) only, and the
    streaming handler its probe (HEAD) besides: no handler ever sends a
    DELETE, so a deposition that was created is never removed when the
    upload or the verification fails; and the chunked and the buffered
    handlers send no probe. *)
Theorem handlers_never_delete
    (env : Env) (penv : ProcessEnv) (R : nat) (D : Z) (c : Z) (Hc : 0 < c)
    (event : Lambda.S3Event) (w : State) :
  Forall (More.uses_only ["POST"; "PUT"; "HEAD"]%string)
    (Spec.added (Streaming.handler env penv R D event) w)
  /\ Forall (More.uses_only ["POST"; "PUT"]%string)
       (Spec.added (Chunked.handler env penv R D c Hc event) w)
  /\ Forall (More.uses_only ["POST"; "PUT"]%string)
       (Spec.added (Buffered.handler env penv event) w).
Proof.
  split; [|split]; apply emits_added.
  - apply Streaming_handler_methods; try (intros; exact I);
      intros url init Hm;
      (eapply uses_only_method; [|exact Hm]); simpl; auto.
  - apply Chunked_handler_methods; try (intros; exact I);
      intros url init Hm;
      (eapply uses_only_method; [|exact Hm]); simpl; auto.
  - apply Buffered_handler_methods; try (intros; exact I);
      intros url init Hm;
      (eapply uses_only_method; [|exact Hm]); simpl; auto.
Qed.

Lemma handlers_never_delete_witness :
  Forall (More.uses_only ["POST"; "PUT"]%string)
    (Spec.added
       (Chunked.handler (Samples.refusing 2) Fixtures.penv 3 5000 4 four_pos
          (Fixtures.created_object "data/a.csv")) initial).
Proof.
  apply (handlers_never_delete (Samples.refusing 2) Fixtures.penv 3 5000 4 four_pos
           (Fixtures.created_object "data/a.csv") initial).
Defined.

(* ===================================================================== *)
(** * The metadata helpers *)
(* ===================================================================== *)

Lemma prefix_app (p s : string) :
  String.prefix p s = true <-> exists t, s = (p ++ t)%string.
Proof.
  revert s. induction p as [|a p IH]; intros s.
  - split; [intros _; exists s; reflexivity | intros _; destruct s; reflexivity].
  - destruct s as [|b s]; simpl.
    + split; [discriminate | intros [t Ht]; discriminate].
    + destruct (ascii_dec a b) as [->|Hab].
      * rewrite IH. split; intros [t Ht]; exists t; [rewrite Ht; reflexivity|].
        injection Ht as ->. reflexivity.
      * split; [discriminate|]. intros [t Ht]. injection Ht as Ha _. congruence.
Qed.

(** X12. The guard of the metadata helpers is a test of prefix and nothing
    more: a URL passes when [ZENODO_URL] is not set, or when the URL is the
    value of [ZENODO_URL] followed by anything at all, so also by more
    characters of a host name.  With [ZENODO_URL] not set or empty, every
    URL passes. *)
Theorem guard_is_a_prefix_test (penv : ProcessEnv) (url : string) :
  Buffered.invalid_data_url penv url = false
  <-> match ZENODO_URL penv with
      | None => True
      | Some base => exists rest, url = (base ++ rest)%string
      end.
Proof.
  unfold Buffered.invalid_data_url, startsWith.
  destruct (ZENODO_URL penv) as [base|]; [|split; reflexivity || auto].
  cbn [falsy_string template].
  destruct base as [|a base'].
  - split; [intros _; exists url; reflexivity | intros _; reflexivity].
  - change (String.eqb (String a base') EmptyString) with false. cbn [negb andb].
    rewrite negb_false_iff. apply prefix_app.
Qed.

Example guard_accepts_longer_host :
  Buffered.invalid_data_url Fixtures.penv "https://zenodo.org.example.net/x" = false.
Proof. reflexivity. Qed.

(** X13. When the URL passes the guard, each metadata helper sends exactly
    one request, whatever the answer, and never waits or retries.  It
    returns a value in these cases only: [updateDataDeposition] and
    [fetchDataDeposition] when the status is 200 and the body is JSON,
    [createDataDepositionVersion] when the status is 201 and the body is
    JSON, [deleteZenodoEntity] when the status is 204 or 404; and what
    [deleteZenodoEntity] returns is always [true]. *)
Theorem metadata_helpers_follow_status
    (env : Env) (penv : ProcessEnv) (url : string) (params : Json) (w : State) :
  Buffered.invalid_data_url penv url = false ->
  let reply init := fetch_reply env (fetch_calls w) url init in
  let accepted (m : option string) (hs : list (string * string)) (b : RequestBody)
               (expected : Z) (d : Deposition) :=
    exists r, reply {| method := m; headers := hs; body := b; timeout := None |} = Ok r
              /\ status r = expected /\ json r = Ok d in
  let json_headers :=
    [("Authorization", "Bearer " ++ template (ZENODO_ACCESS_TOKEN penv));
     ("Content-Type", "application/json")]%string in
  (forall d, Spec.outcome (Buffered.updateDataDeposition env penv url params) w = Ok d
             <-> accepted (Some "PUT"%string) json_headers (JsonText params) 200 d)
  /\ (forall d, Spec.outcome (Buffered.fetchDataDeposition env penv url) w = Ok d
                <-> accepted None (Buffered.bearer_only penv) NoBody 200 d)
  /\ (forall d, Spec.outcome (Buffered.createDataDepositionVersion env penv url) w = Ok d
                <-> accepted (Some "POST"%string) (Buffered.bearer_only penv) NoBody 201 d)
  /\ (forall v, Spec.outcome (Buffered.deleteZenodoEntity env penv url) w = Ok v
                <-> v = true
                    /\ exists r,
                        reply {| method := Some "DELETE"%string;
                                 headers := Buffered.bearer_only penv;
                                 body := NoBody; timeout := None |} = Ok r
                        /\ (status r = 204 \/ status r = 404))
  /\ List.length (Spec.added (Buffered.updateDataDeposition env penv url params) w) = 1%nat
  /\ List.length (Spec.added (Buffered.fetchDataDeposition env penv url) w) = 1%nat
  /\ List.length (Spec.added (Buffered.createDataDepositionVersion env penv url) w) = 1%nat
  /\ List.length (Spec.added (Buffered.deleteZenodoEntity env penv url) w) = 1%nat.
Proof.
  intros Hguard reply accepted json_headers.
  assert (Hone : forall {A} (m : M A) init (k : Response -> M A),
             (forall r w0, snd (k r w0) = w0) ->
             (forall w0, m w0 = bind (fetch env url init) k w0) ->
             List.length (Spec.added m w) = 1%nat).
  { intros A m init k Hk Hm. unfold Spec.added. rewrite Hm. unfold bind, fetch.
    destruct (fetch_reply env (fetch_calls w) url init) as [r|e].
    - rewrite Hk. cbn [snd trace]. rewrite skipn_length_app. reflexivity.
    - cbn [snd trace]. rewrite skipn_length_app. reflexivity. }
  split; [|split; [|split; [|split; [|split; [|split; [|split]]]]]].
  - intros d. unfold Spec.outcome, Buffered.updateDataDeposition. rewrite Hguard.
    unfold bind, fetch, lift, ret, throw, accepted, reply.
    destruct (fetch_reply env (fetch_calls w) url _) as [r|e]; cbn [fst].
    + destruct (Z.eqb_spec (status r) 200) as [Hs|Hs]; cbn [negb fst].
      * destruct (json r) as [d'|e] eqn:Hj; cbn [fst].
        -- split; [intros [= <-]; eauto | intros (r' & [= <-] & _ & Hj'); congruence].
        -- split; [discriminate | intros (r' & [= <-] & _ & Hj'); congruence].
      * split; [discriminate | intros (r' & [= <-] & Hs' & _); contradiction].
    + split; [discriminate | intros (r' & Hr & _); discriminate].
  - intros d. unfold Spec.outcome, Buffered.fetchDataDeposition. rewrite Hguard.
    unfold bind, fetch, lift, ret, throw, accepted, reply.
    destruct (fetch_reply env (fetch_calls w) url _) as [r|e]; cbn [fst].
    + destruct (Z.eqb_spec (status r) 200) as [Hs|Hs]; cbn [negb fst].
      * destruct (json r) as [d'|e] eqn:Hj; cbn [fst].
        -- split; [intros [= <-]; eauto | intros (r' & [= <-] & _ & Hj'); congruence].
        -- split; [discriminate | intros (r' & [= <-] & _ & Hj'); congruence].
      * split; [discriminate | intros (r' & [= <-] & Hs' & _); contradiction].
    + split; [discriminate | intros (r' & Hr & _); discriminate].
  - intros d. unfold Spec.outcome, Buffered.createDataDepositionVersion. rewrite Hguard.
    unfold bind, fetch, lift, ret, throw, accepted, reply.
    destruct (fetch_reply env (fetch_calls w) url _) as [r|e]; cbn [fst].
    + destruct (Z.eqb_spec (status r) 201) as [Hs|Hs]; cbn [negb fst].
      * destruct (json r) as [d'|e] eqn:Hj; cbn [fst].
        -- split; [intros [= <-]; eauto | intros (r' & [= <-] & _ & Hj'); congruence].
        -- split; [discriminate | intros (r' & [= <-] & _ & Hj'); congruence].
      * split; [discriminate | intros (r' & [= <-] & Hs' & _); contradiction].
    + split; [discriminate | intros (r' & Hr & _); discriminate].
  - intros v. unfold Spec.outcome, Buffered.deleteZenodoEntity. rewrite Hguard.
    unfold bind, fetch, ret, throw, reply.
    destruct (fetch_reply env (fetch_calls w) url _) as [r|e]; cbn [fst].
    + destruct (Z.eqb_spec (status r) 204) as [Hs|Hs]; cbn [orb fst].
      * split; [intros [= <-]; eauto | intros [-> _]; reflexivity].
      * destruct (Z.eqb_spec (status r) 404) as [Hs'|Hs']; cbn [fst].
        -- split; [intros [= <-]; eauto | intros [-> _]; reflexivity].
        -- split; [discriminate | intros (_ & r' & [= <-] & [H|H]); contradiction].
    + split; [discriminate | intros (_ & r' & Hr & _); discriminate].
  - eapply Hone; [|intros w0; unfold Buffered.updateDataDeposition;
                   rewrite Hguard; reflexivity].
    intros r w0. unfold lift, bind, ret, throw.
    destruct (negb (status r =? 200)); [reflexivity|]. destruct (json r); reflexivity.
  - eapply Hone; [|intros w0; unfold Buffered.fetchDataDeposition;
                   rewrite Hguard; reflexivity].
    intros r w0. unfold lift, bind, ret, throw.
    destruct (negb (status r =? 200)); [reflexivity|]. destruct (json r); reflexivity.
  - eapply Hone; [|intros w0; unfold Buffered.createDataDepositionVersion;
                   rewrite Hguard; reflexivity].
    intros r w0. unfold lift, bind, ret, throw.
    destruct (negb (status r =? 201)); [reflexivity|]. destruct (json r); reflexivity.
  - eapply Hone; [|intros w0; unfold Buffered.deleteZenodoEntity;
                   rewrite Hguard; reflexivity].
    intros r w0. unfold ret, throw.
    destruct ((status r =? 204) || (status r =? 404)); reflexivity.
Qed.

Lemma metadata_helpers_follow_status_witness :
  List.length
    (Spec.added
       (Buffered.deleteZenodoEntity (Fixtures.healthy "0") Fixtures.penv
          "https://zenodo.org/api/deposit/depositions/1") initial)
  = 1%nat.
Proof.
  apply (metadata_helpers_follow_status (Fixtures.healthy "0") Fixtures.penv
           "https://zenodo.org/api/deposit/depositions/1" (JObject []) initial eq_refl).
Defined.

(* ===================================================================== *)
(** * Escaping a file name and reading it back *)
(* ===================================================================== *)

(** Facts on single bytes, by inspection of the 256 of them. *)
Lemma unreserved_is_ascii (c : ascii) :
  uri_unreserved c = true -> (N_of_ascii c < 128)%N /\ Ascii.eqb c "%" = false.
Proof.
  destruct c as [[] [] [] [] [] [] [] []]; intros H;
    try discriminate H; split; reflexivity.
Qed.

Lemma read_one_escape (c : ascii) (rest : string) :
  read_escapes (percent_escape c ++ rest)
  = option_map (cons (Escaped (N_of_ascii c))) (read_escapes rest).
Proof.
  destruct c as [[] [] [] [] [] [] [] []];
    cbn; destruct (read_escapes rest); reflexivity.
Qed.

Lemma read_escapes_encoded (s : string) :
  read_escapes (encodeURIComponent s) = Some (More.escaped_units s).
Proof.
  induction s as [|c r IH]; [reflexivity|].
  cbn [encodeURIComponent More.escaped_units].
  destruct (uri_unreserved c) eqn:Hc.
  - destruct (unreserved_is_ascii c Hc) as [_ Hp].
    cbn [append read_escapes]. rewrite Hp, IH. reflexivity.
  - rewrite read_one_escape, IH. reflexivity.
Qed.

Lemma between_spec (low high : N) (c : ascii) :
  More.between low high c = true <-> (low <= N_of_ascii c <= high)%N.
Proof.
  unfold More.between. rewrite andb_true_iff, !N.leb_le. reflexivity.
Qed.

(** Solves the comparisons of [utf8_lead] and of the decoder once the
    ranges of the bytes are known. *)
Ltac decide_bytes :=
  repeat match goal with
         | |- context [(?a <? ?b)%N] => destruct (N.ltb_spec a b); try lia
         | |- context [(?a <=? ?b)%N] => destruct (N.leb_spec a b); try lia
         | |- context [(?a =? ?b)%N] => destruct (N.eqb_spec a b); try lia
         end.

Lemma decode_plain (c : ascii) (us : list UriUnit) :
  decode_units None (Plain c :: us) = option_map (String c) (decode_units None us).
Proof. reflexivity. Qed.

Lemma decode_escaped_ascii (c : ascii) (us : list UriUnit) :
  (N_of_ascii c < 128)%N ->
  decode_units None (Escaped (N_of_ascii c) :: us)
  = option_map (String c) (decode_units None us).
Proof.
  intros H. cbn [decode_units]. rewrite ascii_N_embedding.
  decide_bytes. reflexivity.
Qed.

Lemma decode_lead (c : ascii) (q : Pending) (us : list UriUnit) :
  (128 <= N_of_ascii c)%N -> utf8_lead (N_of_ascii c) = Some q ->
  decode_units None (Escaped (N_of_ascii c) :: us)
  = option_map (String c) (decode_units (Some q) us).
Proof.
  intros H Hq. cbn [decode_units]. rewrite Hq, ascii_N_embedding.
  decide_bytes. reflexivity.
Qed.

Lemma decode_continuation (c : ascii) (q : Pending) (us : list UriUnit) :
  (lo q <= N_of_ascii c <= hi q)%N ->
  decode_units (Some q) (Escaped (N_of_ascii c) :: us)
  = option_map (String c) (decode_units (More.after q) us).
Proof.
  intros H. cbn [decode_units]. rewrite ascii_N_embedding.
  decide_bytes. reflexivity.
Qed.

Lemma escaped_unit_high (c : ascii) (r : string) :
  (128 <= N_of_ascii c)%N ->
  More.escaped_units (String c r) = Escaped (N_of_ascii c) :: More.escaped_units r.
Proof.
  intros H. cbn [More.escaped_units].
  destruct (uri_unreserved c) eqn:Hc; [|reflexivity].
  destruct (unreserved_is_ascii c Hc) as [Hlow _]. lia.
Qed.

(** The lead bytes of the well-formed sequences, as the decoder sees
    them. *)
Lemma two_bytes_lead (c1 c2 : ascii) :
  More.between 194 223 c1 && More.between 128 191 c2 = true ->
  exists q, utf8_lead (N_of_ascii c1) = Some q /\ more q = 1%nat
            /\ (128 <= N_of_ascii c1)%N
            /\ (lo q <= N_of_ascii c2 <= hi q)%N /\ (128 <= N_of_ascii c2)%N.
Proof.
  rewrite andb_true_iff, !between_spec. intros [H1 H2].
  exists {| more := 1; lo := 128; hi := 191 |}.
  split; [unfold utf8_lead; decide_bytes; reflexivity|]. simpl. lia.
Qed.

Lemma three_bytes_lead (c1 c2 : ascii) :
  More.three_bytes c1 c2 = true ->
  exists q, utf8_lead (N_of_ascii c1) = Some q /\ more q = 2%nat
            /\ (128 <= N_of_ascii c1)%N
            /\ (lo q <= N_of_ascii c2 <= hi q)%N /\ (128 <= N_of_ascii c2)%N.
Proof.
  unfold More.three_bytes. rewrite !orb_true_iff, !andb_true_iff, !between_spec.
  intros [[[[H1 H2]|[H1 H2]]|[H1 H2]]|[H1 H2]].
  - exists {| more := 2; lo := 160; hi := 191 |}.
    split; [unfold utf8_lead; decide_bytes; reflexivity|]. simpl. lia.
  - exists {| more := 2; lo := 128; hi := 191 |}.
    split; [unfold utf8_lead; decide_bytes; reflexivity|]. simpl. lia.
  - exists {| more := 2; lo := 128; hi := 159 |}.
    split; [unfold utf8_lead; decide_bytes; reflexivity|]. simpl. lia.
  - exists {| more := 2; lo := 128; hi := 191 |}.
    split; [unfold utf8_lead; decide_bytes; reflexivity|]. simpl. lia.
Qed.

Lemma four_bytes_lead (c1 c2 : ascii) :
  More.four_bytes c1 c2 = true ->
  exists q, utf8_lead (N_of_ascii c1) = Some q /\ more q = 3%nat
            /\ (128 <= N_of_ascii c1)%N
            /\ (lo q <= N_of_ascii c2 <= hi q)%N /\ (128 <= N_of_ascii c2)%N.
Proof.
  unfold More.four_bytes. rewrite !orb_true_iff, !andb_true_iff, !between_spec.
  intros [[[H1 H2]|[H1 H2]]|[H1 H2]].
  - exists {| more := 3; lo := 144; hi := 191 |}.
    split; [unfold utf8_lead; decide_bytes; reflexivity|]. simpl. lia.
  - exists {| more := 3; lo := 128; hi := 191 |}.
    split; [unfold utf8_lead; decide_bytes; reflexivity|]. simpl. lia.
  - exists {| more := 3; lo := 128; hi := 143 |}.
    split; [unfold utf8_lead; decide_bytes; reflexivity|]. simpl. lia.
Qed.

(** The decoder reads the escaped form of well-formed UTF-8 back. *)
Lemma decode_escaped_units (n : nat) : forall s,
  (String.length s <= n)%nat -> More.is_utf8 s = true ->
  decode_units None (More.escaped_units s) = Some s.
Proof.
  induction n as [|n IH]; intros s Hlen Hs.
  - destruct s; [reflexivity | simpl in Hlen; lia].
  - destruct s as [|c1 r1]; [reflexivity|].
    cbn [More.is_utf8] in Hs. cbn [String.length] in Hlen.
    destruct (More.between 0 127 c1) eqn:H1.
    { apply between_spec in H1.
      cbn [More.escaped_units].
      destruct (uri_unreserved c1);
        [rewrite decode_plain | rewrite decode_escaped_ascii by lia];
        rewrite IH by (assumption || lia); reflexivity. }
    destruct r1 as [|c2 r2]; [discriminate|]. cbn [String.length] in Hlen.
    destruct (More.between 194 223 c1 && More.between 128 191 c2) eqn:H2.
    { destruct (two_bytes_lead c1 c2 H2) as (q & Hq & Hmore & Hb1 & Hb2 & Hh2).
      rewrite (escaped_unit_high c1) by assumption.
      rewrite (escaped_unit_high c2) by assumption.
      rewrite (decode_lead c1 q) by assumption.
      rewrite (decode_continuation c2 q) by assumption.
      unfold More.after. rewrite Hmore.
      rewrite IH by (assumption || lia). reflexivity. }
    destruct r2 as [|c3 r3]; [discriminate|]. cbn [String.length] in Hlen.
    destruct (More.three_bytes c1 c2 && More.between 128 191 c3) eqn:H3.
    { apply andb_true_iff in H3. destruct H3 as [H3 Hc3]. apply between_spec in Hc3.
      destruct (three_bytes_lead c1 c2 H3) as (q & Hq & Hmore & Hb1 & Hb2 & Hh2).
      rewrite (escaped_unit_high c1) by assumption.
      rewrite (escaped_unit_high c2) by assumption.
      rewrite (escaped_unit_high c3) by lia.
      rewrite (decode_lead c1 q) by assumption.
      rewrite (decode_continuation c2 q) by assumption.
      unfold More.after at 1. rewrite Hmore.
      rewrite decode_continuation by (simpl; lia).
      unfold More.after. cbn [more].
      rewrite IH by (assumption || lia). reflexivity. }
    destruct r3 as [|c4 r4]; [discriminate|]. cbn [String.length] in Hlen.
    destruct (More.four_bytes c1 c2 && More.between 128 191 c3 && More.between 128 191 c4)
      eqn:H4; [|discriminate].
    apply andb_true_iff in H4. destruct H4 as [H4 Hc4].
    apply andb_true_iff in H4. destruct H4 as [H4 Hc3].
    apply between_spec in Hc3. apply between_spec in Hc4.
    destruct (four_bytes_lead c1 c2 H4) as (q & Hq & Hmore & Hb1 & Hb2 & Hh2).
    rewrite (escaped_unit_high c1) by assumption.
    rewrite (escaped_unit_high c2) by assumption.
    rewrite (escaped_unit_high c3) by lia.
    rewrite (escaped_unit_high c4) by lia.
    rewrite (decode_lead c1 q) by assumption.
    rewrite (decode_continuation c2 q) by assumption.
    unfold More.after at 1. rewrite Hmore.
    rewrite decode_continuation by (simpl; lia).
    unfold More.after at 1. cbn [more].
    rewrite decode_continuation by (simpl; lia).
    unfold More.after. cbn [more].
    rewrite IH by (assumption || lia). reflexivity.
Qed.

(** X14. Escaping and reading back.  For every string that is well-formed
    UTF-8 (every JavaScript string without lone surrogates),
    [decodeURIComponent(encodeURIComponent(s))] is [s]: the path under
    which a handler uploads a file decodes to the file name it took from
    the key, whatever characters the name holds. *)
Theorem encodeURIComponent_decodes_back (s : string) :
  More.is_utf8 s = true ->
  decodeURIComponent (encodeURIComponent s) = Ok s.
Proof.
  intros Hs. unfold decodeURIComponent.
  rewrite read_escapes_encoded.
  rewrite (decode_escaped_units (String.length s) s (Nat.le_refl _) Hs).
  reflexivity.
Qed.

Lemma encodeURIComponent_decodes_back_witness :
  decodeURIComponent
    (encodeURIComponent
       ("r" ++ String (ascii_of_N 195) (String (ascii_of_N 169) "sum") ++ " 100%/a+b?.csv"))
  = Ok ("r" ++ String (ascii_of_N 195) (String (ascii_of_N 169) "sum") ++ " 100%/a+b?.csv")%string.
Proof.
  apply (encodeURIComponent_decodes_back
           ("r" ++ String (ascii_of_N 195) (String (ascii_of_N 169) "sum") ++ " 100%/a+b?.csv")).
  reflexivity.
Defined.

Lemma encoded_chars (s : string) (c : ascii) :
  In c (list_ascii_of_string (encodeURIComponent s)) ->
  uri_unreserved c = true \/ c = "%"%char.
Proof.
  induction s as [|x r IH]; [intros []|].
  cbn [encodeURIComponent].
  destruct (uri_unreserved x) eqn:Hx.
  - cbn [append list_ascii_of_string]. intros [<-|Hin]; [left; exact Hx | auto].
  - unfold percent_escape. cbn [append list_ascii_of_string].
    intros [<-|[<-|[<-|Hin]]]; [right; reflexivity | left | left | auto];
      clear; destruct x as [[] [] [] [] [] [] [] []]; reflexivity.
Qed.

(** X15. The escaped file name is one path segment.  It holds letters,
    digits, [- _ . ! ~ * ' ( )] and percent escapes only: no [/], no [?],
    no [#], no space.  So the address of an upload, the bucket link
    followed by [/] and the escaped name, ends with exactly that segment,
    whatever the file name is. *)
Theorem escaped_file_name_is_one_segment (base f : string) :
  (forall c, In c (list_ascii_of_string (encodeURIComponent f)) ->
             uri_unreserved c = true \/ c = "%"%char)
  /\ Spec.has_slash (encodeURIComponent f) = false
  /\ mem_ascii "?" (encodeURIComponent f) = false
  /\ mem_ascii "#" (encodeURIComponent f) = false
  /\ mem_ascii " " (encodeURIComponent f) = false
  /\ pop (split_slash (base ++ "/" ++ encodeURIComponent f))
     = Some (encodeURIComponent f).
Proof.
  assert (Hchars := encoded_chars f).
  assert (Hnone : forall x : ascii,
             uri_unreserved x = false -> x <> "%"%char ->
             mem_ascii x (encodeURIComponent f) = false).
  { intros x Hx Hp. unfold mem_ascii.
    destruct (existsb (Ascii.eqb x) (list_ascii_of_string (encodeURIComponent f)))
      eqn:He; [|reflexivity].
    apply existsb_exists in He. destruct He as (c & Hin & Hc).
    apply Ascii.eqb_eq in Hc. subst c.
    destruct (Hchars x Hin) as [H|H]; congruence. }
  assert (Hslash : Spec.has_slash (encodeURIComponent f) = false)
    by (apply Hnone; [reflexivity | discriminate]).
  split; [exact Hchars|]. split; [exact Hslash|].
  split; [apply Hnone; [reflexivity | discriminate]|].
  split; [apply Hnone; [reflexivity | discriminate]|].
  split; [apply Hnone; [reflexivity | discriminate]|].
  unfold split_slash. apply split_slash_from_after. exact Hslash.
Qed.

(* ===================================================================== *)
(** * A probe that disagrees *)
(* ===================================================================== *)

(** X16. The streaming handler and a probe that disagrees.  When the
    object was read and uploaded as on the happy path but the probe, with
    a success status, reports a size [A] that is not the size [n] of the
    object, both of them numbers that JavaScript holds exactly, the
    handler answers 500 and its message holds both sizes.  A probe
    without [Content-Length], or with an empty one, reports 0; one whose
    header, after its white space, starts with neither a digit nor a sign
    reports [NaN]. *)
Theorem streaming_handler_reports_mismatch
    (env : Env) (penv : ProcessEnv) (R : nat) (D : Z)
    (event : Lambda.S3Event) (w : State) (b k f : string)
    (out : GetObjectOutput) (stream : Readable) (n : Z)
    (created uploaded probe : Response) (id : option Z) (links : DepositionLinks) :
  let url := (template (bucket links) ++ "/" ++ encodeURIComponent f)%string in
  let A := Streaming.reported_size probe in
  Common.handler_prelude event = Ok (b, k, f) ->
  s3_reply env (s3_calls w) {| Bucket := b; Key := k; Range := None |} = Ok out ->
  Body out = Some stream ->
  ContentLength out = Some n ->
  n <> 0 ->
  isSafeInteger n = true ->
  fetch_reply env (fetch_calls w) (Common.creation_url penv)
    (Common.creation_request penv) = Ok created ->
  ok created = true ->
  json created = Ok (JsonValue id (Some links)) ->
  fetch_reply env (S (fetch_calls w)) url (Streaming.put_request penv stream n)
  = Ok uploaded ->
  ok uploaded = true ->
  fetch_reply env (S (S (fetch_calls w))) (Streaming.probe_url penv url)
    Streaming.probe_request = Ok probe ->
  ok probe = true ->
  is_exact A = true ->
  A <> Some n ->
  Spec.outcome (Streaming.handler env penv R D event) w
  = Ok {| Lambda.statusCode := 500;
          Lambda.body := ("Error processing file: Final file size mismatch. Expected: "
                            ++ Number_toString n ++ ", Actual: " ++ template_number A)%string |}
  /\ (falsy_string (content_length probe) = true -> A = Some 0)
  /\ (forall h c r, content_length probe = Some h -> skip_spaces h = String c r ->
                    is_digit c = false -> c <> "-"%char -> c <> "+"%char -> A = None).
Proof.
  intros url A Hp Hs3 Hbody Hlen Hn _ Hcreate Hcreated Hjson Hput Huploaded
    Hprobe Hprobed _ Hdiffer.
  assert (Hneq : strict_neq A n = true).
  { destruct (strict_neq A n) eqn:H; [reflexivity|].
    apply strict_neq_false in H. contradiction. }
  assert (Hfalsy : falsy_number (Some n) = false)
    by (simpl; apply Z.eqb_neq; assumption).
  split; [|split].
  - unfold Spec.outcome. unfold_run. rewrite Hp. cbn [s3_calls fetch_calls trace].
    rewrite Hs3, Hbody, Hlen, Hfalsy.
    rewrite (fetchWithRetry_first_try _ _ _ _ _ _ _ created) by exact Hcreate.
    rewrite Hcreated, Hjson. cbn [negb read_id read_links]. fold url.
    rewrite (fetchWithRetry_first_try _ _ _ _ _ _ _ uploaded) by exact Hput.
    rewrite Huploaded. cbn [negb s3_calls fetch_calls trace].
    rewrite Hprobe, Hprobed. cbn [negb]. fold A. rewrite Hneq. reflexivity.
  - intros Hmissing. unfold A, Streaming.reported_size, Streaming.content_length_or_0.
    rewrite Hmissing. reflexivity.
  - intros h c r Hh Hskip Hdigit Hminus Hplus.
    unfold A, Streaming.reported_size, Streaming.content_length_or_0.
    rewrite Hh. cbn [falsy_string template].
    destruct (String.eqb h EmptyString) eqn:He.
    + apply String.eqb_eq in He. subst h. discriminate.
    + unfold parseInt10. rewrite Hskip.
      apply eqb_neq in Hminus. apply eqb_neq in Hplus. rewrite Hminus, Hplus.
      cbn [read_digits]. rewrite Hdigit. reflexivity.
Qed.

(** The probe of the witness answers with a no-break space, a space and
    the digit 7. *)
Lemma streaming_handler_reports_mismatch_witness :
  Spec.outcome
    (Streaming.handler (Fixtures.healthy Samples.padded_7) Fixtures.penv 3 5000
       (Fixtures.created_object "data/a.csv")) initial
  = Ok {| Lambda.statusCode := 500;
          Lambda.body := "Error processing file: Final file size mismatch. Expected: 10, Actual: 7" |}.
Proof.
  apply (streaming_handler_reports_mismatch (Fixtures.healthy Samples.padded_7)
           Fixtures.penv 3 5000
           (Fixtures.created_object "data/a.csv") initial
           "inbox" "data/a.csv" "a.csv" Fixtures.ten_bytes "0123456789" 10
           Fixtures.created (Fixtures.response 200 "OK" Fixtures.not_json)
           (Fixtures.head_reply Samples.padded_7) (Some 42) Fixtures.links);
    try reflexivity; discriminate.
Defined.

(* ===================================================================== *)
(** * Keys without a file name *)
(* ===================================================================== *)

(** X17. An event is refused with [File name is required] exactly when
    the decoded key of its first record is empty or ends with [/]: the
    keys of folder markers.  The refusal comes from every handler, before
    it does anything. *)
Theorem folder_keys_are_refused
    (env : Env) (penv : ProcessEnv) (R : nat) (D : Z)
    (event : Lambda.S3Event) (record : Lambda.S3EventRecord)
    (rest : list Lambda.S3EventRecord) (objectKey : string) (w : State) :
  Lambda.Records event = record :: rest ->
  decodeURIComponent (replace_plus_with_space (Lambda.object_key record)) = Ok objectKey ->
  (Common.handler_prelude event = Throw (Error "File name is required")
   <-> objectKey = EmptyString \/ exists p, objectKey = (p ++ "/")%string)
  /\ (Streaming.handler env penv R D event w
      = (Throw (Error "File name is required"), w)
      <-> objectKey = EmptyString \/ exists p, objectKey = (p ++ "/")%string).
Proof.
  intros Hrec Hdec.
  destruct (pop_split_slash objectKey) as (f & Hpop & Hfinal).
  pose proof (handler_prelude_decoded event record rest objectKey f Hrec Hdec Hpop)
    as Hprelude.
  assert (Hshape : f = EmptyString
                   <-> objectKey = EmptyString \/ exists p, objectKey = (p ++ "/")%string).
  { split.
    - intros ->. destruct Hfinal as [_ [->|[p ->]]]; [left; reflexivity|].
      right. exists p. reflexivity.
    - intros Hk.
      assert (Hempty : Spec.final_segment objectKey EmptyString).
      { split; [reflexivity|]. destruct Hk as [->|[p ->]]; [left; reflexivity|].
        right. exists p. reflexivity. }
      apply final_segment_unique in Hempty. congruence. }
  assert (Hthrown : Common.handler_prelude event = Throw (Error "File name is required")
                    <-> f = EmptyString).
  { rewrite Hprelude. destruct (String.eqb f EmptyString) eqn:He.
    - apply String.eqb_eq in He. split; auto.
    - split; [discriminate|]. intros ->. rewrite String.eqb_refl in He. discriminate. }
  split; [rewrite Hthrown; exact Hshape|].
  rewrite <- Hshape, <- Hthrown.
  unfold Streaming.handler, Streaming.handler_try. unfold bind at 1, lift.
  destruct (Common.handler_prelude event) as [[[b k] f']|e].
  - cbv beta iota zeta. unfold bind at 1, console at 1.
    split; [|discriminate]. intros H. exfalso.
    match type of H with
    | try_catch ?m ?h ?w0 = _ =>
        unfold try_catch in H; destruct (m w0) as [[res|e] w1]; [discriminate H|];
        destruct (Streaming_handler_catch_total e w1) as (res & w' & Hcatch & _);
        rewrite Hcatch in H; discriminate H
    end.
  - split; [intros [= ->]; reflexivity | intros [= ->]; reflexivity].
Qed.

Lemma folder_keys_are_refused_witness :
  Common.handler_prelude (Fixtures.created_object "incoming/2024/")
  = Throw (Error "File name is required").
Proof.
  apply (folder_keys_are_refused (Fixtures.healthy "10") Fixtures.penv 3 5000
           (Fixtures.created_object "incoming/2024/")
           {| Lambda.bucket_name := "inbox"; Lambda.object_key := "incoming/2024/" |}
           [] "incoming/2024/" initial eq_refl eq_refl).
  right. exists "incoming/2024"%string. reflexivity.
Defined.

(* ===================================================================== *)
(** * The messages of the retrying transport *)
(* ===================================================================== *)

Lemma messages_app (a b : list Event) :
  More.messages (a ++ b) = More.messages a ++ More.messages b.
Proof. unfold More.messages. apply flat_map_app. Qed.

Lemma messages_failed_attempts R D url options (k : nat) : forall retries,
  (k <= retries <= R)%nat ->
  More.messages (Spec.failed_attempts R D url options retries k)
  = map (fun i => LogRetry (Z.of_nat (R - retries + i) + 1) D) (seq 0 k).
Proof.
  induction k as [|k IH]; intros retries Hle; [reflexivity|].
  cbn [Spec.failed_attempts]. rewrite messages_app.
  cbn [More.messages flat_map app seq map].
  rewrite (IH (Nat.pred retries)) by lia.
  rewrite <- seq_shift, map_map.
  f_equal; [f_equal; lia|].
  apply map_ext. intros i. f_equal. lia.
Qed.

(** X18. In every environment the messages that a call of
    [fetchWithRetry] writes are the announcements of its retries, numbered
    1, 2, ... in this order, each with the configured delay: as many as
    the call waits, and at most [R]. *)
Theorem retry_messages_are_numbered
    (env : Env) (R : nat) (D : Z) (url : string) (options : RequestInit) (w : State) :
  let run := Common.fetchWithRetry env R D url options R in
  exists k,
    (k <= R)%nat
    /\ More.messages (Spec.added run w)
       = map (fun i => LogRetry (Z.of_nat i + 1) D) (seq 0 k)
    /\ count is_sleep (Spec.added run w) = k.
Proof.
  intros run.
  destruct (fetchWithRetry_cases env R D url options R w) as (k & Hle & _ & Hrun & _).
  destruct (added_of_run run w _ _ _ Hrun eq_refl) as [_ Hadd].
  destruct (failed_counts R D url options R k) as [Hs _].
  exists k. split; [exact Hle|]. rewrite Hadd. split.
  - rewrite messages_app, messages_failed_attempts by lia.
    cbn [More.messages flat_map]. rewrite app_nil_r.
    apply map_ext. intros i. do 2 f_equal. lia.
  - rewrite count_app, Hs. unfold count. simpl. lia.
Qed.

(* ===================================================================== *)
(** * The bytes that an upload announces *)
(* ===================================================================== *)

Lemma declared_total_app (a b : list Event) :
  More.declared_total (a ++ b) = More.declared_total a + More.declared_total b.
Proof.
  unfold More.declared_total. induction a as [|x a IH]; simpl; [reflexivity|].
  rewrite IH. lia.
Qed.

Lemma declared_length_range_put penv url size r stream :
  More.declared_length (Fetch url (Spec.range_put penv size r stream))
  = Spec.range_length r.
Proof.
  pose proof (Number_toString_parse (Spec.range_length r)) as Hparse.
  unfold More.declared_length, is_put, More.header, Spec.range_put.
  remember (Number_toString (Spec.range_length r)) as v.
  simpl. rewrite Hparse. reflexivity.
Qed.

Lemma declared_total_smooth penv url bucket' key size stream_of (p : list (Z * Z)) :
  More.declared_total (Spec.smooth_trace penv url bucket' key size stream_of p)
  = Spec.total_length p.
Proof.
  induction p as [|r p' IH]; [reflexivity|].
  change (Spec.smooth_trace penv url bucket' key size stream_of (r :: p'))
    with ([S3Send (Spec.range_get bucket' key r);
           Fetch url (Spec.range_put penv size r (stream_of (Spec.range_get bucket' key r)));
           Console (LogUploaded (snd r + 1) size)]
          ++ Spec.smooth_trace penv url bucket' key size stream_of p').
  rewrite declared_total_app, IH.
  unfold Spec.total_length. cbn [map fold_right]. f_equal.
  unfold More.declared_total. cbn [map fold_right].
  rewrite declared_length_range_put. cbn [More.declared_length]. lia.
Qed.

(** X19. When every stream is there and every PUT is accepted at once, the
    [Content-Length] values of the PUTs of a chunked upload add up to the
    size of the object: every byte is announced once. *)
Theorem announced_bytes_add_up
    (env : Env) (penv : ProcessEnv) (R : nat) (D : Z) (c : Z) (Hc : 0 < c)
    (deposition : Deposition) (links : DepositionLinks)
    (fileName bucket' key : string) (size : Z) (w : State)
    (stream_of : GetObjectCommand -> Readable) :
  0 <= size ->
  read_links deposition = Ok links ->
  (forall n cmd, exists out,
      s3_reply env n cmd = Ok out /\ Body out = Some (stream_of cmd)) ->
  (forall n u init, exists r, fetch_reply env n u init = Ok r /\ ok r = true) ->
  More.declared_total
    (Spec.added
       (Chunked.uploadLargeFileToZenodo env penv R D c Hc deposition fileName
          bucket' key size) w)
  = size.
Proof.
  intros Hsize Hlinks Hs3 Hnet.
  pose proof (uploadLargeFileToZenodo_smooth env penv R D c Hc stream_of deposition links
                fileName bucket' key size w Hlinks Hs3 Hnet) as Hrun.
  destruct (added_of_run _ w _ _ _ Hrun eq_refl) as [_ Hadd].
  rewrite Hadd, declared_total_smooth.
  rewrite (PlanFacts.chain_total_length 0 _ size); [lia|].
  apply ranges_from_chain. assumption.
Qed.

Lemma announced_bytes_add_up_witness :
  More.declared_total
    (Spec.added
       (Chunked.uploadLargeFileToZenodo (Fixtures.healthy "10") Fixtures.penv 3 5000
          4 four_pos Fixtures.deposition "a.csv" "inbox" "data/a.csv" 10) initial)
  = 10.
Proof.
  apply (announced_bytes_add_up (Fixtures.healthy "10") Fixtures.penv 3 5000 4 four_pos
           Fixtures.deposition Fixtures.links "a.csv" "inbox" "data/a.csv" 10 initial
           (fun _ => "0123456789"%string)).
  - lia.
  - reflexivity.
  - intros n cmd. exists Fixtures.ten_bytes. split; reflexivity.
  - intros n u init. simpl.
    destruct (String.eqb (template (method init)) "POST");
      [|destruct (String.eqb (template (method init)) "HEAD")];
      eexists; split; reflexivity.
Defined.

(* ===================================================================== *)
(** * A creation that is refused *)
(* ===================================================================== *)

(** X20. A response to the creation request is final, whatever its
    status: with a non-success status at the first attempt, the handlers
    of the retrying generations have sent that one POST and nothing else
    to the archive, have not waited, and answer 500; the streaming handler
    gives the reason text of the response in its message. *)
Theorem refused_creation_is_not_retried
    (env : Env) (penv : ProcessEnv) (R : nat) (D : Z) (c : Z) (Hc : 0 < c)
    (event : Lambda.S3Event) (w : State) (b k f : string)
    (out : GetObjectOutput) (stream : Readable) (r : Response) :
  Common.handler_prelude event = Ok (b, k, f) ->
  s3_reply env (s3_calls w) {| Bucket := b; Key := k; Range := None |} = Ok out ->
  Body out = Some stream ->
  falsy_number (ContentLength out) = false ->
  fetch_reply env (fetch_calls w) (Common.creation_url penv)
    (Common.creation_request penv) = Ok r ->
  ok r = false ->
  let sent_one_post evs :=
    filter is_fetch evs
    = [Fetch (Common.creation_url penv) (Common.creation_request penv)]
    /\ count is_sleep evs = 0%nat in
  (Spec.outcome (Streaming.handler env penv R D event) w
   = Ok {| Lambda.statusCode := 500;
           Lambda.body := ("Error processing file: Failed to create deposition: "
                             ++ statusText r)%string |}
   /\ sent_one_post (Spec.added (Streaming.handler env penv R D event) w))
  /\ (Spec.outcome (Chunked.handler env penv R D c Hc event) w
      = Ok {| Lambda.statusCode := 500; Lambda.body := "Error processing file" |}
      /\ sent_one_post (Spec.added (Chunked.handler env penv R D c Hc event) w)).
Proof.
  intros Hp Hs3 Hbody Hlen Hpost Hok sent_one_post.
  split; apply (run_facts _ _ _ sent_one_post); do 2 eexists;
    (split; [|split]).
  - unfold_run. rewrite Hp. cbn [s3_calls fetch_calls trace].
    rewrite Hs3, Hbody, Hlen.
    rewrite (fetchWithRetry_first_try _ _ _ _ _ _ _ r) by exact Hpost.
    rewrite Hok. cbn. reflexivity.
  - cbn [trace]. rewrite <- !app_assoc. reflexivity.
  - split; reflexivity.
  - unfold_run. rewrite Hp. cbn [s3_calls fetch_calls trace].
    rewrite Hs3, Hbody, Hlen.
    rewrite (fetchWithRetry_first_try _ _ _ _ _ _ _ r) by exact Hpost.
    rewrite Hok. cbn. reflexivity.
  - cbn [trace]. rewrite <- !app_assoc. reflexivity.
  - split; reflexivity.
Qed.

Lemma refused_creation_is_not_retried_witness :
  Spec.outcome
    (Streaming.handler (Fixtures.failing_creation Fixtures.not_json) Fixtures.penv 3 5000
       (Fixtures.created_object "data/a.csv")) initial
  = Ok {| Lambda.statusCode := 500;
          Lambda.body := "Error processing file: Failed to create deposition: INTERNAL SERVER ERROR" |}.
Proof.
  apply (refused_creation_is_not_retried
           (Fixtures.failing_creation Fixtures.not_json) Fixtures.penv 3 5000 4 four_pos
           (Fixtures.created_object "data/a.csv") initial
           "inbox" "data/a.csv" "a.csv" Fixtures.ten_bytes "0123456789"
           (Fixtures.response 500 "INTERNAL SERVER ERROR" Fixtures.not_json));
    reflexivity.
Defined.

(* ===================================================================== *)
(** * Keys that decode *)
(* ===================================================================== *)

Lemma hex_value_below (c : ascii) (v : N) : hex_value c = Some v -> (v < 16)%N.
Proof.
  destruct c as [[] [] [] [] [] [] [] []]; cbn; intros H;
    try discriminate H; injection H as <-; reflexivity.
Qed.

(** The units that the code reads in a key whose escapes are complete:
    they stand for the bytes of the decoded key of the specification. *)
Lemma read_escapes_specified (n : nat) : forall (key d : string),
  (String.length key <= n)%nat ->
  More.is_ascii key = true ->
  Spec.percent_decoded key = Some d ->
  exists us,
    read_escapes (replace_plus_with_space key) = Some us
    /\ More.units_text us = d
    /\ forallb More.ascii_unit us = true.
Proof.
  induction n as [|n IH]; intros key d Hlen Hascii Hspec.
  - destruct key; [|simpl in Hlen; lia].
    injection Hspec as <-. exists []. repeat split.
  - destruct key as [|c r].
    + injection Hspec as <-. exists []. repeat split.
    + unfold More.is_ascii in Hascii. cbn [list_ascii_of_string forallb] in Hascii.
      apply andb_true_iff in Hascii. destruct Hascii as [Hc Hr].
      fold (More.is_ascii r) in Hr.
      cbn [replace_plus_with_space read_escapes Spec.percent_decoded] in *.
      destruct (Ascii.eqb c "%") eqn:Hpercent.
      * apply Ascii.eqb_eq in Hpercent. subst c.
        change (Ascii.eqb "%" "+") with false. cbv iota.
        change (Ascii.eqb "%" "%") with true. cbv iota.
        destruct r as [|h [|l r']]; try discriminate.
        rewrite <- !hex_value_digit in Hspec.
        destruct (hex_value h) as [hi'|] eqn:Hh; [|discriminate].
        destruct (hex_value l) as [lo'|] eqn:Hl; [|discriminate].
        destruct (Spec.percent_decoded r') as [d'|] eqn:Hd'; [|discriminate].
        injection Hspec as <-.
        unfold More.is_ascii in Hr. cbn [list_ascii_of_string forallb] in Hr.
        apply andb_true_iff in Hr. destruct Hr as [_ Hr].
        apply andb_true_iff in Hr. destruct Hr as [_ Hr].
        destruct (IH r' d') as (us & Hus & Htext & Hunits);
          [simpl in Hlen; lia | exact Hr | exact Hd' |].
        cbn [replace_plus_with_space].
        assert (Hkeep : forall x v, hex_value x = Some v ->
                                    (if Ascii.eqb x "+" then " "%char else x) = x).
        { intros x v Hx. destruct (Ascii.eqb x "+") eqn:Hplus; [|reflexivity].
          apply Ascii.eqb_eq in Hplus. subst x. discriminate. }
        rewrite (Hkeep h hi' Hh), (Hkeep l lo' Hl), Hh, Hl, Hus.
        exists (Escaped (16 * hi' + lo') :: us).
        split; [reflexivity|]. split.
        -- cbn [More.units_text More.unit_byte]. rewrite Htext. reflexivity.
        -- cbn [forallb More.ascii_unit]. rewrite Hunits.
           apply hex_value_below in Hh. apply hex_value_below in Hl.
           rewrite andb_true_r. apply N.ltb_lt. lia.
      * destruct (Spec.percent_decoded r) as [d'|] eqn:Hd'; [|discriminate].
        injection Hspec as <-.
        destruct (IH r d') as (us & Hus & Htext & Hunits);
          [simpl in Hlen; lia | exact Hr | exact Hd' |].
        assert (Hstill : Ascii.eqb (if Ascii.eqb c "+" then " "%char else c) "%" = false).
        { destruct (Ascii.eqb c "+"); [reflexivity | exact Hpercent]. }
        rewrite Hstill, Hus.
        exists (Plain (if Ascii.eqb c "+" then " "%char else c) :: us).
        split; [reflexivity|]. split.
        -- cbn [More.units_text More.unit_byte]. rewrite Htext. reflexivity.
        -- cbn [forallb More.ascii_unit]. rewrite Hunits, andb_true_r.
           destruct (Ascii.eqb c "+"); [reflexivity | exact Hc].
Qed.

(** A unit of a key in ASCII that stands for a byte of ASCII is read as
    that byte; one that stands for another byte is an escape. *)
Lemma decode_low_unit (u : UriUnit) (us : list UriUnit) :
  More.ascii_unit u = true -> (N_of_ascii (More.unit_byte u) < 128)%N ->
  decode_units None (u :: us)
  = option_map (String (More.unit_byte u)) (decode_units None us).
Proof.
  intros Hu Hlow. destruct u as [c|b]; [reflexivity|].
  cbn [More.unit_byte More.ascii_unit] in *. apply N.ltb_lt in Hu.
  rewrite N_ascii_embedding in Hlow by exact Hu.
  cbn [decode_units]. decide_bytes. reflexivity.
Qed.

Lemma high_unit_is_escape (u : UriUnit) :
  More.ascii_unit u = true -> (128 <= N_of_ascii (More.unit_byte u))%N ->
  u = Escaped (N_of_ascii (More.unit_byte u)).
Proof.
  intros Hu Hhigh. destruct u as [c|b]; cbn [More.unit_byte More.ascii_unit] in *.
  - apply between_spec in Hu. lia.
  - apply N.ltb_lt in Hu. rewrite N_ascii_embedding by exact Hu. reflexivity.
Qed.

(** The decoder accepts the units of a key in ASCII whose bytes are
    well-formed UTF-8. *)
Lemma decode_ascii_units (n : nat) : forall us,
  (List.length us <= n)%nat ->
  forallb More.ascii_unit us = true ->
  More.is_utf8 (More.units_text us) = true ->
  decode_units None us = Some (More.units_text us).
Proof.
  induction n as [|n IH]; intros us Hlen Hunits Hs.
  - destruct us; [reflexivity | simpl in Hlen; lia].
  - destruct us as [|u1 r1]; [reflexivity|].
    cbn [More.units_text More.is_utf8] in Hs. cbn [List.length] in Hlen.
    cbn [forallb] in Hunits. apply andb_true_iff in Hunits. destruct Hunits as [Hu1 Hr1].
    cbn [More.units_text].
    destruct (More.between 0 127 (More.unit_byte u1)) eqn:H1.
    { apply between_spec in H1.
      rewrite decode_low_unit by (assumption || lia).
      rewrite IH by (assumption || lia). reflexivity. }
    destruct r1 as [|u2 r2]; [discriminate|]. cbn [List.length] in Hlen.
    cbn [forallb] in Hr1. apply andb_true_iff in Hr1. destruct Hr1 as [Hu2 Hr2].
    cbn [More.units_text] in Hs |- *.
    destruct (More.between 194 223 (More.unit_byte u1)
              && More.between 128 191 (More.unit_byte u2)) eqn:H2.
    { destruct (two_bytes_lead _ _ H2) as (q & Hq & Hmore & Hb1 & Hb2 & Hh2).
      rewrite (high_unit_is_escape u1) at 1 by assumption.
      rewrite (high_unit_is_escape u2) at 1 by assumption.
      rewrite (decode_lead _ q) by assumption.
      rewrite (decode_continuation _ q) by assumption.
      unfold More.after. rewrite Hmore.
      rewrite IH by (assumption || lia). reflexivity. }
    destruct r2 as [|u3 r3]; [discriminate|]. cbn [List.length] in Hlen.
    cbn [forallb] in Hr2. apply andb_true_iff in Hr2. destruct Hr2 as [Hu3 Hr3].
    cbn [More.units_text] in Hs |- *.
    destruct (More.three_bytes (More.unit_byte u1) (More.unit_byte u2)
              && More.between 128 191 (More.unit_byte u3)) eqn:H3.
    { apply andb_true_iff in H3. destruct H3 as [H3 Hc3]. apply between_spec in Hc3.
      destruct (three_bytes_lead _ _ H3) as (q & Hq & Hmore & Hb1 & Hb2 & Hh2).
      rewrite (high_unit_is_escape u1) at 1 by assumption.
      rewrite (high_unit_is_escape u2) at 1 by assumption.
      rewrite (high_unit_is_escape u3) at 1 by (assumption || lia).
      rewrite (decode_lead _ q) by assumption.
      rewrite (decode_continuation _ q) by assumption.
      unfold More.after at 1. rewrite Hmore.
      rewrite decode_continuation by (simpl; lia).
      unfold More.after. cbn [more].
      rewrite IH by (assumption || lia). reflexivity. }
    destruct r3 as [|u4 r4]; [discriminate|]. cbn [List.length] in Hlen.
    cbn [forallb] in Hr3. apply andb_true_iff in Hr3. destruct Hr3 as [Hu4 Hr4].
    cbn [More.units_text] in Hs |- *.
    destruct (More.four_bytes (More.unit_byte u1) (More.unit_byte u2)
              && More.between 128 191 (More.unit_byte u3)
              && More.between 128 191 (More.unit_byte u4))
      eqn:H4; [|discriminate].
    apply andb_true_iff in H4. destruct H4 as [H4 Hc4].
    apply andb_true_iff in H4. destruct H4 as [H4 Hc3].
    apply between_spec in Hc3. apply between_spec in Hc4.
    destruct (four_bytes_lead _ _ H4) as (q & Hq & Hmore & Hb1 & Hb2 & Hh2).
    rewrite (high_unit_is_escape u1) at 1 by assumption.
    rewrite (high_unit_is_escape u2) at 1 by assumption.
    rewrite (high_unit_is_escape u3) at 1 by (assumption || lia).
    rewrite (high_unit_is_escape u4) at 1 by (assumption || lia).
    rewrite (decode_lead _ q) by assumption.
    rewrite (decode_continuation _ q) by assumption.
    unfold More.after at 1. rewrite Hmore.
    rewrite decode_continuation by (simpl; lia).
    unfold More.after at 1. cbn [more].
    rewrite decode_continuation by (simpl; lia).
    unfold More.after. cbn [more].
    rewrite IH by (assumption || lia). reflexivity.
Qed.

(** X21. Keys that decode.  Take a key written in ASCII whose escapes are
    complete and whose percent-decoded form [d], every [+] read as a
    space, is well-formed UTF-8: the shape of the keys in the events of
    S3.  The decoding of the handlers succeeds on it and gives [d]; the
    handlers go on with the final path segment of [d] as file name, or
    refuse the event when that segment is empty. *)
Theorem encoded_key_is_decoded
    (event : Lambda.S3Event) (record : Lambda.S3EventRecord)
    (rest : list Lambda.S3EventRecord) (d : string) :
  Lambda.Records event = record :: rest ->
  More.is_ascii (Lambda.object_key record) = true ->
  Spec.percent_decoded (Lambda.object_key record) = Some d ->
  More.is_utf8 d = true ->
  decodeURIComponent (replace_plus_with_space (Lambda.object_key record)) = Ok d
  /\ exists fileName,
      Spec.final_segment d fileName
      /\ Common.handler_prelude event
         = if String.eqb fileName EmptyString
           then Throw (Error "File name is required")
           else Ok (Lambda.bucket_name record, d, fileName).
Proof.
  intros Hrec Hascii Hspec Hutf8.
  destruct (read_escapes_specified _ _ d (Nat.le_refl _) Hascii Hspec)
    as (us & Hread & Htext & Hunits).
  assert (Hdec : decodeURIComponent (replace_plus_with_space (Lambda.object_key record))
                 = Ok d).
  { unfold decodeURIComponent. rewrite Hread.
    rewrite (decode_ascii_units _ us (Nat.le_refl _) Hunits) by (rewrite Htext; exact Hutf8).
    rewrite Htext. reflexivity. }
  split; [exact Hdec|].
  destruct (pop_split_slash d) as (fileName & Hpop & Hfinal).
  exists fileName. split; [exact Hfinal|].
  exact (handler_prelude_decoded event record rest d fileName Hrec Hdec Hpop).
Qed.

Lemma encoded_key_is_decoded_witness :
  Common.handler_prelude (Fixtures.created_object Samples.escaped_key)
  = Ok ("inbox", Samples.decoded_key, "Q1 2024+.csv").
Proof.
  destruct (encoded_key_is_decoded (Fixtures.created_object Samples.escaped_key)
              {| Lambda.bucket_name := "inbox"; Lambda.object_key := Samples.escaped_key |}
              [] Samples.decoded_key eq_refl eq_refl eq_refl eq_refl)
    as (_ & fileName & Hfinal & Hprelude).
  assert (Hname : fileName = "Q1 2024+.csv").
  { apply final_segment_unique in Hfinal. vm_compute in Hfinal. congruence. }
  subst fileName. exact Hprelude.
Defined.
